(** * spdx-sbom-generator: the pip metadata decoder

    A shallow embedding of [internal/modules/pip/worker/decoder.go] and of the
    parts of the pipenv plugin that call it.  Go strings are byte strings
    ([string], a list of [ascii] bytes); a Go map is a [gmap]; a map object
    that is shared between several struct values is a cell of a store, and a
    [*models.Module] is an address in that store; a run-time panic is an
    explicit outcome. *)

From Stdlib Require Import String Ascii.
From stdpp Require Import gmap strings list fin_maps.

(** ** The functions of Go's [strings] package that the decoder calls *)

Module Strings.

Definition byte (n : nat) : ascii := ascii_of_nat n.

Fixpoint ofBytes (l : list nat) : string :=
  match l with
  | [] => ""
  | n :: l' => String (byte n) (ofBytes l')
  end.

Fixpoint hasByte (c : ascii) (s : string) : bool :=
  match s with
  | EmptyString => false
  | String a s' => Ascii.eqb a c || hasByte c s'
  end.

Fixpoint mapBytes (f : ascii -> ascii) (s : string) : string :=
  match s with
  | EmptyString => ""
  | String a s' => String (f a) (mapBytes f s')
  end.

(** [strings.Split(s, sep)] for a one-byte separator, which is what every
    call site of the decoder passes: the pieces between the separators, in
    order; a string without separator (the empty one too) is one piece. *)
Fixpoint Split (s : string) (sep : ascii) : list string :=
  match s with
  | EmptyString => [""]
  | String a s' =>
      if Ascii.eqb a sep then "" :: Split s' sep
      else match Split s' sep with
           | piece :: pieces => String a piece :: pieces
           | [] => [String a ""]
           end
  end.

(** [unicode.IsSpace], on the UTF-8 encoding: the six ASCII spaces and the
    encodings of U+0085, U+00A0, U+1680, U+2000..U+200A, U+2028, U+2029,
    U+202F, U+205F and U+3000. *)
Definition asciiSpace (c : ascii) : bool :=
  bool_decide (nat_of_ascii c ∈ [9; 10; 11; 12; 13; 32]).

Definition wideSpaces : list string :=
  map ofBytes
    ([[194; 133]; [194; 160]; [225; 154; 128]]
     ++ map (λ n, [226; 128; n]) (seq 128 11)
     ++ [[226; 128; 168]; [226; 128; 169]; [226; 128; 175];
         [226; 129; 159]; [227; 128; 128]]).

(** Width in bytes of the space rune that [s] starts with, if it does. *)
Definition leadingSpace (wide : list string) (s : string) : option nat :=
  match s with
  | EmptyString => None
  | String a _ =>
      if asciiSpace a then Some 1
      else String.length <$> List.find (λ w, String.prefix w s) wide
  end.

(** Drops space runes from the front; [skip] counts the bytes of the rune
    being dropped that are still ahead. *)
Fixpoint trimFrom (wide : list string) (skip : nat) (s : string) : string :=
  match s with
  | EmptyString => ""
  | String _ s' =>
      match skip with
      | S k => trimFrom wide k s'
      | O => match leadingSpace wide s with
             | Some (S k) => trimFrom wide k s'
             | _ => s
             end
      end
  end.

Definition TrimLeftSpace (s : string) : string := trimFrom wideSpaces 0 s.

(** From the end, [DecodeLastRuneInString] finds a space rune exactly when
    the string ends with the encoding of one, so trimming on the right is
    trimming the reversed string by the reversed encodings. *)
Definition TrimRightSpace (s : string) : string :=
  String.rev (trimFrom (map String.rev wideSpaces) 0 (String.rev s)).

(** [strings.TrimSpace] *)
Definition TrimSpace (s : string) : string := TrimRightSpace (TrimLeftSpace s).

(** [strings.ToLower]: a string of ASCII bytes only has its upper-case
    letters shifted; any other string goes rune by rune through
    [unicode.ToLower], which is left to the caller as [slow]. *)
Definition isASCII (s : string) : bool :=
  negb (List.existsb (λ c, 128 <=? nat_of_ascii c) (list_ascii_of_string s)).

Definition lowerByte (c : ascii) : ascii :=
  let n := nat_of_ascii c in
  if (65 <=? n) && (n <=? 90) then ascii_of_nat (n + 32) else c.

Definition ToLower (slow : string -> string) (s : string) : string :=
  if isASCII s then mapBytes lowerByte s else slow s.

(** [strings.NewReplacer(old1, new1, old2, new2, ...)]: with old strings of
    two bytes or more this is Go's generic replacer.  It scans left to
    right; at each position the first pair in argument order whose old
    string starts there is replaced and the scan resumes behind it, and
    otherwise the byte is copied.  No old string is empty here. *)
Definition Replacer := list (string * string).

Fixpoint replaceFrom (r : Replacer) (skip : nat) (s : string) : string :=
  match s with
  | EmptyString => ""
  | String a s' =>
      match skip with
      | S k => replaceFrom r k s'
      | O => match List.find (λ on, String.prefix on.1 s) r with
             | Some (old, new) => new +:+ replaceFrom r (String.length old - 1) s'
             | None => String a (replaceFrom r 0 s')
             end
      end
  end.

Definition Replace (r : Replacer) (s : string) : string := replaceFrom r 0 s.

End Strings.

(** ** Data model *)

(** A Go [error] value; [None] is [nil]. *)
Definition error := option string.

(** Outcome of a call that may panic. *)
Inductive panic := NilMapAssignment | IndexOutOfRange | NilDereference.

Inductive result (A : Type) :=
| Ok (a : A)
| Panic (p : panic).
Arguments Ok {A} a.
Arguments Panic {A} p.

Global Instance result_bind : MBind result := λ A B k r,
  match r with
  | Ok a => k a
  | Panic p => Panic p
  end.

(** A loop whose body may panic: the first panic ends it. *)
Fixpoint foldResult {A S} (body : S -> A -> result S) (l : list A) (s : S) : result S :=
  match l with
  | [] => Ok s
  | a :: l' => s' ← body s a; foldResult body l' s'
  end.

(** Identity of a map object and address of a struct behind a pointer. *)
Abbreviation mapref := positive (only parsing).
Abbreviation ptr := positive (only parsing).

Module models.

Inductive TypeContact := Person | Organization.

Record SupplierContact := {
  Type_ : TypeContact;
  ContactName : string;
  Email : string
}.

(** Modelled from the spec: [models.Module] is declared outside the decoder;
    the fields are those of section 3 of the specification and of the
    composite literals in [BuildModule] and [BuildDependencyGraph].  The
    checksum is the "content checksum string" of section 4.2, [Supplier] is
    [None] while the struct is unset, a slice that is [nil] is [None], and
    [Modules] is the identity of the map object, [None] for the nil map. *)
Record Module := {
  Version : string;
  Name : string;
  Path : string;
  LocalPath : string;
  Supplier : option SupplierContact;
  PackageURL : string;
  CheckSum : string;
  PackageHomePage : string;
  LicenseConcluded : string;
  LicenseDeclared : string;
  CommentsLicense : string;
  OtherLicense : option (list ptr);
  Copyright : string;
  PackageComment : string;
  Root : bool;
  Modules : option mapref
}.

#[global] Instance TypeContact_eq_dec : EqDecision TypeContact.
Proof. solve_decision. Defined.

#[global] Instance SupplierContact_eq_dec : EqDecision SupplierContact.
Proof. solve_decision. Defined.

#[global] Instance Module_eq_dec : EqDecision Module.
Proof. solve_decision. Defined.

(** The zero value [var module models.Module], which is also what indexing
    a [map[string]models.Module] with an absent key yields. *)
Definition zero : Module :=
  {| Version := ""; Name := ""; Path := ""; LocalPath := ""; Supplier := None;
     PackageURL := ""; CheckSum := ""; PackageHomePage := "";
     LicenseConcluded := ""; LicenseDeclared := ""; CommentsLicense := "";
     OtherLicense := None; Copyright := ""; PackageComment := "";
     Root := false; Modules := None |}.

End models.

(** Modelled from the spec: [Metadata] is declared in another file of the
    package; the fields are those of section 3 and of the assignments in
    [SetMetadataValues] and [BuildMetadata].  [Modules] is a [[]string];
    the nil slice is [None]. *)
Record Metadata := {
  Name : string;
  Version : string;
  Description : string;
  HomePage : string;
  Author : string;
  AuthorEmail : string;
  License : string;
  Location : string;
  Modules : option (list string);
  ProjectURL : string;
  PackageURL : string;
  PackageJsonURL : string;
  DistInfoPath : string;
  LocalPath : string;
  LicensePath : string;
  MetadataPath : string;
  WheelPath : string
}.

(** [new(Metadata)] *)
Definition newMetadata : Metadata :=
  {| Name := ""; Version := ""; Description := ""; HomePage := ""; Author := "";
     AuthorEmail := ""; License := ""; Location := ""; Modules := None;
     ProjectURL := ""; PackageURL := ""; PackageJsonURL := ""; DistInfoPath := "";
     LocalPath := ""; LicensePath := ""; MetadataPath := ""; WheelPath := "" |}.

(** Modelled from the spec: the key constants are declared in another file;
    section 4.1 lists the recognised keys and says that keys are lower-cased
    before they enter the field map. *)
Definition KeyName : string := "name".
Definition KeyVersion : string := "version".
Definition KeySummary : string := "summary".
Definition KeyHomePage : string := "home-page".
Definition KeyAuthor : string := "author".
Definition KeyAuthorEmail : string := "author-email".
Definition KeyLicense : string := "license".
Definition KeyLocation : string := "location".
Definition KeyRequires : string := "requires".

(** [datamap[key]] on a [map[string]string]: an absent key reads as [""]. *)
Definition index (datamap : gmap string string) (key : string) : string :=
  default "" (datamap !! key).

Definition GetPackageDetailsFunc := string -> string * error.

Record MetadataDecoder := { getPkgDetailsFunc : GetPackageDetailsFunc }.

Definition NewMetadataDecoder (pkgDetailsFunc : GetPackageDetailsFunc) : MetadataDecoder :=
  {| getPkgDetailsFunc := pkgDetailsFunc |}.

Definition httpReplacer : Strings.Replacer := [("https://", ""); ("http://", "")].

(** What [helper.GetLicenses] returns, as far as the decoder reads it. *)
Record LicensePkg := { ID : string; ExtractedText : string; Comments : string }.

(** What the decoder calls and does not define: the helpers of the worker
    and helper packages that sit in other files, and [unicode.ToLower] mapped
    over a string.  Every result below holds for any choice of them. *)
Class Collaborators := {
  unicodeToLower : string -> string;
  SetMetadataToNoAssertion : Metadata -> string -> Metadata;
  BuildProjectUrl : string -> string -> string;
  BuildPackageUrl : string -> string -> string;
  BuildPackageJsonUrl : string -> string -> string;
  BuildDistInfoPath : string -> string -> string -> string;
  BuildLocalPath : string -> string -> string;
  BuildLicenseUrl : string -> string;
  BuildMetadataPath : string -> string;
  BuildWheelPath : string -> string;
  IsAuthorAnOrganization : string -> string -> bool;
  GetPackageChecksum : string -> string -> string -> string;
  GetLicenses : string -> LicensePkg * error;
  BuildLicenseDeclared : string -> string;
  BuildLicenseConcluded : string -> string;
  GetCopyright : string -> string
}.

(** ** The store

    A [models.Module] value carries its dependency map by reference, so a
    copy of the struct shares the map with the original.  The store holds the
    map objects, the structs that sit behind a [*models.Module], and the
    metadata tables ([map[string]*Metadata]).  A [*Metadata] is written by
    its own fetch task only and is read-only once the barrier has been
    passed, so a table holds the record itself. *)
Record Store := {
  objs : gmap ptr models.Module;
  maps : gmap mapref (gmap string ptr);
  tables : gmap mapref (gmap string Metadata)
}.

Definition emptyStore : Store := {| objs := ∅; maps := ∅; tables := ∅ |}.

(** The entries of a dependency map; a reference that has not been written
    yet denotes the empty map. *)
Definition mapAt (s : Store) (r : mapref) : gmap string ptr :=
  default ∅ (maps s !! r).

(** The entries of a metadata table; the nil map has none. *)
Definition tableAt (s : Store) (t : option mapref) : gmap string Metadata :=
  match t with
  | Some r => default ∅ (tables s !! r)
  | None => ∅
  end.

(** [&models.Module{...}] and [&module]: a new address. *)
Definition alloc (m : models.Module) (s : Store) : ptr * Store :=
  let p := fresh (dom (objs s)) in
  (p, {| objs := <[p := m]> (objs s); maps := maps s; tables := tables s |}).

(** [map[string]*models.Module{}]: a new, empty map object. *)
Definition makeMap (s : Store) : mapref * Store :=
  let r := fresh (dom (maps s)) in
  (r, {| objs := objs s; maps := <[r := ∅]> (maps s); tables := tables s |}).

(** [map[string]*Metadata{}] *)
Definition makeTable (s : Store) : mapref * Store :=
  let r := fresh (dom (tables s)) in
  (r, {| objs := objs s; maps := maps s; tables := <[r := ∅]> (tables s) |}).

(** [target[key] = p] on a dependency map; writing to the nil map panics. *)
Definition mapPut (r : mapref) (key : string) (p : ptr) (s : Store) : Store :=
  {| objs := objs s;
     maps := <[r := <[key := p]> (mapAt s r)]> (maps s);
     tables := tables s |}.

Definition mapAssign (target : option mapref) (key : string) (p : ptr) (s : Store) : result Store :=
  match target with
  | None => Panic NilMapAssignment
  | Some r => Ok (mapPut r key p s)
  end.

(** [target[key] = value] on a metadata table. *)
Definition tablePut (r : mapref) (key : string) (value : Metadata) (s : Store) : Store :=
  {| objs := objs s;
     maps := maps s;
     tables := <[r := <[key := value]> (tableAt s (Some r))]> (tables s) |}.

Definition tableAssign (target : option mapref) (key : string) (value : Metadata) (s : Store) : result Store :=
  match target with
  | None => Panic NilMapAssignment
  | Some r => Ok (tablePut r key value s)
  end.

(** [*p] *)
Definition deref (p : option ptr) (s : Store) : result models.Module :=
  match p ≫= (λ a, objs s !! a) with
  | Some m => Ok m
  | None => Panic NilDereference
  end.

(** [*p = m]: the struct at an address is overwritten. *)
Definition mutate (p : ptr) (m : models.Module) (s : Store) : Store :=
  {| objs := <[p := m]> (objs s); maps := maps s; tables := tables s |}.

(** What a dependency map holds once its pointers are followed. *)
Definition contents (s : Store) (r : mapref) : gmap string models.Module :=
  omap (λ p, objs s !! p) (mapAt s r).

(** No map entry points to an address that holds nothing. *)
Definition closed (s : Store) : Prop :=
  ∀ r key p, mapAt s r !! key = Some p → is_Some (objs s !! p).

(** Modelled from the spec: [Packages] is declared in another file; section 6
    gives a package listing entry its name, the one field read here. *)
Module Packages.
Record t := { Name : string }.
End Packages.

(** The spec's words for the override of PackageURL, "HomePage with any
    leading https:// or http:// scheme stripped", to compare with what
    [httpReplacer] does. *)
Definition stripLeadingScheme (homePage : string) : string :=
  if String.prefix "https://" homePage then String.substring 8 (String.length homePage - 8) homePage
  else if String.prefix "http://" homePage then String.substring 7 (String.length homePage - 7) homePage
  else homePage.

(** ** Record parser and identifier builder *)

Section Decoder.
Context `{!Collaborators}.

Definition ToLower : string -> string := Strings.ToLower unicodeToLower.

Definition SetMetadataValues (matadata : Metadata) (datamap : gmap string string) : Metadata :=
  {| Name := index datamap KeyName;
     Version := index datamap KeyVersion;
     Description := index datamap KeySummary;
     HomePage := Strings.Replace httpReplacer (index datamap KeyHomePage);
     Author := index datamap KeyAuthor;
     AuthorEmail := index datamap KeyAuthorEmail;
     License := index datamap KeyLicense;
     Location := index datamap KeyLocation;
     Modules :=
       if String.length (index datamap KeyRequires) =? 0 then Modules matadata
       else Some (map Strings.TrimSpace (Strings.Split (index datamap KeyRequires) ","));
     ProjectURL := ProjectURL matadata;
     PackageURL := PackageURL matadata;
     PackageJsonURL := PackageJsonURL matadata;
     DistInfoPath := DistInfoPath matadata;
     LocalPath := LocalPath matadata;
     LicensePath := LicensePath matadata;
     MetadataPath := MetadataPath matadata;
     WheelPath := WheelPath matadata |}.

(** [for i := 2; i < len(res); i++ { value += ":" + res[i] }] *)
Definition appendRest (value : string) (rest : list string) : string :=
  fold_left (λ v r, v +:+ ":" +:+ r) rest value.

(** One turn of the loop over the lines. *)
Definition parseLine (pkgDataMap : gmap string string) (resline : string) : gmap string string :=
  let res := Strings.Split resline ":" in
  if length res <=? 1 then pkgDataMap
  else
    let value := Strings.TrimSpace (nth 1 res "") in
    let value := if 2 <? length res then appendRest value (drop 2 res) else value in
    <[ToLower (nth 0 res "") := value]> pkgDataMap.

Definition parseLines (packagedetails : string) : gmap string string :=
  fold_left parseLine (Strings.Split packagedetails "010") ∅.

Definition ParseMetadata (metadata : Metadata) (packagedetails : string) : Metadata :=
  SetMetadataValues metadata (parseLines packagedetails).

(** The derived fields, in the order of the assignments. *)
Definition derive (metadata : Metadata) : Metadata :=
  let projectURL := BuildProjectUrl (Name metadata) (Version metadata) in
  let packageURL := BuildPackageUrl (Name metadata) (Version metadata) in
  let packageURL :=
    if 0 <? String.length (HomePage metadata) then HomePage metadata else packageURL in
  let packageJsonURL := BuildPackageJsonUrl (Name metadata) (Version metadata) in
  let distInfoPath :=
    BuildDistInfoPath (Location metadata) (Name metadata) (Version metadata) in
  {| Name := Name metadata;
     Version := Version metadata;
     Description := Description metadata;
     HomePage := HomePage metadata;
     Author := Author metadata;
     AuthorEmail := AuthorEmail metadata;
     License := License metadata;
     Location := Location metadata;
     Modules := Modules metadata;
     ProjectURL := projectURL;
     PackageURL := packageURL;
     PackageJsonURL := packageJsonURL;
     DistInfoPath := distInfoPath;
     LocalPath := BuildLocalPath (Location metadata) (Name metadata);
     LicensePath := BuildLicenseUrl distInfoPath;
     MetadataPath := BuildMetadataPath distInfoPath;
     WheelPath := BuildWheelPath distInfoPath |}.

(** The body of one fetch task; [wg.Done()] only signals the barrier. *)
Definition BuildMetadata (d : MetadataDecoder) (packagename : string)
    (metadata : Metadata) : Metadata :=
  let '(metadatastr, err) := getPkgDetailsFunc d packagename in
  let metadata :=
    match err with
    | Some _ => SetMetadataToNoAssertion metadata packagename
    | None => metadata
    end in
  let metadata := ParseMetadata metadata metadatastr in
  derive metadata.



(** ** Module projector *)

Definition BuildModule (d : MetadataDecoder) (root : bool) (metadata : Metadata)
    (s : Store) : models.Module * Store :=
  let contactType :=
    if IsAuthorAnOrganization (Author metadata) (AuthorEmail metadata)
    then models.Organization else models.Person in
  let supplier :=
    if 0 <? String.length (AuthorEmail metadata)
    then Some {| models.Type_ := contactType;
                 models.ContactName := Author metadata;
                 models.Email := AuthorEmail metadata |}
    else None in
  let '(r, s) := makeMap s in
  ({| models.Version := Version metadata;
      models.Name := Name metadata;
      models.Path := ProjectURL metadata;
      models.LocalPath := LocalPath metadata;
      models.Supplier := supplier;
      models.PackageURL := PackageURL metadata;
      models.CheckSum :=
        GetPackageChecksum (Name metadata) (PackageJsonURL metadata) (WheelPath metadata);
      models.PackageHomePage := HomePage metadata;
      models.LicenseConcluded := "";
      models.LicenseDeclared := "";
      models.CommentsLicense := "";
      models.OtherLicense := Some [];
      models.Copyright := "";
      models.PackageComment := Description metadata;
      models.Root := root;
      models.Modules := Some r |}, s).

(** The last statement of the Go function renames the identifier of the
    licence record it has just read; no field of the module depends on it. *)
Definition BuildModuleLicense (d : MetadataDecoder) (distinfopath : string)
    (module : models.Module) : models.Module :=
  let '(licensePkg, err) := GetLicenses distinfopath in
  match err with
  | Some _ => module
  | None =>
      {| models.Version := models.Version module;
         models.Name := models.Name module;
         models.Path := models.Path module;
         models.LocalPath := models.LocalPath module;
         models.Supplier := models.Supplier module;
         models.PackageURL := models.PackageURL module;
         models.CheckSum := models.CheckSum module;
         models.PackageHomePage := models.PackageHomePage module;
         models.LicenseConcluded := BuildLicenseConcluded (ID licensePkg);
         models.LicenseDeclared := BuildLicenseDeclared (ID licensePkg);
         models.CommentsLicense := Comments licensePkg;
         models.OtherLicense := models.OtherLicense module;
         models.Copyright := GetCopyright (ExtractedText licensePkg);
         models.PackageComment := models.PackageComment module;
         models.Root := models.Root module;
         models.Modules := models.Modules module |}
  end.

(** Every task writes the record of its own package and nothing else, and
    the caller goes on only when all of them are done: the outcome is that
    of running the tasks one after the other. *)
Definition GetMetadataList (d : MetadataDecoder) (pkgs : list Packages.t)
    (s : Store) : (option mapref * list Metadata) * Store :=
  let '(metainfo, s) := makeTable s in
  let step (acc : list Metadata * Store) (pkg : Packages.t) :=
    let '(metaList, s) := acc in
    let metadata := BuildMetadata d (Packages.Name pkg) newMetadata in
    (metaList ++ [metadata], tablePut metainfo (ToLower (Packages.Name pkg)) metadata s) in
  let '(metaList, s) := fold_left step pkgs ([], s) in
  ((Some metainfo, metaList), s).

(** The diagnostic printing at the end of the function leaves no trace in
    the result. *)
Definition ConvertMetadataToModules (d : MetadataDecoder) (isRoot : bool)
    (pkgs : list Packages.t) (modules : list models.Module) (s : Store)
    : (option mapref * list models.Module) * Store :=
  let '((metainfo, metaList), s) := GetMetadataList d pkgs s in
  let build (acc : gmap string Metadata * list models.Module * Store) (metadata : Metadata) :=
    let '(metadatamap, asyncmodules, s) := acc in
    let '(mod_, s) := BuildModule d isRoot metadata s in
    (<[ToLower (models.Name mod_) := metadata]> metadatamap, asyncmodules ++ [mod_], s) in
  let '(metadatamap, asyncmodules, s) := fold_left build metaList (∅, [], s) in
  let license (mod_ : models.Module) :=
    match metadatamap !! ToLower (models.Name mod_) with
    | Some metadata => BuildModuleLicense d (DistInfoPath metadata) mod_
    | None => mod_
    end in
  ((metainfo, modules ++ map license asyncmodules), s).

(** ** Dependency graph builder *)

(** The first loop: the lookup by lower-cased name. *)
Definition moduleMapOf (modules : list models.Module) : gmap string models.Module :=
  fold_left (λ moduleMap module, <[ToLower (models.Name module) := module]> moduleMap)
    modules ∅.

(** [moduleMap[key]]: an absent key reads as the zero struct. *)
Definition lookupModule (moduleMap : gmap string models.Module) (key : string) : models.Module :=
  default models.zero (moduleMap !! key).

(** The composite literal of the inner loop: fifteen fields are taken from
    [depModule], and [Modules], which the literal does not name, is nil. *)
Definition copyOf (depModule : models.Module) : models.Module :=
  {| models.Version := models.Version depModule;
     models.Name := models.Name depModule;
     models.Path := models.Path depModule;
     models.LocalPath := models.LocalPath depModule;
     models.Supplier := models.Supplier depModule;
     models.PackageURL := models.PackageURL depModule;
     models.CheckSum := models.CheckSum depModule;
     models.PackageHomePage := models.PackageHomePage depModule;
     models.LicenseConcluded := models.LicenseConcluded depModule;
     models.LicenseDeclared := models.LicenseDeclared depModule;
     models.CommentsLicense := models.CommentsLicense depModule;
     models.OtherLicense := models.OtherLicense depModule;
     models.Copyright := models.Copyright depModule;
     models.PackageComment := models.PackageComment depModule;
     models.Root := models.Root depModule;
     models.Modules := None |}.

(** Equal in every field but [Modules]. *)
Definition sameButModules (a b : models.Module) : Prop :=
  models.Version a = models.Version b
  ∧ models.Name a = models.Name b
  ∧ models.Path a = models.Path b
  ∧ models.LocalPath a = models.LocalPath b
  ∧ models.Supplier a = models.Supplier b
  ∧ models.PackageURL a = models.PackageURL b
  ∧ models.CheckSum a = models.CheckSum b
  ∧ models.PackageHomePage a = models.PackageHomePage b
  ∧ models.LicenseConcluded a = models.LicenseConcluded b
  ∧ models.LicenseDeclared a = models.LicenseDeclared b
  ∧ models.CommentsLicense a = models.CommentsLicense b
  ∧ models.OtherLicense a = models.OtherLicense b
  ∧ models.Copyright a = models.Copyright b
  ∧ models.PackageComment a = models.PackageComment b
  ∧ models.Root a = models.Root b.

(** One turn of the inner loop. *)
Definition linkDependency (moduleMap : gmap string models.Module) (mod_ : models.Module)
    (s : Store) (modname : string) : result Store :=
  let depModule := lookupModule moduleMap (ToLower modname) in
  let '(p, s) := alloc (copyOf depModule) s in
  mapAssign (models.Modules mod_) (models.Name depModule) p s.

(** One turn of the outer loop. *)
Definition linkRecord (moduleMap : gmap string models.Module) (s : Store)
    (pkgmeta : Metadata) : result Store :=
  let mod_ := lookupModule moduleMap (ToLower (Name pkgmeta)) in
  foldResult (linkDependency moduleMap mod_) (default [] (Modules pkgmeta)) s.

(** [BuildDependencyGraph] when the range over the table yields the records
    in the order [order]. *)
Definition BuildDependencyGraphIn (order : list Metadata) (modules : list models.Module)
    (s : Store) : result (error * Store) :=
  let moduleMap := moduleMapOf modules in
  s ← foldResult (linkRecord moduleMap) order s;
  Ok (None, s).

(** The orders in which a range over the table may yield its records. *)
Definition rangeOrder (pkgsMetadata : gmap string Metadata) (order : list Metadata) : Prop :=
  order ≡ₚ (map_to_list pkgsMetadata).*2.

Definition BuildDependencyGraph (modules : list models.Module)
    (pkgsMetadata : gmap string Metadata) (s : Store) : result (error * Store) :=
  BuildDependencyGraphIn (map_to_list pkgsMetadata).*2 modules s.

(** *** The linking pass as a sequence of map writes

    An edge is one execution of the assignment in the inner loop: the map it
    writes to (the owner's, nil when the owner has none), the key and the
    struct whose address is stored. *)
Definition Edge : Type := option mapref * string * models.Module.

Definition edgeOf (moduleMap : gmap string models.Module) (mod_ : models.Module)
    (modname : string) : Edge :=
  let depModule := lookupModule moduleMap (ToLower modname) in
  (models.Modules mod_, models.Name depModule, copyOf depModule).

Definition edgesOf (moduleMap : gmap string models.Module) (pkgmeta : Metadata) : list Edge :=
  let mod_ := lookupModule moduleMap (ToLower (Name pkgmeta)) in
  map (edgeOf moduleMap mod_) (default [] (Modules pkgmeta)).

Definition edges (moduleMap : gmap string models.Module) (order : list Metadata) : list Edge :=
  order ≫= edgesOf moduleMap.

Definition writeEdge (s : Store) (e : Edge) : result Store :=
  let '(p, s) := alloc e.2 s in
  mapAssign e.1.1 e.1.2 p s.

(** What is read under [key] in the map [r] after the writes [es], when
    [base] was read there before them. *)
Definition replay (es : list Edge) (r : mapref) (key : string)
    (base : option models.Module) : option models.Module :=
  fold_left (λ acc e, if decide (e.1 = (Some r, key)) then Some e.2 else acc) es base.

(** Two writes to the same entry store equal structs. *)
Definition consistent (es : list Edge) : Prop :=
  ∀ e1 e2, e1 ∈ es → e2 ∈ es → e1.1 = e2.1 → e1.2 = e2.2.

(** Every dependency name of every record of the table is the name, up to
    case, of a module of the list. *)
Definition resolves (modules : list models.Module) (pkgsMetadata : gmap string Metadata) : Prop :=
  ∀ key pkgmeta modname,
    pkgsMetadata !! key = Some pkgmeta →
    modname ∈ default [] (Modules pkgmeta) →
    is_Some (moduleMapOf modules !! ToLower modname).

(** [MergeMetadataMap] when the range over [root] yields the entries in the
    order [order]. *)
Definition MergeMetadataMapIn (order : list (string * Metadata)) (root nonroot : option mapref)
    (s : Store) : result (option mapref * Store) :=
  s ← foldResult (λ s kv, tableAssign nonroot kv.1 kv.2 s) order s;
  Ok (nonroot, s).

Definition MergeMetadataMap (root nonroot : option mapref) (s : Store)
    : result (option mapref * Store) :=
  MergeMetadataMapIn (map_to_list (tableAt s root)) root nonroot s.

Definition RemoveDuplicateRootModule (modules : list models.Module)
    : result (list models.Module) :=
  match modules with
  | [] => Panic IndexOutOfRange
  | rootMod :: _ =>
      Ok (fold_left
            (λ updatedModules im,
               if (0 <? im.1) && String.eqb (models.Name im.2) (models.Name rootMod)
               then updatedModules
               else updatedModules ++ [im.2])
            (zip (seq 0 (length modules)) modules) [])
  end.

(** ** The pipenv plugin *)

Record pipenv := {
  rootModule : option ptr;
  basepath : string;
  pkgs : list Packages.t;
  metainfo : option mapref
}.

(** [m.metainfo = t] and [m.rootModule = p] *)
Definition setMetainfo (m : pipenv) (t : option mapref) : pipenv :=
  {| rootModule := rootModule m; basepath := basepath m; pkgs := pkgs m; metainfo := t |}.

Definition setRootModule (m : pipenv) (p : option ptr) : pipenv :=
  {| rootModule := p; basepath := basepath m; pkgs := pkgs m; metainfo := metainfo m |}.

(** The command layer and the helpers of the worker package that the plugin
    calls are defined elsewhere; a host gives what they return. *)
Record Host := {
  IsValidRootModule : string -> bool;
  PushRootModuleToVenv : pipenv -> bool;
  rootModuleOutput : pipenv -> string * error;
  IsRequirementMeet : bool -> string -> bool;
  LoadModules : string -> list Packages.t;
  GetPackageDetails : pipenv -> string -> string * error
}.

Definition fetchRootModule (h : Host) (m : pipenv) (path : string) (s : Store)
    : result ((models.Module * error) * pipenv * Store) :=
  let rootModuleState :=
    if IsValidRootModule h path then PushRootModuleToVenv h m else false in
  let '(modules, m, s) :=
    if rootModuleState then
      let '(result, err) := rootModuleOutput h m in
      let rootPkgs :=
        if bool_decide (err = None) && (0 <? String.length result)
           && IsRequirementMeet h true result
        then LoadModules h result else [] in
      let decoder := NewMetadataDecoder (GetPackageDetails h m) in
      let '((table, modules), s) := ConvertMetadataToModules decoder true rootPkgs [] s in
      (modules, setMetainfo m table, s)
    else ([], m, s) in
  match modules with
  | first :: _ => Ok ((first, None), m, s)
  | [] => Panic IndexOutOfRange
  end.

Definition GetRootModule (h : Host) (m : pipenv) (path : string) (s : Store)
    : result ((option ptr * error) * pipenv * Store) :=
  match rootModule m with
  | None =>
      '((module, err), m, s) ← fetchRootModule h m path s;
      match err with
      | Some e => Ok ((None, Some e), m, s)
      | None =>
          let '(p, s) := alloc module s in
          let m := setRootModule m (Some p) in
          Ok ((rootModule m, None), m, s)
      end
  | Some _ => Ok ((rootModule m, None), m, s)
  end.

Definition ListUsedModules (h : Host) (m : pipenv) (path : string) (s : Store)
    : result ((list models.Module * error) * pipenv * Store) :=
  '((mod_, err), m, s) ← GetRootModule h m path s;
  modules ← match err with
            | None => root ← deref mod_ s; Ok [root]
            | Some _ => Ok []
            end;
  let decoder := NewMetadataDecoder (GetPackageDetails h m) in
  let '((nonroot, modules), s) :=
    ConvertMetadataToModules decoder false (pkgs m) modules s in
  '(merged, s) ← MergeMetadataMap (metainfo m) nonroot s;
  Ok ((modules, None), setMetainfo m merged, s).

Definition ListModulesWithDeps (h : Host) (m : pipenv) (path : string) (s : Store)
    : result ((option (list models.Module) * error) * pipenv * Store) :=
  '((modules, err), m, s) ← ListUsedModules h m path s;
  match err with
  | Some e => Ok ((None, Some e), m, s)
  | None =>
      '(err, s) ← BuildDependencyGraph modules (tableAt s (metainfo m)) s;
      match err with
      | Some e => Ok ((None, Some e), m, s)
      | None => Ok ((Some modules, None), m, s)
      end
  end.

End Decoder.

(** A stand-in for the collaborators, to run the decoder on concrete input.
    Modelled from the spec: section 4.2 describes the builders as templates
    over name and version and as file names under the dist-info path, and
    section 4.3 the record of a failed fetch. *)
Definition NoAssertion : string := "NOASSERTION".

Definition sampleCollaborators : Collaborators :=
  {| unicodeToLower := id;
     SetMetadataToNoAssertion := λ m packagename,
       {| Name := packagename; Version := NoAssertion; Description := NoAssertion;
          HomePage := NoAssertion; Author := NoAssertion; AuthorEmail := NoAssertion;
          License := NoAssertion; Location := NoAssertion; Modules := Some [];
          ProjectURL := NoAssertion; PackageURL := NoAssertion;
          PackageJsonURL := NoAssertion; DistInfoPath := NoAssertion;
          LocalPath := NoAssertion; LicensePath := NoAssertion;
          MetadataPath := NoAssertion; WheelPath := NoAssertion |};
     BuildProjectUrl := λ n v, "pypi.org/project/" +:+ n +:+ "/" +:+ v;
     BuildPackageUrl := λ n v, "pypi.org/project/" +:+ n +:+ "/" +:+ v;
     BuildPackageJsonUrl := λ n v, "pypi.org/pypi/" +:+ n +:+ "/" +:+ v +:+ "/json";
     BuildDistInfoPath := λ l n v, l +:+ "/" +:+ n +:+ "-" +:+ v +:+ ".dist-info";
     BuildLocalPath := λ l n, l +:+ "/" +:+ n;
     BuildLicenseUrl := λ d, d +:+ "/LICENSE";
     BuildMetadataPath := λ d, d +:+ "/METADATA";
     BuildWheelPath := λ d, d +:+ "/WHEEL";
     IsAuthorAnOrganization := λ _ _, false;
     GetPackageChecksum := λ _ _ _, "";
     GetLicenses := λ _, ({| ID := ""; ExtractedText := ""; Comments := "" |}, Some "no license file");
     BuildLicenseDeclared := id;
     BuildLicenseConcluded := id;
     GetCopyright := id |}.

Definition lf : string := String "010" "".

(** Modules and records for concrete runs: only the fields that the graph
    builder reads are set. *)
Definition moduleNamed (name version : string) (dependencies : option mapref) : models.Module :=
  {| models.Version := version; models.Name := name; models.Path := "";
     models.LocalPath := ""; models.Supplier := None; models.PackageURL := "";
     models.CheckSum := ""; models.PackageHomePage := "";
     models.LicenseConcluded := ""; models.LicenseDeclared := "";
     models.CommentsLicense := ""; models.OtherLicense := Some [];
     models.Copyright := ""; models.PackageComment := ""; models.Root := false;
     models.Modules := dependencies |}.

Definition recordNamed (name : string) (requires : option (list string)) : Metadata :=
  {| Name := name; Version := ""; Description := ""; HomePage := ""; Author := "";
     AuthorEmail := ""; License := ""; Location := ""; Modules := requires;
     ProjectURL := ""; PackageURL := ""; PackageJsonURL := ""; DistInfoPath := "";
     LocalPath := ""; LicensePath := ""; MetadataPath := ""; WheelPath := "" |}.

(** A host with a root package [root] that requires [dep1], and a host whose
    project is not a valid root module. *)
Definition sampleHost : Host :=
  {| IsValidRootModule := λ _, true;
     PushRootModuleToVenv := λ _, true;
     rootModuleOutput := λ _, ("root", None);
     IsRequirementMeet := λ _ _, true;
     LoadModules := λ output, [{| Packages.Name := output |}];
     GetPackageDetails := λ _ packageName,
       if String.eqb packageName "root"
       then ("Name: root" +:+ lf +:+ "Version: 1.0" +:+ lf +:+ "Requires: dep1", None)
       else if String.eqb packageName "dep1"
       then ("Name: dep1" +:+ lf +:+ "Version: 2.0" +:+ lf +:+ "Requires: ", None)
       else ("", Some "exit status 1") |}.

Definition rootlessHost : Host :=
  {| IsValidRootModule := λ _, false;
     PushRootModuleToVenv := PushRootModuleToVenv sampleHost;
     rootModuleOutput := rootModuleOutput sampleHost;
     IsRequirementMeet := IsRequirementMeet sampleHost;
     LoadModules := LoadModules sampleHost;
     GetPackageDetails := GetPackageDetails sampleHost |}.

Definition samplePlugin : pipenv :=
  {| rootModule := None; basepath := "."; pkgs := [{| Packages.Name := "dep1" |}];
     metainfo := None |}.

(** The store that a pass leaves, for a pass that returns. *)
Definition storeAfter (run : result (error * Store)) : Store :=
  match run with
  | Ok (_, s) => s
  | Panic _ => emptyStore
  end.



(** ** The keys that [SetMetadataValues] reads *)

Definition recognisedKeys : list string :=
  [KeyName; KeyVersion; KeySummary; KeyHomePage; KeyAuthor; KeyAuthorEmail;
   KeyLicense; KeyLocation; KeyRequires].

(** [metadata.Modules = names] on a copy of the record, to state what a
    function leaves of a record. *)
Definition withModules (metadata : Metadata) (names : option (list string)) : Metadata :=
  {| Name := Name metadata; Version := Version metadata;
     Description := Description metadata; HomePage := HomePage metadata;
     Author := Author metadata; AuthorEmail := AuthorEmail metadata;
     License := License metadata; Location := Location metadata;
     Modules := names;
     ProjectURL := ProjectURL metadata; PackageURL := PackageURL metadata;
     PackageJsonURL := PackageJsonURL metadata; DistInfoPath := DistInfoPath metadata;
     LocalPath := LocalPath metadata; LicensePath := LicensePath metadata;
     MetadataPath := MetadataPath metadata; WheelPath := WheelPath metadata |}.

(** Some old string of the replacer starts at some position of [s]. *)
Fixpoint occursIn (r : Strings.Replacer) (s : string) : bool :=
  match s with
  | EmptyString => false
  | String _ s' => List.existsb (λ on, String.prefix on.1 s) r || occursIn r s'
  end.

(** ** Modules, records and a decoder for concrete runs *)

Definition sampleModules : list models.Module :=
  [moduleNamed "a" "1.0" (Some 1%positive); moduleNamed "b" "2.0" (Some 2%positive);
   moduleNamed "c" "3.0" (Some 3%positive)].

Definition sampleRecords : list Metadata :=
  [recordNamed "A" (Some ["b"; "C"]); recordNamed "b" (Some ["c"])].

Definition sampleTable : gmap string Metadata :=
  <["a" := recordNamed "A" (Some ["b"; "C"])]> (<["b" := recordNamed "b" (Some ["c"])]> ∅).

Definition sampleDecoder : MetadataDecoder :=
  NewMetadataDecoder (GetPackageDetails sampleHost samplePlugin).

(** A store with a root table, at 1, and a table of other packages, at 2. *)
Definition sampleTables : Store :=
  tablePut 2%positive "b" (recordNamed "nonrootB" None)
    (tablePut 2%positive "a" (recordNamed "nonrootA" None)
       (tablePut 1%positive "a" (recordNamed "rootA" None) emptyStore)).

(** What a call has returned, for a call that returns. *)
Definition returned {A} (fallback : A) (run : result A) : A :=
  match run with
  | Ok a => a
  | Panic _ => fallback
  end.

(** * Properties *)

(** ** Splitting and joining *)

Lemma append_cons (a : ascii) (s1 s2 : string) :
  String a s1 +:+ s2 = String a (s1 +:+ s2).
Proof. reflexivity. Qed.

Lemma append_assoc (s1 s2 s3 : string) : (s1 +:+ s2) +:+ s3 = s1 +:+ s2 +:+ s3.
Proof.
  induction s1 as [|a s1 IH]; [reflexivity|].
  rewrite !append_cons. by rewrite IH.
Qed.

Lemma Split_nonempty (s : string) (sep : ascii) : Strings.Split s sep ≠ [].
Proof.
  destruct s as [|a s]; simpl; [done|].
  destruct (Ascii.eqb a sep); [done|].
  by destruct (Strings.Split s sep).
Qed.

Lemma Split_without_sep (s : string) (sep : ascii) :
  Strings.hasByte sep s = false → Strings.Split s sep = [s].
Proof.
  induction s as [|a s IH]; simpl; [done|].
  intros [Ha Hs]%orb_false_iff. rewrite Ha, IH; done.
Qed.

Lemma Split_at_sep (s rest : string) (sep : ascii) :
  Strings.hasByte sep s = false →
  Strings.Split (s +:+ String sep rest) sep = s :: Strings.Split rest sep.
Proof.
  induction s as [|a s IH]; intros Hs.
  - change ("" +:+ String sep rest) with (String sep rest). simpl.
    by rewrite Ascii.eqb_refl.
  - simpl in Hs. apply orb_false_iff in Hs as [Ha Hs].
    rewrite append_cons. simpl. rewrite Ha, IH; done.
Qed.

Lemma concat_cons (sep x y : string) (l : list string) :
  String.concat sep (x :: y :: l) = x +:+ sep +:+ String.concat sep (y :: l).
Proof. reflexivity. Qed.

(** Splitting a colon-joined sequence of colon-free pieces gives the pieces
    back. *)
Lemma Split_concat (x : string) (l : list string) :
  Forall (λ piece, Strings.hasByte ":" piece = false) (x :: l) →
  Strings.Split (String.concat ":" (x :: l)) ":" = x :: l.
Proof.
  revert x. induction l as [|y l IH]; intros x Hall.
  - simpl. apply Split_without_sep. by inversion Hall.
  - rewrite concat_cons. inversion Hall as [|?? Hx Hl]; subst.
    change (":" +:+ String.concat ":" (y :: l))
      with (String ":"%char (String.concat ":" (y :: l))).
    rewrite Split_at_sep by done. by rewrite IH.
Qed.

Section ParserFacts.
Context `{!Collaborators}.

Lemma appendRest_concat (value : string) (rest : list string) :
  appendRest value rest = String.concat ":" (value :: rest).
Proof.
  revert value. induction rest as [|r rest IH]; intros value; [reflexivity|].
  unfold appendRest in *. simpl fold_left. rewrite IH.
  rewrite concat_cons. destruct rest as [|r' rest]; [reflexivity|].
  rewrite !concat_cons. by rewrite !append_assoc.
Qed.

(** What a turn of the loop does, by the number of pieces of the line. *)
Lemma parseLine_pieces (pkgDataMap : gmap string string) (resline : string) :
  parseLine pkgDataMap resline =
    match Strings.Split resline ":" with
    | key :: value :: rest =>
        <[ToLower key := String.concat ":" (Strings.TrimSpace value :: rest)]> pkgDataMap
    | _ => pkgDataMap
    end.
Proof.
  unfold parseLine. destruct (Strings.Split resline ":") as [|key [|value rest]]; try done.
  cbn [length nth drop]. rewrite appendRest_concat.
  destruct rest; done.
Qed.

(** C5 (amended).  A line without colon is skipped and leaves the field map
    as it was.  A line made of a key, a colon and no value token (nothing, or
    white space only) is not skipped: it binds the lower-cased key to the
    empty string. *)
Theorem parseLine_skips_colon_free_only
    (pkgDataMap : gmap string string) (key blank : string) :
  Strings.hasByte ":" key = false →
  Strings.hasByte ":" blank = false →
  Strings.TrimSpace blank = "" →
  parseLine pkgDataMap key = pkgDataMap
  ∧ parseLine pkgDataMap (key +:+ ":" +:+ blank) = <[ToLower key := ""]> pkgDataMap
  ∧ parseLine pkgDataMap (key +:+ ":" +:+ blank) !! ToLower key = Some "".
Proof.
  intros Hkey Hblank Htrim.
  assert (parseLine pkgDataMap (key +:+ ":" +:+ blank) = <[ToLower key := ""]> pkgDataMap)
    as Hline.
  { rewrite parseLine_pieces.
    change (key +:+ ":" +:+ blank) with (String.concat ":" [key; blank]).
    rewrite Split_concat by (repeat constructor; done).
    by rewrite Htrim. }
  split_and!.
  - rewrite parseLine_pieces, Split_without_sep; done.
  - done.
  - rewrite Hline. apply lookup_insert_eq.
Qed.

(** C7 (amended).  A line [Key:V1:V2:...:Vn] is split on every colon; the
    value is element 1 with its surrounding white space trimmed, followed, for
    every further element, by a colon and that element as it stands; it is
    stored under the lower-cased key. *)
Theorem parseLine_rejoins_value
    (pkgDataMap : gmap string string) (key v1 : string) (vs : list string) :
  Forall (λ piece, Strings.hasByte ":" piece = false) (key :: v1 :: vs) →
  Strings.Split (String.concat ":" (key :: v1 :: vs)) ":" = key :: v1 :: vs
  ∧ parseLine pkgDataMap (String.concat ":" (key :: v1 :: vs)) =
      <[ToLower key := String.concat ":" (Strings.TrimSpace v1 :: vs)]> pkgDataMap.
Proof.
  intros Hall. split; [by apply Split_concat|].
  rewrite parseLine_pieces, Split_concat; done.
Qed.

(** C8 (amended).  A non-empty "Requires" value is split on commas, each
    element trimmed, order kept.  An empty or absent one leaves the
    dependency-name sequence of the record as it was, which for a new record
    is the nil slice. *)
Theorem SetMetadataValues_Modules (matadata : Metadata) (datamap : gmap string string) :
  (index datamap KeyRequires ≠ "" →
     Modules (SetMetadataValues matadata datamap) =
       Some (map Strings.TrimSpace (Strings.Split (index datamap KeyRequires) ",")))
  ∧ (index datamap KeyRequires = "" →
     Modules (SetMetadataValues matadata datamap) = Modules matadata)
  ∧ Modules (SetMetadataValues matadata (<[KeyRequires := "a, b ,c"]> datamap)) =
      Some ["a"; "b"; "c"]
  ∧ Modules (SetMetadataValues newMetadata ∅) = None.
Proof.
  split_and!.
  - intros Hne. simpl. destruct (index datamap KeyRequires); done.
  - intros Heq. simpl. by rewrite Heq.
  - simpl. unfold index. rewrite lookup_insert_eq. vm_compute. reflexivity.
  - reflexivity.
Qed.

Lemma derive_PackageURL (metadata : Metadata) :
  PackageURL (derive metadata) =
    if decide (HomePage metadata = "") then BuildPackageUrl (Name metadata) (Version metadata)
    else HomePage metadata.
Proof. simpl. destruct (HomePage metadata); done. Qed.

(** C6 (amended).  The HomePage of a record is the Home-page value with every
    occurrence of "https://" and of "http://" removed.  When that is empty,
    PackageURL is the registry URL built from Name and Version; otherwise
    PackageURL equals it. *)
Theorem BuildMetadata_PackageURL (d : MetadataDecoder) (packagename : string)
    (metadata : Metadata) :
  let built := BuildMetadata d packagename metadata in
  HomePage built =
    Strings.Replace httpReplacer
      (index (parseLines (getPkgDetailsFunc d packagename).1) KeyHomePage)
  ∧ (HomePage built = "" → PackageURL built = BuildPackageUrl (Name built) (Version built))
  ∧ (HomePage built ≠ "" → PackageURL built = HomePage built).
Proof.
  unfold BuildMetadata. destruct (getPkgDetailsFunc d packagename) as [metadatastr err].
  cbv zeta. split_and!.
  - reflexivity.
  - intros Hempty. rewrite derive_PackageURL.
    change (HomePage (derive ?m)) with (HomePage m) in Hempty.
    rewrite decide_True by done. reflexivity.
  - intros Hfull. rewrite derive_PackageURL.
    change (HomePage (derive ?m)) with (HomePage m) in Hfull.
    rewrite decide_False by done. reflexivity.
Qed.

(** C1.  When the fetch fails with the empty text that [GetPackageDetails]
    returns next to its error, the record is parsed all the same: whatever
    [SetMetadataToNoAssertion] stored is overwritten, the name with the empty
    string too, and the derived fields are built from empty name and
    version. *)
Theorem BuildMetadata_failed_fetch (packagename e : string) (metadata : Metadata) :
  let d := NewMetadataDecoder (λ _, ("", Some e)) in
  let built := BuildMetadata d packagename metadata in
  built = derive (ParseMetadata (SetMetadataToNoAssertion metadata packagename) "")
  ∧ Name built = "" ∧ Version built = "" ∧ Description built = ""
  ∧ HomePage built = "" ∧ Author built = "" ∧ AuthorEmail built = ""
  ∧ License built = "" ∧ Location built = ""
  ∧ ProjectURL built = BuildProjectUrl "" ""
  ∧ PackageURL built = BuildPackageUrl "" "".
Proof. cbv zeta. split_and!; reflexivity. Qed.

End ParserFacts.

(** *** The parser on concrete input *)

Lemma parseLine_skips_colon_free_only_witness :
  @parseLine sampleCollaborators ∅ "License" = ∅
  ∧ @parseLine sampleCollaborators ∅ ("License" +:+ ":" +:+ " ") =
      <[@ToLower sampleCollaborators "License" := ""]> ∅
  ∧ @parseLine sampleCollaborators ∅ ("License" +:+ ":" +:+ " ")
      !! @ToLower sampleCollaborators "License" = Some "".
Proof.
  apply (@parseLine_skips_colon_free_only sampleCollaborators ∅ "License" " ");
    vm_compute; reflexivity.
Defined.

(** C5, as stated, fails: a key followed by a colon and nothing else leaves
    an entry in the field map, and that entry replaces an earlier value of
    the same key. *)
Lemma parseLine_keeps_key_without_value :
  @parseLine sampleCollaborators ∅ "Name:" !! "name" = Some ""
  ∧ @parseLine sampleCollaborators ∅ "Name:" ≠ ∅
  ∧ Name (@ParseMetadata sampleCollaborators newMetadata ("Name: foo" +:+ lf +:+ "junk")) = "foo"
  ∧ Name (@ParseMetadata sampleCollaborators newMetadata ("Name: foo" +:+ lf +:+ "Name:")) = "".
Proof.
  split_and!; try (vm_compute; reflexivity).
  intros Heq. apply (f_equal (λ m : gmap string string, m !! "name")) in Heq.
  vm_compute in Heq. discriminate.
Qed.

Lemma parseLine_rejoins_value_witness :
  Strings.Split (String.concat ":" ["Home-page"; " https"; "//example.com/pkg"]) ":" =
    ["Home-page"; " https"; "//example.com/pkg"]
  ∧ @parseLine sampleCollaborators ∅
      (String.concat ":" ["Home-page"; " https"; "//example.com/pkg"]) =
    <[@ToLower sampleCollaborators "Home-page" :=
        String.concat ":" [Strings.TrimSpace " https"; "//example.com/pkg"]]> ∅.
Proof.
  apply (@parseLine_rejoins_value sampleCollaborators ∅ "Home-page" " https"
           ["//example.com/pkg"]).
  repeat constructor.
Defined.

(** C7, as stated, fails: the value is not element 1 followed by the other
    elements; element 1 is trimmed first, so white space in front of the
    first colon of the value is lost. *)
Lemma parseLine_trims_first_element :
  Strings.Split "Summary: a :b" ":" = ["Summary"; " a "; "b"]
  ∧ @parseLine sampleCollaborators ∅ "Summary: a :b" !! "summary" = Some "a:b"
  ∧ @parseLine sampleCollaborators ∅ "Summary: a :b" !! "summary"
      ≠ Some (String.concat ":" [" a "; "b"]).
Proof. split_and!; vm_compute; [reflexivity..|discriminate]. Qed.

Lemma SetMetadataValues_Modules_witness :
  index (<[KeyRequires := "x , y"]> ∅) KeyRequires ≠ ""
  ∧ Modules (SetMetadataValues newMetadata (<[KeyRequires := "x , y"]> ∅)) =
      Some (map Strings.TrimSpace
              (Strings.Split (index (<[KeyRequires := "x , y"]> ∅) KeyRequires) ","))
  ∧ Modules (SetMetadataValues newMetadata (<[KeyRequires := "x , y"]> ∅)) = Some ["x"; "y"].
Proof.
  assert (index (<[KeyRequires := "x , y"]> ∅) KeyRequires ≠ "") as Hne
    by (vm_compute; discriminate).
  split; [exact Hne|].
  pose proof (proj1 (SetMetadataValues_Modules newMetadata (<[KeyRequires := "x , y"]> ∅)) Hne)
    as Hmod.
  split; [exact Hmod|]. vm_compute. reflexivity.
Defined.

(** C8, as stated, fails: without a "Requires" value the dependency-name
    sequence of a record that has just been created is the nil slice, not an
    empty one. *)
Lemma absent_Requires_leaves_nil :
  Modules (@BuildMetadata sampleCollaborators
             (NewMetadataDecoder (λ _, ("Name: foo" +:+ lf +:+ "Requires: ", None)))
             "foo" newMetadata) = None
  ∧ Modules (@BuildMetadata sampleCollaborators
               (NewMetadataDecoder (λ _, ("Name: foo", None))) "foo" newMetadata)
      ≠ Some [].
Proof. split; vm_compute; [reflexivity|discriminate]. Qed.

Lemma BuildMetadata_PackageURL_witness :
  PackageURL (@BuildMetadata sampleCollaborators
                (NewMetadataDecoder
                   (λ _, ("Name: foo" +:+ lf +:+ "Home-page: https://example.com/pkg", None)))
                "foo" newMetadata) = "example.com/pkg"
  ∧ PackageURL (@BuildMetadata sampleCollaborators
                  (NewMetadataDecoder (λ _, ("Name: foo" +:+ lf +:+ "Version: 1.0", None)))
                  "foo" newMetadata) = "pypi.org/project/foo/1.0".
Proof.
  split.
  - pose proof (@BuildMetadata_PackageURL sampleCollaborators
      (NewMetadataDecoder
         (λ _, ("Name: foo" +:+ lf +:+ "Home-page: https://example.com/pkg", None)))
      "foo" newMetadata) as (Hhome & _ & Hfull).
    rewrite Hfull; [rewrite Hhome|rewrite Hhome]; vm_compute; [reflexivity|discriminate].
  - pose proof (@BuildMetadata_PackageURL sampleCollaborators
      (NewMetadataDecoder (λ _, ("Name: foo" +:+ lf +:+ "Version: 1.0", None)))
      "foo" newMetadata) as (Hhome & Hempty & _).
    rewrite Hempty; [|rewrite Hhome]; vm_compute; reflexivity.
Defined.

(** C6, as stated, fails: the replacer removes the scheme wherever it occurs,
    not at the front only. *)
Lemma PackageURL_strips_every_scheme :
  index (@parseLines sampleCollaborators "Home-page: https://a.com/?u=http://b.com")
    KeyHomePage = "https://a.com/?u=http://b.com"
  ∧ PackageURL (@BuildMetadata sampleCollaborators
                  (NewMetadataDecoder (λ _, ("Home-page: https://a.com/?u=http://b.com", None)))
                  "a" newMetadata) = "a.com/?u=b.com"
  ∧ stripLeadingScheme "https://a.com/?u=http://b.com" = "a.com/?u=http://b.com"
  ∧ PackageURL (@BuildMetadata sampleCollaborators
                  (NewMetadataDecoder (λ _, ("Home-page: https://a.com/?u=http://b.com", None)))
                  "a" newMetadata)
      ≠ stripLeadingScheme "https://a.com/?u=http://b.com".
Proof. split_and!; vm_compute; [reflexivity..|discriminate]. Qed.

(** C1 on the stand-in collaborators: the record of a failed fetch holds
    neither the package name nor the sentinel. *)
Lemma failed_fetch_loses_name_and_sentinel :
  let built := @BuildMetadata sampleCollaborators
                 (NewMetadataDecoder (λ _, ("", Some "exit status 1"))) "foo" newMetadata in
  Name built = "" ∧ Name built ≠ "foo"
  ∧ Version built = "" ∧ Version built ≠ NoAssertion
  ∧ License built = "" ∧ License built ≠ NoAssertion.
Proof. cbv zeta. split_and!; vm_compute; try reflexivity; discriminate. Qed.

(** ** The store *)

Lemma alloc_fresh (m : models.Module) (s : Store) : objs s !! (alloc m s).1 = None.
Proof. apply not_elem_of_dom, is_fresh. Qed.

Lemma contents_lookup (s : Store) (r : mapref) (key : string) :
  contents s r !! key = mapAt s r !! key ≫= (λ p, objs s !! p).
Proof. unfold contents. apply lookup_omap. Qed.

Lemma mapAt_mapPut (s : Store) (r r' : mapref) (key : string) (p : ptr) :
  mapAt (mapPut r key p s) r' =
    if decide (r = r') then <[key := p]> (mapAt s r) else mapAt s r'.
Proof.
  unfold mapAt at 1. simpl. rewrite lookup_insert. by case_decide; subst.
Qed.

Lemma closed_empty : closed emptyStore.
Proof. intros r key p. unfold mapAt. simpl. rewrite lookup_empty. simpl. by rewrite lookup_empty. Qed.

Lemma mapAt_alloc (m : models.Module) (s : Store) (r : mapref) :
  mapAt (alloc m s).2 r = mapAt s r.
Proof. reflexivity. Qed.

Lemma objs_mapPut (s : Store) (r : mapref) (key : string) (p : ptr) :
  objs (mapPut r key p s) = objs s.
Proof. reflexivity. Qed.

Lemma objs_alloc (m : models.Module) (s : Store) :
  objs (alloc m s).2 = <[(alloc m s).1 := m]> (objs s).
Proof. reflexivity. Qed.

Lemma writeEdge_Some (s : Store) (r : mapref) (key : string) (copy : models.Module) :
  writeEdge s (Some r, key, copy) = Ok (mapPut r key (alloc copy s).1 (alloc copy s).2).
Proof. reflexivity. Qed.

(** Writing an edge into a map: one new struct, one entry. *)
Lemma writeEdge_contents (s : Store) (r : mapref) (key : string) (copy : models.Module) :
  closed s →
  ∃ s', writeEdge s (Some r, key, copy) = Ok s'
        ∧ closed s'
        ∧ tables s' = tables s
        ∧ ∀ r' key', contents s' r' !! key' =
            if decide ((Some r', key') = (Some r, key)) then Some copy
            else contents s r' !! key'.
Proof.
  intros Hclosed. eexists. split; [apply writeEdge_Some|].
  pose proof (alloc_fresh copy s) as Hfresh.
  assert (∀ q, is_Some (objs s !! q) →
               <[(alloc copy s).1 := copy]> (objs s) !! q = objs s !! q) as Hold.
  { intros q [m Hm]. apply lookup_insert_ne. intros Heq. rewrite Heq in Hfresh. congruence. }
  split_and!.
  - intros r' key' q. rewrite mapAt_mapPut, mapAt_alloc, objs_mapPut, objs_alloc.
    case_decide as Hr; [subst r'|].
    + rewrite lookup_insert. case_decide as Hk.
      * intros [= <-]. rewrite lookup_insert_eq. eauto.
      * intros Hq. rewrite Hold; by eapply Hclosed.
    + rewrite mapAt_alloc. intros Hq. rewrite Hold; by eapply Hclosed.
  - reflexivity.
  - intros r' key'.
    rewrite !contents_lookup, mapAt_mapPut, mapAt_alloc, objs_mapPut, objs_alloc.
    case_decide as Hr; [subst r'|].
    + rewrite lookup_insert. case_decide as Hk.
      * subst key'. rewrite decide_True by done. simpl. apply lookup_insert_eq.
      * rewrite decide_False by congruence.
        destruct (mapAt s r !! key') as [q|] eqn:Hq; [simpl|done].
        apply Hold. by eapply Hclosed.
    + rewrite mapAt_alloc, decide_False by congruence.
      destruct (mapAt s r' !! key') as [q|] eqn:Hq; [simpl|done].
      apply Hold. by eapply Hclosed.
Qed.

Lemma writeEdge_nil (s : Store) (key : string) (copy : models.Module) :
  writeEdge s (None, key, copy) = Panic NilMapAssignment.
Proof. reflexivity. Qed.

(** ** Loops that may panic *)

Lemma foldResult_cons {A S} (body : S → A → result S) (a : A) (l : list A) (s : S) :
  foldResult body (a :: l) s = body s a ≫= foldResult body l.
Proof. reflexivity. Qed.

Lemma foldResult_app {A S} (body : S → A → result S) (l1 l2 : list A) (s : S) :
  foldResult body (l1 ++ l2) s = foldResult body l1 s ≫= foldResult body l2.
Proof.
  revert s. induction l1 as [|a l1 IH]; intros s; [reflexivity|].
  simpl. destruct (body s a) as [s'|]; simpl; [apply IH|reflexivity].
Qed.

Lemma foldResult_fmap {A B S} (body : S → B → result S) (f : A → B) (l : list A) (s : S) :
  foldResult body (f <$> l) s = foldResult (λ s a, body s (f a)) l s.
Proof.
  revert s. induction l as [|a l IH]; intros s; [reflexivity|].
  simpl. destruct (body s (f a)); simpl; [apply IH|reflexivity].
Qed.

(** ** Replaying writes *)

Lemma replay_snoc (es : list Edge) (e : Edge) (r : mapref) (key : string)
    (base : option models.Module) :
  replay (es ++ [e]) r key base =
    if decide (e.1 = (Some r, key)) then Some e.2 else replay es r key base.
Proof. unfold replay. by rewrite fold_left_app. Qed.

Lemma replay_cons (es : list Edge) (e : Edge) (r : mapref) (key : string)
    (base : option models.Module) :
  replay (e :: es) r key base =
    replay es r key (if decide (e.1 = (Some r, key)) then Some e.2 else base).
Proof. reflexivity. Qed.

(** With consistent writes, an entry that is written holds what any of its
    writes stores, and an entry that is not written is left alone. *)
Lemma replay_written (es : list Edge) (e : Edge) (r : mapref) (key : string)
    (base : option models.Module) :
  consistent es → e ∈ es → e.1 = (Some r, key) → replay es r key base = Some e.2.
Proof.
  induction es as [|e' es IH] using rev_ind; intros Hcons Hin Hhit.
  - by apply elem_of_nil in Hin.
  - rewrite replay_snoc. case_decide as Hhit'.
    + f_equal. apply Hcons; [|done|congruence].
      apply elem_of_app. right. by apply list_elem_of_singleton.
    + apply elem_of_app in Hin as [Hin|Hin%list_elem_of_singleton]; [|congruence].
      apply IH; [|done..].
      intros e1 e2 H1 H2. apply Hcons; apply elem_of_app; by left.
Qed.

Lemma replay_unwritten (es : list Edge) (r : mapref) (key : string)
    (base : option models.Module) :
  (∀ e, e ∈ es → e.1 ≠ (Some r, key)) → replay es r key base = base.
Proof.
  induction es as [|e' es IH] using rev_ind; intros Hnone; [reflexivity|].
  rewrite replay_snoc.
  rewrite decide_False
    by (apply Hnone, elem_of_app; right; by apply list_elem_of_singleton).
  apply IH. intros e He. apply Hnone, elem_of_app. by left.
Qed.

Lemma written_dec (es : list Edge) (r : mapref) (key : string) :
  (∃ e, e ∈ es ∧ e.1 = (Some r, key)) ∨ (∀ e, e ∈ es → e.1 ≠ (Some r, key)).
Proof.
  induction es as [|e es [(e' & Hin & Hhit)|Hnone]].
  - right. intros e He. by apply elem_of_nil in He.
  - left. exists e'. split; [by apply elem_of_cons; right|done].
  - destruct (decide (e.1 = (Some r, key))) as [Hhit|Hmiss].
    + left. exists e. split; [by apply elem_of_cons; left|done].
    + right. intros e' [->|He']%elem_of_cons; auto.
Qed.

(** The order of consistent writes does not matter. *)
Lemma replay_permutation (es es' : list Edge) (r : mapref) (key : string)
    (base : option models.Module) :
  consistent es → es ≡ₚ es' → replay es r key base = replay es' r key base.
Proof.
  intros Hcons Hperm.
  assert (consistent es') as Hcons'.
  { intros e1 e2 H1 H2. apply Hcons; by rewrite Hperm. }
  destruct (written_dec es r key) as [(e & Hin & Hhit)|Hnone].
  - rewrite (replay_written es e), (replay_written es' e); try done. by rewrite <- Hperm.
  - rewrite !replay_unwritten; try done. intros e He. apply Hnone. by rewrite Hperm.
Qed.

(** Replaying the same writes a second time changes nothing. *)
Lemma replay_twice (es es' : list Edge) (r : mapref) (key : string)
    (base : option models.Module) :
  consistent es → es ≡ₚ es' →
  replay es' r key (replay es r key base) = replay es r key base.
Proof.
  intros Hcons Hperm. rewrite <- (replay_permutation es es') by done.
  destruct (written_dec es r key) as [(e & Hin & Hhit)|Hnone].
  - by rewrite !(replay_written es e).
  - by rewrite !replay_unwritten.
Qed.

(** ** Running the writes *)

Lemma writeEdges_run (es : list Edge) (s : Store) :
  closed s →
  Forall (λ e : Edge, is_Some e.1.1) es →
  ∃ s', foldResult writeEdge es s = Ok s'
        ∧ closed s'
        ∧ tables s' = tables s
        ∧ ∀ r key, contents s' r !! key = replay es r key (contents s r !! key).
Proof.
  revert s. induction es as [|[[target key] copy] es IH]; intros s Hclosed Hall.
  - exists s. by split_and!.
  - inversion Hall as [|?? [r Hr] Hall']; subst. simpl in Hr. subst target.
    destruct (writeEdge_contents s r key copy Hclosed) as (s1 & Hrun & Hclosed1 & Htab1 & Hcont1).
    destruct (IH s1 Hclosed1 Hall') as (s' & Hrun' & Hclosed' & Htab' & Hcont').
    exists s'. split_and!; [|done|congruence|].
    + rewrite foldResult_cons, Hrun. exact Hrun'.
    + intros r' key'. rewrite Hcont', Hcont1, replay_cons. simpl.
      f_equal. repeat case_decide; congruence.
Qed.

Lemma writeEdges_targets (es : list Edge) (s s' : Store) :
  foldResult writeEdge es s = Ok s' → Forall (λ e : Edge, is_Some e.1.1) es.
Proof.
  revert s. induction es as [|[[target key] copy] es IH]; intros s Hrun; [constructor|].
  rewrite foldResult_cons in Hrun. destruct target as [r|]; [|discriminate].
  rewrite writeEdge_Some in Hrun.
  constructor; [simpl; eauto|]. by eapply IH.
Qed.

(** ** Dependency graph builder *)

(** The two orders of a range over a table of two records. *)
Lemma rangeOrder_two (k1 k2 : string) (m1 m2 : Metadata) :
  k1 ≠ k2 →
  rangeOrder (<[k1 := m1]> (<[k2 := m2]> ∅)) [m1; m2]
  ∧ rangeOrder (<[k1 := m1]> (<[k2 := m2]> ∅)) [m2; m1].
Proof.
  intros Hne. unfold rangeOrder.
  assert ((map_to_list (<[k1 := m1]> (<[k2 := m2]> (∅ : gmap string Metadata)))).*2
            ≡ₚ [m1; m2]) as Hperm.
  { rewrite map_to_list_insert by (by rewrite lookup_insert_ne, lookup_empty).
    rewrite map_to_list_insert by apply lookup_empty.
    by rewrite map_to_list_empty. }
  split; [by symmetry|]. rewrite Hperm. apply Permutation_swap.
Qed.

Section GraphFacts.
Context `{!Collaborators}.

Lemma linkRecord_edges (moduleMap : gmap string models.Module) (s : Store) (pkgmeta : Metadata) :
  linkRecord moduleMap s pkgmeta = foldResult writeEdge (edgesOf moduleMap pkgmeta) s.
Proof. unfold linkRecord, edgesOf. by rewrite (foldResult_fmap writeEdge). Qed.

Lemma link_edges (moduleMap : gmap string models.Module) (order : list Metadata) (s : Store) :
  foldResult (linkRecord moduleMap) order s = foldResult writeEdge (edges moduleMap order) s.
Proof.
  revert s. induction order as [|pkgmeta order IH]; intros s; [reflexivity|].
  change (edges moduleMap (pkgmeta :: order))
    with (edgesOf moduleMap pkgmeta ++ edges moduleMap order).
  rewrite foldResult_app, foldResult_cons, linkRecord_edges.
  destruct (foldResult writeEdge (edgesOf moduleMap pkgmeta) s); simpl; [apply IH|reflexivity].
Qed.

Lemma BuildDependencyGraphIn_edges (order : list Metadata) (modules : list models.Module)
    (s : Store) :
  BuildDependencyGraphIn order modules s =
    foldResult writeEdge (edges (moduleMapOf modules) order) s ≫= λ s', Ok (None, s').
Proof. unfold BuildDependencyGraphIn. by rewrite link_edges. Qed.

(** A module sits in the lookup under its own lower-cased name. *)
Lemma moduleMapOf_key (modules : list models.Module) (key : string) (module : models.Module) :
  moduleMapOf modules !! key = Some module → ToLower (models.Name module) = key.
Proof.
  unfold moduleMapOf.
  cut (∀ acc : gmap string models.Module,
         (∀ k m, acc !! k = Some m → ToLower (models.Name m) = k) →
         fold_left (λ moduleMap module, <[ToLower (models.Name module) := module]> moduleMap)
           modules acc !! key = Some module →
         ToLower (models.Name module) = key).
  { intros Hcut. apply Hcut. intros k m. by rewrite lookup_empty. }
  induction modules as [|m0 modules IH]; intros acc Hacc; simpl; [apply Hacc|].
  apply IH. intros k m. rewrite lookup_insert. case_decide; [congruence|apply Hacc].
Qed.

Lemma elem_of_edges (moduleMap : gmap string models.Module) (order : list Metadata) (e : Edge) :
  e ∈ edges moduleMap order ↔
    ∃ pkgmeta modname,
      pkgmeta ∈ order ∧ modname ∈ default [] (Modules pkgmeta)
      ∧ e = edgeOf moduleMap (lookupModule moduleMap (ToLower (Name pkgmeta))) modname.
Proof.
  unfold edges. rewrite list_elem_of_bind. split.
  - intros (pkgmeta & He & Hin). unfold edgesOf in He.
    apply list_elem_of_fmap in He as (modname & -> & Hmod). eauto.
  - intros (pkgmeta & modname & Hin & Hmod & ->). exists pkgmeta. split; [|done].
    unfold edgesOf. apply list_elem_of_fmap. eauto.
Qed.

Lemma elem_of_rangeOrder (pkgsMetadata : gmap string Metadata) (order : list Metadata)
    (pkgmeta : Metadata) :
  rangeOrder pkgsMetadata order → pkgmeta ∈ order →
  ∃ key, pkgsMetadata !! key = Some pkgmeta.
Proof.
  unfold rangeOrder. intros Hperm Hin. rewrite Hperm in Hin.
  apply list_elem_of_fmap in Hin as ([key md] & -> & Hin).
  exists key. by apply elem_of_map_to_list.
Qed.

(** When every dependency name resolves, the key of a write determines the
    struct that is written. *)
Lemma edges_consistent (modules : list models.Module) (pkgsMetadata : gmap string Metadata)
    (order : list Metadata) :
  resolves modules pkgsMetadata → rangeOrder pkgsMetadata order →
  consistent (edges (moduleMapOf modules) order).
Proof.
  intros Hres Horder e1 e2 H1 H2 Hsame.
  apply elem_of_edges in H1 as (md1 & name1 & Hmd1 & Hname1 & ->).
  apply elem_of_edges in H2 as (md2 & name2 & Hmd2 & Hname2 & ->).
  destruct (elem_of_rangeOrder _ _ _ Horder Hmd1) as [k1 Hk1].
  destruct (elem_of_rangeOrder _ _ _ Horder Hmd2) as [k2 Hk2].
  destruct (Hres _ _ _ Hk1 Hname1) as [d1 Hd1].
  destruct (Hres _ _ _ Hk2 Hname2) as [d2 Hd2].
  unfold edgeOf, lookupModule in *. simpl in *.
  rewrite Hd1, Hd2 in *. simpl in *.
  assert (models.Name d1 = models.Name d2) as Hname by congruence.
  apply moduleMapOf_key in Hd1 as Hkey1. apply moduleMapOf_key in Hd2 as Hkey2.
  assert (d1 = d2) as -> by (rewrite <- Hkey1, Hname, Hkey2 in Hd1; congruence).
  reflexivity.
Qed.

(** What the lookup holds is a module of the list. *)
Lemma moduleMapOf_elem (modules : list models.Module) (key : string) (module : models.Module) :
  moduleMapOf modules !! key = Some module → module ∈ modules.
Proof.
  unfold moduleMapOf.
  cut (∀ acc : gmap string models.Module,
         (∀ k m, acc !! k = Some m → m ∈ modules) →
         ∀ front,
           (∀ m, m ∈ front → m ∈ modules) →
           fold_left (λ moduleMap module, <[ToLower (models.Name module) := module]> moduleMap)
             front acc !! key = Some module →
           module ∈ modules).
  { intros Hcut. apply (Hcut ∅); [|done]. intros k m. by rewrite lookup_empty. }
  intros acc Hacc front. revert acc Hacc.
  induction front as [|m0 front IH]; intros acc Hacc Hfront; simpl; [apply Hacc|].
  apply IH.
  - intros k m. rewrite lookup_insert. case_decide; [|apply Hacc].
    intros [= <-]. apply Hfront. by left.
  - intros m Hm. apply Hfront. by right.
Qed.

(** When no module of the list has the empty name, the key of a write
    determines the struct that is written, also for names that do not
    resolve: a miss writes the zero struct under the empty key, and nothing
    else is written there. *)
Lemma edges_consistent_named (modules : list models.Module) (order : list Metadata) :
  (∀ m, m ∈ modules → models.Name m ≠ "") →
  consistent (edges (moduleMapOf modules) order).
Proof.
  intros Hnamed e1 e2 H1 H2 Hsame.
  apply elem_of_edges in H1 as (md1 & name1 & _ & _ & ->).
  apply elem_of_edges in H2 as (md2 & name2 & _ & _ & ->).
  unfold edgeOf, lookupModule in *. cbn [fst snd] in *.
  injection Hsame as _ Hname.
  destruct (moduleMapOf modules !! ToLower name1) as [d1|] eqn:Hd1;
    destruct (moduleMapOf modules !! ToLower name2) as [d2|] eqn:Hd2;
    cbn [default from_option id] in *.
  - apply moduleMapOf_key in Hd1 as Hkey1. apply moduleMapOf_key in Hd2 as Hkey2.
    assert (d1 = d2) as -> by (rewrite <- Hkey1, Hname, Hkey2 in Hd1; congruence).
    reflexivity.
  - apply moduleMapOf_elem, Hnamed in Hd1. by destruct Hd1.
  - apply moduleMapOf_elem, Hnamed in Hd2. by destruct Hd2.
  - reflexivity.
Qed.

Lemma edges_permutation (moduleMap : gmap string models.Module) (order order' : list Metadata) :
  order ≡ₚ order' → edges moduleMap order ≡ₚ edges moduleMap order'.
Proof. intros Hperm. unfold edges. by rewrite Hperm. Qed.

Lemma BuildDependencyGraphIn_Ok (order : list Metadata) (modules : list models.Module)
    (s : Store) (err : error) (s' : Store) :
  BuildDependencyGraphIn order modules s = Ok (err, s') →
  err = None ∧ foldResult writeEdge (edges (moduleMapOf modules) order) s = Ok s'.
Proof.
  rewrite BuildDependencyGraphIn_edges.
  destruct (foldResult writeEdge _ s); simpl; [|discriminate]. by intros [= <- <-].
Qed.

Lemma copyOf_sameButModules (depModule : models.Module) :
  sameButModules (copyOf depModule) depModule.
Proof. repeat split. Qed.

(** C4 (amended).  For an owner with a dependency map and a dependency name
    that resolves to the module [depModule], the pass stores under the
    exact-cased name of [depModule] the address of a new struct that equals
    [depModule] in every field but [Modules], which is nil in the copy.  The
    address held nothing before, and overwriting the struct behind it changes
    no map object, no other struct, and no other entry of any dependency
    map. *)
Theorem linkDependency_inserts_copy
    (moduleMap : gmap string models.Module) (mod_ depModule : models.Module)
    (s : Store) (modname : string) (r : mapref) :
  closed s →
  moduleMap !! ToLower modname = Some depModule →
  models.Modules mod_ = Some r →
  ∃ p s',
    linkDependency moduleMap mod_ s modname = Ok s'
    ∧ objs s !! p = None
    ∧ mapAt s' r !! models.Name depModule = Some p
    ∧ objs s' !! p = Some (copyOf depModule)
    ∧ sameButModules (copyOf depModule) depModule
    ∧ models.Modules (copyOf depModule) = None
    ∧ ∀ m,
        maps (mutate p m s') = maps s'
        ∧ (∀ q, q ≠ p → objs (mutate p m s') !! q = objs s' !! q)
        ∧ (∀ r' key, (r', key) ≠ (r, models.Name depModule) →
             contents (mutate p m s') r' !! key = contents s' r' !! key).
Proof.
  intros Hclosed Hdep Hmod.
  exists (alloc (copyOf depModule) s).1,
    (mapPut r (models.Name depModule) (alloc (copyOf depModule) s).1
       (alloc (copyOf depModule) s).2).
  pose proof (alloc_fresh (copyOf depModule) s) as Hfresh.
  set (p := (alloc (copyOf depModule) s).1) in *.
  split_and!.
  - unfold linkDependency, lookupModule. rewrite Hdep, Hmod. reflexivity.
  - exact Hfresh.
  - rewrite mapAt_mapPut, decide_True by done. apply lookup_insert_eq.
  - rewrite objs_mapPut, objs_alloc. apply lookup_insert_eq.
  - apply copyOf_sameButModules.
  - reflexivity.
  - intros m. split_and!.
    + reflexivity.
    + intros q Hq. simpl. by rewrite lookup_insert_ne.
    + intros r' key Hother. rewrite !contents_lookup.
      change (mapAt (mutate p m ?t) r') with (mapAt t r').
      rewrite mapAt_mapPut, mapAt_alloc.
      assert (∀ q, mapAt s r' !! key = Some q →
                objs (mutate p m (mapPut r (models.Name depModule) p
                                    (alloc (copyOf depModule) s).2)) !! q =
                objs (mapPut r (models.Name depModule) p
                        (alloc (copyOf depModule) s).2) !! q) as Hold.
      { intros q Hq. apply Hclosed in Hq as [m' Hm'].
        simpl. rewrite lookup_insert_ne; [done|]. intros <-. fold p in Hm'. congruence. }
      case_decide as Hr; [subst r'|].
      * rewrite lookup_insert_ne by congruence.
        destruct (mapAt s r !! key) as [q|] eqn:Hq; [simpl; by apply Hold|done].
      * rewrite mapAt_alloc.
        destruct (mapAt s r' !! key) as [q|] eqn:Hq; [simpl; by apply Hold|done].
Qed.

(** C2.  A miss in the lookup is not skipped.  When the name of the record
    is absent, the first dependency is written to the nil map of the zero
    struct and the call panics.  When the owner is found and the name of its
    one dependency is absent, the call returns success and the owner's map
    holds, under the empty key, the address of a zero struct. *)
Theorem BuildDependencyGraphIn_on_miss
    (modules : list models.Module) (pkgmeta : Metadata) (modname : string)
    (rest : list string) (s : Store) :
  closed s →
  Modules pkgmeta = Some (modname :: rest) →
  (moduleMapOf modules !! ToLower (Name pkgmeta) = None →
     BuildDependencyGraphIn [pkgmeta] modules s = Panic NilMapAssignment)
  ∧ (∀ owner r,
       moduleMapOf modules !! ToLower (Name pkgmeta) = Some owner →
       models.Modules owner = Some r →
       moduleMapOf modules !! ToLower modname = None →
       rest = [] →
       ∃ s', BuildDependencyGraphIn [pkgmeta] modules s = Ok (None, s')
             ∧ contents s' r !! "" = Some models.zero).
Proof.
  intros Hclosed Hmods. split.
  - intros Howner. unfold BuildDependencyGraphIn. simpl.
    unfold linkRecord. rewrite Hmods. simpl.
    unfold linkDependency at 1, lookupModule. rewrite Howner. reflexivity.
  - intros owner r Howner Hmap Hdep ->.
    destruct (writeEdge_contents s r "" (copyOf models.zero) Hclosed)
      as (s' & Hrun & _ & _ & Hcont).
    exists s'. split.
    + rewrite BuildDependencyGraphIn_edges. unfold edges. simpl.
      unfold edgesOf. rewrite Hmods. simpl.
      unfold edgeOf, lookupModule. rewrite Howner, Hdep.
      cbn [default from_option fmap list_fmap mbind list_bind app].
      change (id owner) with owner. rewrite Hmap.
      change (models.Name models.zero) with "".
      rewrite Hrun. reflexivity.
    + rewrite Hcont, decide_True by done. reflexivity.
Qed.

(** Linking twice.  Let no two writes of the pass collide: every dependency
    name of the table resolves, or no module of the list has the empty name
    (a name that does not resolve is written as the zero struct under the
    empty key).  Let a first pass, whatever the order in which it ranges over
    the table, return.  Then a second pass over the same modules and table
    returns too, in any order, and every dependency map holds behind its
    pointers what it held after the first pass; and a single pass in any
    other order leaves the same. *)
Theorem BuildDependencyGraph_twice
    (modules : list models.Module) (pkgsMetadata : gmap string Metadata)
    (first second other : list Metadata) (s s1 : Store) :
  closed s →
  resolves modules pkgsMetadata ∨ (∀ m, m ∈ modules → models.Name m ≠ "") →
  rangeOrder pkgsMetadata first →
  rangeOrder pkgsMetadata second →
  rangeOrder pkgsMetadata other →
  BuildDependencyGraphIn first modules s = Ok (None, s1) →
  (∃ s2, BuildDependencyGraphIn second modules s1 = Ok (None, s2)
         ∧ ∀ r, contents s2 r = contents s1 r)
  ∧ (∃ s3, BuildDependencyGraphIn other modules s = Ok (None, s3)
           ∧ ∀ r, contents s3 r = contents s1 r).
Proof.
  intros Hclosed Hres Hfirst Hsecond Hother Hrun.
  set (moduleMap := moduleMapOf modules).
  apply BuildDependencyGraphIn_Ok in Hrun as [_ Hrun]. fold moduleMap in Hrun.
  assert (consistent (edges moduleMap first)) as Hcons.
  { destruct Hres as [Hres|Hnamed];
      [by eapply edges_consistent|by apply edges_consistent_named]. }
  assert (edges moduleMap first ≡ₚ edges moduleMap second) as Hperm2.
  { apply edges_permutation. unfold rangeOrder in *. by rewrite Hfirst, Hsecond. }
  assert (edges moduleMap first ≡ₚ edges moduleMap other) as Hperm3.
  { apply edges_permutation. unfold rangeOrder in *. by rewrite Hfirst, Hother. }
  pose proof (writeEdges_targets _ _ _ Hrun) as Htargets.
  destruct (writeEdges_run _ s Hclosed Htargets) as (s1' & Hrun1 & Hclosed1 & _ & Hcont1).
  assert (s1' = s1) as -> by congruence.
  split.
  - assert (Forall (λ e : Edge, is_Some e.1.1) (edges moduleMap second)) as Htargets2
      by by rewrite <- Hperm2.
    destruct (writeEdges_run _ s1 Hclosed1 Htargets2) as (s2 & Hrun2 & _ & _ & Hcont2).
    exists s2. split.
    + rewrite BuildDependencyGraphIn_edges. fold moduleMap. by rewrite Hrun2.
    + intros r. apply map_eq. intros key.
      rewrite Hcont2, Hcont1. by apply replay_twice.
  - assert (Forall (λ e : Edge, is_Some e.1.1) (edges moduleMap other)) as Htargets3
      by by rewrite <- Hperm3.
    destruct (writeEdges_run _ s Hclosed Htargets3) as (s3 & Hrun3 & _ & _ & Hcont3).
    exists s3. split.
    + rewrite BuildDependencyGraphIn_edges. fold moduleMap. by rewrite Hrun3.
    + intros r. apply map_eq. intros key.
      rewrite Hcont3, Hcont1. symmetry. by apply replay_permutation.
Qed.

(** C9.  Linking is not independent of the order of the range, because a
    dependency name that is not in the lookup is not skipped.  Let one record
    name a module whose name is empty and another record of the same owner
    name a module that is not in the list.  Both writes go to the entry with
    the empty key of the owner's map: a copy of the module, and the zero
    struct of the miss.  The pass that ranges over the first record last
    leaves the copy, the pass in the other order leaves the zero struct, and
    a second pass in the other order changes what the first one left. *)
Theorem BuildDependencyGraphIn_order_decides
    (modules : list models.Module) (x y : Metadata) (kx ky : string)
    (owner blank : models.Module) (r : mapref) (present missing : string) (s : Store) :
  closed s →
  kx ≠ ky →
  moduleMapOf modules !! ToLower (Name x) = Some owner →
  moduleMapOf modules !! ToLower (Name y) = Some owner →
  models.Modules owner = Some r →
  Modules x = Some [present] →
  Modules y = Some [missing] →
  moduleMapOf modules !! ToLower present = Some blank →
  models.Name blank = "" →
  moduleMapOf modules !! ToLower missing = None →
  rangeOrder (<[kx := x]> (<[ky := y]> ∅)) [x; y]
  ∧ rangeOrder (<[kx := x]> (<[ky := y]> ∅)) [y; x]
  ∧ ∃ s1 s2 s3,
      BuildDependencyGraphIn [x; y] modules s = Ok (None, s1)
      ∧ BuildDependencyGraphIn [y; x] modules s = Ok (None, s2)
      ∧ BuildDependencyGraphIn [y; x] modules s1 = Ok (None, s3)
      ∧ contents s1 r !! "" = Some models.zero
      ∧ contents s2 r !! "" = Some (copyOf blank)
      ∧ contents s3 r !! "" = Some (copyOf blank)
      ∧ (copyOf blank ≠ models.zero →
           contents s2 r ≠ contents s1 r ∧ contents s3 r ≠ contents s1 r).
Proof.
  intros Hclosed Hkeys Hx Hy Hmap Hmodsx Hmodsy Hpresent Hblank Hmissing.
  destruct (rangeOrder_two kx ky x y Hkeys) as [Hxy Hyx].
  split; [exact Hxy|]. split; [exact Hyx|].
  set (ex := (Some r, "", copyOf blank) : Edge).
  set (ey := (Some r, "", copyOf models.zero) : Edge).
  assert (edgesOf (moduleMapOf modules) x = [ex]) as Hex.
  { unfold edgesOf. rewrite Hmodsx. cbn [default from_option id map].
    unfold edgeOf, lookupModule. rewrite Hx, Hpresent. cbn [default from_option id].
    by rewrite Hmap, Hblank. }
  assert (edgesOf (moduleMapOf modules) y = [ey]) as Hey.
  { unfold edgesOf. rewrite Hmodsy. cbn [default from_option id map].
    unfold edgeOf, lookupModule. rewrite Hy, Hmissing. cbn [default from_option id].
    by rewrite Hmap. }
  assert (edges (moduleMapOf modules) [x; y] = [ex; ey]) as Hedges1.
  { unfold edges. cbn [mbind list_bind]. by rewrite Hex, Hey. }
  assert (edges (moduleMapOf modules) [y; x] = [ey; ex]) as Hedges2.
  { unfold edges. cbn [mbind list_bind]. by rewrite Hex, Hey. }
  assert (Forall (λ e : Edge, is_Some e.1.1) [ex; ey]) as Htargets1
    by (repeat constructor; cbn; eauto).
  assert (Forall (λ e : Edge, is_Some e.1.1) [ey; ex]) as Htargets2
    by (repeat constructor; cbn; eauto).
  destruct (writeEdges_run _ s Hclosed Htargets1) as (s1 & Hrun1 & Hclosed1 & _ & Hcont1).
  destruct (writeEdges_run _ s Hclosed Htargets2) as (s2 & Hrun2 & _ & _ & Hcont2).
  destruct (writeEdges_run _ s1 Hclosed1 Htargets2) as (s3 & Hrun3 & _ & _ & Hcont3).
  assert (contents s1 r !! "" = Some models.zero) as Hzero.
  { rewrite Hcont1. unfold replay. cbn [fold_left]. by rewrite !decide_True. }
  assert (contents s2 r !! "" = Some (copyOf blank)) as Hcopy2.
  { rewrite Hcont2. unfold replay. cbn [fold_left]. by rewrite !decide_True. }
  assert (contents s3 r !! "" = Some (copyOf blank)) as Hcopy3.
  { rewrite Hcont3. unfold replay. cbn [fold_left]. by rewrite !decide_True. }
  exists s1, s2, s3. split_and!; try done.
  - rewrite BuildDependencyGraphIn_edges, Hedges1. by rewrite Hrun1.
  - rewrite BuildDependencyGraphIn_edges, Hedges2. by rewrite Hrun2.
  - rewrite BuildDependencyGraphIn_edges, Hedges2. by rewrite Hrun3.
  - intros Hdiff. split; intros Heq.
    + rewrite Heq, Hzero in Hcopy2. congruence.
    + rewrite Heq, Hzero in Hcopy3. congruence.
Qed.

End GraphFacts.

(** *** The graph builder on concrete input *)

Lemma BuildDependencyGraphIn_on_miss_witness :
  @BuildDependencyGraphIn sampleCollaborators [recordNamed "b" (Some ["a"])]
    [moduleNamed "a" "1.0" (Some 1%positive)] emptyStore = Panic NilMapAssignment
  ∧ ∃ s', @BuildDependencyGraphIn sampleCollaborators [recordNamed "a" (Some ["zzz"])]
            [moduleNamed "a" "1.0" (Some 1%positive)] emptyStore = Ok (None, s')
          ∧ contents s' 1%positive !! "" = Some models.zero.
Proof.
  split.
  - apply (@BuildDependencyGraphIn_on_miss sampleCollaborators
             [moduleNamed "a" "1.0" (Some 1%positive)] (recordNamed "b" (Some ["a"]))
             "a" [] emptyStore closed_empty eq_refl).
    vm_compute. reflexivity.
  - apply (proj2 (@BuildDependencyGraphIn_on_miss sampleCollaborators
             [moduleNamed "a" "1.0" (Some 1%positive)] (recordNamed "a" (Some ["zzz"]))
             "zzz" [] emptyStore closed_empty eq_refl)
             (moduleNamed "a" "1.0" (Some 1%positive)) 1%positive);
      vm_compute; reflexivity.
Defined.

Lemma linkDependency_inserts_copy_witness :
  ∃ p s',
    @linkDependency sampleCollaborators
      (@moduleMapOf sampleCollaborators
         [moduleNamed "a" "1.0" (Some 1%positive); moduleNamed "B" "2.0" (Some 2%positive)])
      (moduleNamed "a" "1.0" (Some 1%positive)) emptyStore "b" = Ok s'
    ∧ mapAt s' 1%positive !! "B" = Some p
    ∧ objs s' !! p = Some (copyOf (moduleNamed "B" "2.0" (Some 2%positive)))
    ∧ ∀ m, contents (mutate p m s') 2%positive = contents s' 2%positive.
Proof.
  destruct (@linkDependency_inserts_copy sampleCollaborators
    (@moduleMapOf sampleCollaborators
       [moduleNamed "a" "1.0" (Some 1%positive); moduleNamed "B" "2.0" (Some 2%positive)])
    (moduleNamed "a" "1.0" (Some 1%positive)) (moduleNamed "B" "2.0" (Some 2%positive))
    emptyStore "b" 1%positive closed_empty)
    as (p & s' & Hrun & _ & Hentry & Hobj & _ & _ & Hown);
    [vm_compute; reflexivity|reflexivity|].
  exists p, s'. split_and!; [done..|].
  intros m. apply map_eq. intros key. by apply Hown.
Defined.

(** C4, as stated, fails: the struct stored in the owner's map differs from
    the dependency's module in the field [Modules]. *)
Lemma inserted_copy_drops_Modules :
  ∃ p s',
    @linkDependency sampleCollaborators
      (@moduleMapOf sampleCollaborators
         [moduleNamed "a" "1.0" (Some 1%positive); moduleNamed "B" "2.0" (Some 2%positive)])
      (moduleNamed "a" "1.0" (Some 1%positive)) emptyStore "b" = Ok s'
    ∧ mapAt s' 1%positive !! "B" = Some p
    ∧ ∃ copy, objs s' !! p = Some copy
        ∧ copy ≠ moduleNamed "B" "2.0" (Some 2%positive)
        ∧ models.Modules copy = None
        ∧ models.Modules (moduleNamed "B" "2.0" (Some 2%positive)) = Some 2%positive.
Proof.
  eexists _, _. split; [reflexivity|]. split; [vm_compute; reflexivity|].
  eexists. split; [vm_compute; reflexivity|]. split_and!; [discriminate|reflexivity..].
Qed.

Lemma BuildDependencyGraph_twice_witness :
  (∃ s2, @BuildDependencyGraphIn sampleCollaborators
           [recordNamed "b" (Some ["c"]); recordNamed "A" (Some ["b"; "zzz"])]
           [moduleNamed "a" "1.0" (Some 1%positive); moduleNamed "b" "2.0" (Some 2%positive);
            moduleNamed "c" "3.0" (Some 3%positive)]
           (storeAfter
              (@BuildDependencyGraphIn sampleCollaborators
                 [recordNamed "A" (Some ["b"; "zzz"]); recordNamed "b" (Some ["c"])]
                 [moduleNamed "a" "1.0" (Some 1%positive);
                  moduleNamed "b" "2.0" (Some 2%positive);
                  moduleNamed "c" "3.0" (Some 3%positive)] emptyStore)) = Ok (None, s2)
         ∧ ∀ r, contents s2 r =
                contents
                  (storeAfter
                     (@BuildDependencyGraphIn sampleCollaborators
                        [recordNamed "A" (Some ["b"; "zzz"]); recordNamed "b" (Some ["c"])]
                        [moduleNamed "a" "1.0" (Some 1%positive);
                         moduleNamed "b" "2.0" (Some 2%positive);
                         moduleNamed "c" "3.0" (Some 3%positive)] emptyStore)) r)
  ∧ (∃ s3, @BuildDependencyGraphIn sampleCollaborators
             [recordNamed "b" (Some ["c"]); recordNamed "A" (Some ["b"; "zzz"])]
             [moduleNamed "a" "1.0" (Some 1%positive); moduleNamed "b" "2.0" (Some 2%positive);
              moduleNamed "c" "3.0" (Some 3%positive)] emptyStore = Ok (None, s3)
           ∧ ∀ r, contents s3 r =
                  contents
                    (storeAfter
                       (@BuildDependencyGraphIn sampleCollaborators
                          [recordNamed "A" (Some ["b"; "zzz"]); recordNamed "b" (Some ["c"])]
                          [moduleNamed "a" "1.0" (Some 1%positive);
                           moduleNamed "b" "2.0" (Some 2%positive);
                           moduleNamed "c" "3.0" (Some 3%positive)] emptyStore)) r).
Proof.
  destruct (rangeOrder_two "a" "b" (recordNamed "A" (Some ["b"; "zzz"]))
              (recordNamed "b" (Some ["c"]))) as [Hfirst Hsecond]; [done|].
  apply (@BuildDependencyGraph_twice sampleCollaborators _
           (<["a" := recordNamed "A" (Some ["b"; "zzz"])]>
              (<["b" := recordNamed "b" (Some ["c"])]> ∅))
           [recordNamed "A" (Some ["b"; "zzz"]); recordNamed "b" (Some ["c"])]
           [recordNamed "b" (Some ["c"]); recordNamed "A" (Some ["b"; "zzz"])]
           [recordNamed "b" (Some ["c"]); recordNamed "A" (Some ["b"; "zzz"])]
           emptyStore _ closed_empty); [|done..|vm_compute; reflexivity].
  right. intros m Hm.
  repeat (apply elem_of_cons in Hm as [->|Hm]; [discriminate|]).
  by apply elem_of_nil in Hm.
Defined.

Lemma BuildDependencyGraphIn_order_decides_witness :
  ∃ s1 s2 s3,
    @BuildDependencyGraphIn sampleCollaborators
      [recordNamed "" (Some [""]); recordNamed "" (Some ["zzz"])]
      [moduleNamed "" "1.0" (Some 1%positive)] emptyStore = Ok (None, s1)
    ∧ @BuildDependencyGraphIn sampleCollaborators
        [recordNamed "" (Some ["zzz"]); recordNamed "" (Some [""])]
        [moduleNamed "" "1.0" (Some 1%positive)] emptyStore = Ok (None, s2)
    ∧ @BuildDependencyGraphIn sampleCollaborators
        [recordNamed "" (Some ["zzz"]); recordNamed "" (Some [""])]
        [moduleNamed "" "1.0" (Some 1%positive)] s1 = Ok (None, s3)
    ∧ contents s1 1%positive !! "" = Some models.zero
    ∧ contents s2 1%positive !! "" = Some (copyOf (moduleNamed "" "1.0" (Some 1%positive)))
    ∧ contents s3 1%positive !! "" = Some (copyOf (moduleNamed "" "1.0" (Some 1%positive)))
    ∧ contents s2 1%positive ≠ contents s1 1%positive
    ∧ contents s3 1%positive ≠ contents s1 1%positive.
Proof.
  destruct (@BuildDependencyGraphIn_order_decides sampleCollaborators
              [moduleNamed "" "1.0" (Some 1%positive)]
              (recordNamed "" (Some [""])) (recordNamed "" (Some ["zzz"])) "x" "y"
              (moduleNamed "" "1.0" (Some 1%positive)) (moduleNamed "" "1.0" (Some 1%positive))
              1%positive "" "zzz" emptyStore closed_empty)
    as (_ & _ & s1 & s2 & s3 & Hrun1 & Hrun2 & Hrun3 & Hzero & Hcopy2 & Hcopy3 & Hdiff);
    [discriminate|vm_compute; reflexivity..|].
  destruct Hdiff as [Hdiff2 Hdiff3]; [discriminate|].
  exists s1, s2, s3. by split_and!.
Defined.

(** ** Merging metadata tables *)

Lemma tableAt_tablePut (s : Store) (n : mapref) (key : string) (value : Metadata)
    (t : option mapref) :
  tableAt (tablePut n key value s) t =
    if decide (t = Some n) then <[key := value]> (tableAt s (Some n)) else tableAt s t.
Proof.
  destruct t as [r|]; [|by case_decide].
  unfold tableAt at 1, tablePut. cbn [tables].
  rewrite lookup_insert. case_decide as Hn.
  - subst r. by rewrite decide_True.
  - by rewrite decide_False by congruence.
Qed.

(** The assignments of the loop, one after the other. *)
Lemma tableAssign_run (order : list (string * Metadata)) (n : mapref) (s : Store) :
  ∃ s', foldResult (λ s kv, tableAssign (Some n) kv.1 kv.2 s) order s = Ok s'
        ∧ tableAt s' (Some n) =
            fold_left (λ table kv, <[kv.1 := kv.2]> table) order (tableAt s (Some n))
        ∧ (∀ r, r ≠ n → tables s' !! r = tables s !! r)
        ∧ objs s' = objs s ∧ maps s' = maps s.
Proof.
  revert s. induction order as [|[key value] order IH]; intros s.
  - exists s. by split_and!.
  - destruct (IH (tablePut n key value s)) as (s' & Hrun & Hat & Hothers & Hobjs & Hmaps).
    exists s'. split_and!.
    + rewrite foldResult_cons. exact Hrun.
    + rewrite Hat, tableAt_tablePut, decide_True by done. reflexivity.
    + intros r Hr. rewrite Hothers by done. simpl. by rewrite lookup_insert_ne.
    + by rewrite Hobjs.
    + by rewrite Hmaps.
Qed.

Lemma fold_insert_union (order : list (string * Metadata)) (table : gmap string Metadata) :
  NoDup order.*1 →
  fold_left (λ table kv, <[kv.1 := kv.2]> table) order table =
    (list_to_map order : gmap string Metadata) ∪ table.
Proof.
  revert table. induction order as [|[key value] order IH]; intros table Hnodup.
  - simpl. by rewrite (left_id_L ∅ (∪)).
  - apply NoDup_cons in Hnodup as [Hkey Hnodup].
    simpl. rewrite IH by done.
    rewrite <- insert_union_l, <- insert_union_r; [done|].
    by apply not_elem_of_list_to_map_1.
Qed.

(** The store that the assignments leave: nothing but the table written to
    has changed. *)
Lemma tableAssign_store (order : list (string * Metadata)) (n : mapref) (s s' : Store) :
  foldResult (λ s kv, tableAssign (Some n) kv.1 kv.2 s) order s = Ok s' →
  s' = match order with
       | [] => s
       | _ :: _ =>
           {| objs := objs s; maps := maps s;
              tables :=
                <[n := fold_left (λ table kv, <[kv.1 := kv.2]> table) order
                         (tableAt s (Some n))]> (tables s) |}
       end.
Proof.
  revert s. induction order as [|[key value] order IH]; intros s Hrun.
  - by injection Hrun as <-.
  - rewrite foldResult_cons in Hrun. cbn [tableAssign mbind result_bind] in Hrun.
    apply IH in Hrun as ->. destruct order as [|kv order]; [reflexivity|].
    rewrite tableAt_tablePut, decide_True by done.
    cbn [tablePut objs maps tables fold_left fst snd]. f_equal.
    apply insert_insert_eq.
Qed.

(** The order of the range over the root does not show in what a merge
    leaves. *)
Lemma MergeMetadataMapIn_order (order : list (string * Metadata)) (root : option mapref)
    (n : mapref) (s : Store) :
  order ≡ₚ map_to_list (tableAt s root) →
  MergeMetadataMapIn order root (Some n) s = MergeMetadataMap root (Some n) s.
Proof.
  intros Horder. unfold MergeMetadataMap, MergeMetadataMapIn.
  destruct (tableAssign_run order n s) as (s1 & Hrun1 & _).
  destruct (tableAssign_run (map_to_list (tableAt s root)) n s) as (s2 & Hrun2 & _).
  rewrite Hrun1, Hrun2. cbn [mbind result_bind]. do 2 f_equal.
  apply tableAssign_store in Hrun1 as ->. apply tableAssign_store in Hrun2 as ->.
  assert (NoDup order.*1) as Hnodup by (rewrite Horder; apply NoDup_fst_map_to_list).
  destruct order as [|kv order].
  - symmetry in Horder. apply Permutation_nil_r in Horder. by rewrite Horder.
  - destruct (map_to_list (tableAt s root)) as [|kv' order'] eqn:Hlist.
    { by apply Permutation_nil_r in Horder. }
    do 2 f_equal. rewrite !fold_insert_union; [|by rewrite <- Hlist; apply NoDup_fst_map_to_list|done].
    f_equal. by apply list_to_map_proper.
Qed.

(** C10 (amended).  Given a non-nil table as second argument,
    [MergeMetadataMap] returns that same map object, and leaves the same
    store whatever the order of the range over the first argument.  The
    object then holds every entry of the root table and, under the other
    keys, what it held before; the root table, every other table and the
    rest of the store are as they were. *)
Theorem MergeMetadataMap_returns_nonroot
    (order : list (string * Metadata)) (root : option mapref) (n : mapref) (s : Store) :
  order ≡ₚ map_to_list (tableAt s root) →
  ∃ s',
    MergeMetadataMap root (Some n) s = Ok (Some n, s')
    ∧ MergeMetadataMapIn order root (Some n) s = Ok (Some n, s')
    ∧ tableAt s' (Some n) = tableAt s root ∪ tableAt s (Some n)
    ∧ (∀ key value, tableAt s root !! key = Some value →
         tableAt s' (Some n) !! key = Some value)
    ∧ (∀ key, tableAt s root !! key = None →
         tableAt s' (Some n) !! key = tableAt s (Some n) !! key)
    ∧ tableAt s' root = tableAt s root
    ∧ (∀ r, r ≠ n → tables s' !! r = tables s !! r)
    ∧ objs s' = objs s ∧ maps s' = maps s.
Proof.
  intros Horder.
  destruct (tableAssign_run order n s) as (s' & Hrun & Hat & Hothers & Hobjs & Hmaps).
  assert (MergeMetadataMapIn order root (Some n) s = Ok (Some n, s')) as Hin.
  { unfold MergeMetadataMapIn. by rewrite Hrun. }
  assert (tableAt s' (Some n) = tableAt s root ∪ tableAt s (Some n)) as Hmerged.
  { rewrite Hat, fold_insert_union.
    - f_equal. rewrite <- (list_to_map_to_list (tableAt s root)).
      apply list_to_map_proper; [|done].
      rewrite Horder. apply NoDup_fst_map_to_list.
    - rewrite Horder. apply NoDup_fst_map_to_list. }
  exists s'. split_and!; try done.
  - by rewrite <- (MergeMetadataMapIn_order order).
  - intros key value Hroot. rewrite Hmerged. by apply lookup_union_Some_l.
  - intros key Hroot. rewrite Hmerged. by apply lookup_union_r.
  - destruct (decide (root = Some n)) as [->|Hne].
    + rewrite Hmerged. apply (idemp_L (∪)).
    + destruct root as [r|]; [|done]. simpl. rewrite Hothers by congruence. done.
Qed.

Lemma MergeMetadataMap_returns_nonroot_witness :
  ∃ s',
    MergeMetadataMap (Some 1%positive) (Some 2%positive)
      (tablePut 2%positive "b" (recordNamed "nonrootB" None)
         (tablePut 2%positive "a" (recordNamed "nonrootA" None)
            (tablePut 1%positive "a" (recordNamed "rootA" None) emptyStore)))
    = Ok (Some 2%positive, s')
    ∧ tableAt s' (Some 2%positive) !! "a" = Some (recordNamed "rootA" None)
    ∧ tableAt s' (Some 2%positive) !! "b" = Some (recordNamed "nonrootB" None)
    ∧ tableAt s' (Some 1%positive) !! "a" = Some (recordNamed "rootA" None)
    ∧ tableAt s' (Some 1%positive) !! "b" = None.
Proof.
  destruct (MergeMetadataMap_returns_nonroot
    (map_to_list
       (tableAt (tablePut 2%positive "b" (recordNamed "nonrootB" None)
                   (tablePut 2%positive "a" (recordNamed "nonrootA" None)
                      (tablePut 1%positive "a" (recordNamed "rootA" None) emptyStore)))
          (Some 1%positive)))
    (Some 1%positive) 2%positive
    (tablePut 2%positive "b" (recordNamed "nonrootB" None)
       (tablePut 2%positive "a" (recordNamed "nonrootA" None)
          (tablePut 1%positive "a" (recordNamed "rootA" None) emptyStore))))
    as (s' & Hrun & _ & _ & Hwins & Hkeeps & Hroot & _); [done|].
  exists s'. split; [exact Hrun|]. split_and!.
  - apply Hwins. vm_compute. reflexivity.
  - rewrite Hkeeps; vm_compute; reflexivity.
  - rewrite Hroot. vm_compute. reflexivity.
  - rewrite Hroot. vm_compute. reflexivity.
Defined.

(** C10, as stated, fails: the nil map is a value of the type of the second
    argument, and with it and a root table that has an entry the call does
    not return its second argument; the first assignment panics. *)
Lemma MergeMetadataMap_into_nil_panics :
  tableAt (tablePut 1%positive "a" (recordNamed "rootA" None) emptyStore) (Some 1%positive)
    !! "a" = Some (recordNamed "rootA" None)
  ∧ MergeMetadataMap (Some 1%positive) None
      (tablePut 1%positive "a" (recordNamed "rootA" None) emptyStore) =
      Panic NilMapAssignment
  ∧ ∀ merged s',
      MergeMetadataMap (Some 1%positive) None
        (tablePut 1%positive "a" (recordNamed "rootA" None) emptyStore) ≠ Ok (merged, s').
Proof.
  split; [vm_compute; reflexivity|].
  assert (MergeMetadataMap (Some 1%positive) None
            (tablePut 1%positive "a" (recordNamed "rootA" None) emptyStore) =
          Panic NilMapAssignment) as Hpanic by (vm_compute; reflexivity).
  split; [exact Hpanic|]. intros merged s'. rewrite Hpanic. discriminate.
Qed.

(** The nil map as second argument: the first assignment panics. *)
Lemma MergeMetadataMap_nil_nonroot (key : string) (value : Metadata)
    (order : list (string * Metadata)) (root : option mapref) (s : Store) :
  MergeMetadataMapIn ((key, value) :: order) root None s = Panic NilMapAssignment.
Proof. reflexivity. Qed.

(** ** Root module and duplicates *)

Section PluginFacts.
Context `{!Collaborators}.

Lemma ConvertMetadataToModules_no_packages (d : MetadataDecoder) (isRoot : bool)
    (modules : list models.Module) (s : Store) :
  (ConvertMetadataToModules d isRoot [] modules s).1.2 = modules.
Proof. unfold ConvertMetadataToModules. simpl. apply app_nil_r. Qed.

(** C3.  On the empty module list both steps end in an index-out-of-range
    panic, and no error value is returned: [RemoveDuplicateRootModule] at
    [modules[0]], and [fetchRootModule] at [modules[0]] whenever the project
    is not a valid root module, the push into the environment fails, or no
    root package is loaded.  The panic goes through [GetRootModule] up to
    [ListUsedModules]. *)
Theorem empty_module_list_panics (h : Host) (m : pipenv) (path : string) (s : Store) :
  RemoveDuplicateRootModule [] = Panic IndexOutOfRange
  ∧ (IsValidRootModule h path = false →
       fetchRootModule h m path s = Panic IndexOutOfRange)
  ∧ (PushRootModuleToVenv h m = false →
       fetchRootModule h m path s = Panic IndexOutOfRange)
  ∧ (LoadModules h (rootModuleOutput h m).1 = [] →
       fetchRootModule h m path s = Panic IndexOutOfRange)
  ∧ (rootModule m = None → IsValidRootModule h path = false →
       ListUsedModules h m path s = Panic IndexOutOfRange).
Proof.
  assert (IsValidRootModule h path = false →
          fetchRootModule h m path s = Panic IndexOutOfRange) as Hinvalid.
  { intros Hvalid. unfold fetchRootModule. by rewrite Hvalid. }
  split_and!.
  - reflexivity.
  - exact Hinvalid.
  - intros Hpush. unfold fetchRootModule. rewrite Hpush.
    by destruct (IsValidRootModule h path).
  - intros Hload. unfold fetchRootModule.
    destruct (if IsValidRootModule h path then PushRootModuleToVenv h m else false);
      [|reflexivity].
    destruct (rootModuleOutput h m) as [output err]. simpl in Hload.
    pose proof (ConvertMetadataToModules_no_packages
                  (NewMetadataDecoder (GetPackageDetails h m)) true [] s) as Hnone.
    rewrite Hload.
    destruct (bool_decide (err = None) && (0 <? String.length output)
              && IsRequirementMeet h true output);
      destruct (ConvertMetadataToModules _ true [] [] s) as [[table modules] s'];
      simpl in Hnone; by subst modules.
  - intros Hroot Hvalid. unfold ListUsedModules, GetRootModule.
    rewrite Hroot, (Hinvalid Hvalid). reflexivity.
Qed.

End PluginFacts.

Lemma empty_module_list_panics_witness :
  RemoveDuplicateRootModule [] = Panic IndexOutOfRange
  ∧ @fetchRootModule sampleCollaborators rootlessHost samplePlugin "." emptyStore =
      Panic IndexOutOfRange
  ∧ @ListUsedModules sampleCollaborators rootlessHost samplePlugin "." emptyStore =
      Panic IndexOutOfRange.
Proof.
  pose proof (@empty_module_list_panics sampleCollaborators rootlessHost samplePlugin "."
                emptyStore) as (Hdedupe & Hfetch & _ & _ & Hlist).
  split_and!; [exact Hdedupe|by apply Hfetch|by apply Hlist].
Defined.

(** ** Scenarios of the specification *)

Example Split_pieces : Strings.Split ("a:b" +:+ "::c") ":" = ["a"; "b"; ""; "c"].
Proof. reflexivity. Qed.

Example Split_empty : Strings.Split "" "," = [""].
Proof. reflexivity. Qed.

Example TrimSpace_ascii : Strings.TrimSpace (" " +:+ lf +:+ "a b " +:+ lf) = "a b".
Proof. vm_compute. reflexivity. Qed.

Example TrimSpace_wide :
  Strings.TrimSpace (Strings.ofBytes [194; 160; 97; 226; 128; 137; 32]) = "a".
Proof. vm_compute. reflexivity. Qed.

Example TrimSpace_keeps_broken_rune :
  Strings.TrimSpace (Strings.ofBytes [160; 97; 194]) = Strings.ofBytes [160; 97; 194].
Proof. vm_compute. reflexivity. Qed.

Example ToLower_ascii : Strings.ToLower id "Home-Page" = "home-page".
Proof. vm_compute. reflexivity. Qed.

Example Replace_scheme :
  Strings.Replace httpReplacer "https://example.com/pkg" = "example.com/pkg"
  ∧ Strings.Replace httpReplacer "http://example.com" = "example.com"
  ∧ Strings.Replace httpReplacer "hhttp://ttp://x" = "http://x".
Proof. split_and!; vm_compute; reflexivity. Qed.

(** Section 8: [dedupeRoot] on root, dep1, root. *)
Example RemoveDuplicateRootModule_scenario :
  RemoveDuplicateRootModule
    [moduleNamed "root" "" None; moduleNamed "dep1" "" None; moduleNamed "root" "" None] =
  Ok [moduleNamed "root" "" None; moduleNamed "dep1" "" None].
Proof. reflexivity. Qed.

(** A run of the plugin from the package listing to the linked modules: the
    root module gets a copy of [dep1] under its name, and the plugin keeps
    the table returned by the merge, which is the one made for the packages
    that are not the root. *)
Example ListModulesWithDeps_run :
  ∃ root dep1 m s,
    @ListModulesWithDeps sampleCollaborators sampleHost samplePlugin "." emptyStore =
      Ok ((Some [root; dep1], None), m, s)
    ∧ models.Name root = "root" ∧ models.Root root = true
    ∧ models.Name dep1 = "dep1" ∧ models.Root dep1 = false
    ∧ (models.Modules root ≫= λ r, Some (contents s r)) = Some {[ "dep1" := copyOf dep1 ]}
    ∧ (models.Modules dep1 ≫= λ r, Some (contents s r)) = Some ∅
    ∧ metainfo m = Some 2%positive
    ∧ dom (tableAt s (metainfo m)) = {[ "root"; "dep1" ]}.
Proof.
  eexists _, _, _, _. split; [vm_compute; reflexivity|].
  split_and!; reflexivity.
Qed.

(** * Further properties of the decoder *)

(** ** Lines of a text *)

Lemma Split_app_sep (a b : string) (sep : ascii) :
  Strings.Split (a +:+ String sep b) sep = Strings.Split a sep ++ Strings.Split b sep.
Proof.
  induction a as [|c a IH].
  - change ("" +:+ String sep b) with (String sep b). simpl.
    by rewrite Ascii.eqb_refl.
  - rewrite append_cons. simpl. rewrite IH.
    destruct (Ascii.eqb c sep); [reflexivity|].
    pose proof (Split_nonempty a sep) as Hne.
    by destruct (Strings.Split a sep).
Qed.

Lemma Split_keeps_free (c sep : ascii) (s : string) :
  Strings.hasByte c s = false →
  Forall (λ piece, Strings.hasByte c piece = false) (Strings.Split s sep).
Proof.
  induction s as [|a s IH]; intros Hfree; simpl.
  - by repeat constructor.
  - simpl in Hfree. apply orb_false_iff in Hfree as [Ha Hs].
    specialize (IH Hs). destruct (Ascii.eqb a sep).
    + by constructor.
    + destruct (Strings.Split s sep) as [|piece pieces].
      * repeat constructor. simpl. by rewrite Ha.
      * inversion IH; subst. constructor; [simpl; by rewrite Ha|done].
Qed.

Section MoreParserFacts.
Context `{!Collaborators}.

(** The parser works line by line, left to right. *)
Lemma parseLines_continue (text more : string) :
  parseLines (text +:+ lf +:+ more) =
    fold_left parseLine (Strings.Split more "010") (parseLines text).
Proof.
  unfold parseLines.
  change (text +:+ lf +:+ more) with (text +:+ String "010" more).
  by rewrite Split_app_sep, fold_left_app.
Qed.

Lemma parseLine_key_value (pkgDataMap : gmap string string) (key value : string) :
  Strings.hasByte ":" key = false → Strings.hasByte ":" value = false →
  parseLine pkgDataMap (key +:+ ":" +:+ value) =
    <[ToLower key := Strings.TrimSpace value]> pkgDataMap.
Proof.
  intros Hkey Hvalue. rewrite parseLine_pieces.
  change (key +:+ ":" +:+ value) with (String.concat ":" [key; value]).
  by rewrite Split_concat by (repeat constructor; done).
Qed.

(** X1.  A line [key:value] at the end of a text decides what is read under
    the lower-cased key, whatever the lines before it bound to that key in
    any case; every other key reads as in the text before the line. *)
Theorem parseLines_last_line_wins (text key value : string) :
  Strings.hasByte "010" key = false → Strings.hasByte "010" value = false →
  Strings.hasByte ":" key = false → Strings.hasByte ":" value = false →
  index (parseLines (text +:+ lf +:+ key +:+ ":" +:+ value)) (ToLower key) =
    Strings.TrimSpace value
  ∧ ∀ other, other ≠ ToLower key →
      index (parseLines (text +:+ lf +:+ key +:+ ":" +:+ value)) other =
        index (parseLines text) other.
Proof.
  intros Hkey Hvalue Hkey' Hvalue'.
  assert (parseLines (text +:+ lf +:+ key +:+ ":" +:+ value) =
          <[ToLower key := Strings.TrimSpace value]> (parseLines text)) as ->.
  { rewrite parseLines_continue, Split_without_sep.
    - simpl. by apply parseLine_key_value.
    - change (key +:+ ":" +:+ value) with (String.concat ":" [key; value]).
      clear Hkey' Hvalue'. induction key as [|a key IH]; simpl in *.
      + done.
      + apply orb_false_iff in Hkey as [Ha Hkey]. rewrite append_cons. simpl.
        rewrite Ha. by apply IH. }
  unfold index. split.
  - by rewrite lookup_insert_eq.
  - intros other Hother. by rewrite lookup_insert_ne.
Qed.

(** X2.  A text without any colon binds nothing: the field map is empty, the
    eight raw fields of the record are empty strings, and the record keeps
    the dependency names it had. *)
Theorem parseLines_without_colon (metadata : Metadata) (text : string) :
  Strings.hasByte ":" text = false →
  parseLines text = ∅
  ∧ Modules (ParseMetadata metadata text) = Modules metadata
  ∧ Name (ParseMetadata metadata text) = ""
  ∧ Version (ParseMetadata metadata text) = ""
  ∧ Description (ParseMetadata metadata text) = ""
  ∧ HomePage (ParseMetadata metadata text) = ""
  ∧ Author (ParseMetadata metadata text) = ""
  ∧ AuthorEmail (ParseMetadata metadata text) = ""
  ∧ License (ParseMetadata metadata text) = ""
  ∧ Location (ParseMetadata metadata text) = "".
Proof.
  intros Hfree.
  assert (parseLines text = ∅) as Hempty.
  { unfold parseLines.
    pose proof (Split_keeps_free ":" "010" text Hfree) as Hlines.
    induction Hlines as [|line lines Hline _ IH]; [reflexivity|].
    simpl. rewrite parseLine_pieces, Split_without_sep by done. exact IH. }
  unfold ParseMetadata. rewrite Hempty. by split_and!.
Qed.

Lemma index_insert_ne (datamap : gmap string string) (key other value : string) :
  other ≠ key → index (<[key := value]> datamap) other = index datamap other.
Proof. intros Hne. unfold index. by rewrite lookup_insert_ne. Qed.

(** X3.  A key that is not one of the nine recognised keys has no effect on
    the record, whatever value it is bound to. *)
Theorem SetMetadataValues_ignores_other_keys
    (matadata : Metadata) (datamap : gmap string string) (key value : string) :
  key ∉ recognisedKeys →
  SetMetadataValues matadata (<[key := value]> datamap) =
    SetMetadataValues matadata datamap.
Proof.
  intros Hkey. unfold recognisedKeys in Hkey.
  repeat (apply not_elem_of_cons in Hkey as [? Hkey]).
  unfold SetMetadataValues. by rewrite !index_insert_ne.
Qed.

(** X4.  Parsing into a record that has been parsed before: the eight raw
    fields are those of the second text alone and the derived fields are
    left as they were; the dependency names are those of the second text
    when it has a "Requires" value, and otherwise those that the record had,
    from the first text.  Parsing the same text twice is parsing it once. *)
Theorem ParseMetadata_again (metadata : Metadata) (first second : string) :
  (index (parseLines second) KeyRequires ≠ "" →
     ParseMetadata (ParseMetadata metadata first) second = ParseMetadata metadata second)
  ∧ (index (parseLines second) KeyRequires = "" →
       ParseMetadata (ParseMetadata metadata first) second =
         withModules (ParseMetadata metadata second)
           (Modules (ParseMetadata metadata first)))
  ∧ ParseMetadata (ParseMetadata metadata first) first = ParseMetadata metadata first.
Proof.
  unfold ParseMetadata, SetMetadataValues, withModules. split_and!.
  - intros Hreq. cbn [Modules ProjectURL PackageURL PackageJsonURL DistInfoPath LocalPath
                      LicensePath MetadataPath WheelPath].
    destruct (index (parseLines second) KeyRequires); done.
  - intros Hreq. cbn. by rewrite Hreq.
  - cbn [Modules ProjectURL PackageURL PackageJsonURL DistInfoPath LocalPath
         LicensePath MetadataPath WheelPath].
    by destruct (String.length (index (parseLines first) KeyRequires) =? 0).
Qed.

(** ** The scheme of the home page *)

Lemma find_None_of_existsb {A} (f : A → bool) (l : list A) :
  List.existsb f l = false → List.find f l = None.
Proof.
  induction l as [|x l IH]; simpl; [done|].
  intros [Hx Hl]%orb_false_iff. rewrite Hx. by apply IH.
Qed.

Lemma Replace_without_occurrence (r : Strings.Replacer) (s : string) :
  occursIn r s = false → Strings.Replace r s = s.
Proof.
  unfold Strings.Replace. induction s as [|a s IH]; [done|].
  cbn [occursIn]. intros [Hhere Hlater]%orb_false_iff.
  cbn [Strings.replaceFrom]. rewrite (find_None_of_existsb _ _ Hhere).
  by rewrite IH.
Qed.

Lemma Replace_scheme_front (s : string) :
  Strings.Replace httpReplacer ("https://" +:+ s) = Strings.Replace httpReplacer s
  ∧ Strings.Replace httpReplacer ("http://" +:+ s) = Strings.Replace httpReplacer s.
Proof. split; destruct s; vm_compute; reflexivity. Qed.

(** X5.  A home page in which neither "https://" nor "http://" occurs is
    stored as it is, and with one of the two in front of it, it is stored
    without that scheme. *)
Theorem SetMetadataValues_HomePage
    (matadata : Metadata) (datamap : gmap string string) (rest : string) :
  occursIn httpReplacer rest = false →
  HomePage (SetMetadataValues matadata (<[KeyHomePage := rest]> datamap)) = rest
  ∧ HomePage (SetMetadataValues matadata (<[KeyHomePage := "https://" +:+ rest]> datamap)) = rest
  ∧ HomePage (SetMetadataValues matadata (<[KeyHomePage := "http://" +:+ rest]> datamap)) = rest.
Proof.
  intros Hrest. cbn [SetMetadataValues HomePage]. unfold index.
  rewrite !lookup_insert_eq. cbn [default from_option id].
  destruct (Replace_scheme_front rest) as [-> ->].
  by rewrite Replace_without_occurrence.
Qed.

End MoreParserFacts.

(** *** On concrete input *)

Lemma parseLines_last_line_wins_witness :
  index (@parseLines sampleCollaborators ("name: foo" +:+ lf +:+ "NAME" +:+ ":" +:+ " bar"))
    (@ToLower sampleCollaborators "NAME") = Strings.TrimSpace " bar"
  ∧ ∀ other, other ≠ @ToLower sampleCollaborators "NAME" →
      index (@parseLines sampleCollaborators
               ("name: foo" +:+ lf +:+ "NAME" +:+ ":" +:+ " bar")) other =
        index (@parseLines sampleCollaborators "name: foo") other.
Proof.
  apply (@parseLines_last_line_wins sampleCollaborators "name: foo" "NAME" " bar");
    reflexivity.
Defined.

Lemma parseLines_without_colon_witness :
  @parseLines sampleCollaborators ("WARNING" +:+ lf +:+ "Package not found") = ∅
  ∧ Name (@ParseMetadata sampleCollaborators (recordNamed "old" (Some ["dep"]))
            ("WARNING" +:+ lf +:+ "Package not found")) = ""
  ∧ Modules (@ParseMetadata sampleCollaborators (recordNamed "old" (Some ["dep"]))
               ("WARNING" +:+ lf +:+ "Package not found")) = Some ["dep"].
Proof.
  pose proof (@parseLines_without_colon sampleCollaborators (recordNamed "old" (Some ["dep"]))
                ("WARNING" +:+ lf +:+ "Package not found") eq_refl)
    as (Hmap & Hmods & Hname & _).
  by split_and!.
Defined.

Lemma SetMetadataValues_ignores_other_keys_witness :
  SetMetadataValues newMetadata (<["classifier" := "x"]> (<["name" := "foo"]> ∅)) =
    SetMetadataValues newMetadata (<["name" := "foo"]> ∅).
Proof.
  apply SetMetadataValues_ignores_other_keys.
  unfold recognisedKeys. repeat (apply not_elem_of_cons; split; [done|]).
  apply not_elem_of_nil.
Defined.

Lemma ParseMetadata_again_witness :
  @ParseMetadata sampleCollaborators
    (@ParseMetadata sampleCollaborators newMetadata ("Name: a" +:+ lf +:+ "Requires: x"))
    ("Name: b" +:+ lf +:+ "Requires: y") =
    @ParseMetadata sampleCollaborators newMetadata ("Name: b" +:+ lf +:+ "Requires: y")
  ∧ @ParseMetadata sampleCollaborators
      (@ParseMetadata sampleCollaborators newMetadata ("Name: a" +:+ lf +:+ "Requires: x"))
      "Name: b" =
      withModules (@ParseMetadata sampleCollaborators newMetadata "Name: b")
        (Modules (@ParseMetadata sampleCollaborators newMetadata
                    ("Name: a" +:+ lf +:+ "Requires: x")))
  ∧ Modules (@ParseMetadata sampleCollaborators
               (@ParseMetadata sampleCollaborators newMetadata
                  ("Name: a" +:+ lf +:+ "Requires: x")) "Name: b") = Some ["x"].
Proof.
  split_and!.
  - apply (@ParseMetadata_again sampleCollaborators newMetadata
             ("Name: a" +:+ lf +:+ "Requires: x") ("Name: b" +:+ lf +:+ "Requires: y")).
    vm_compute. discriminate.
  - apply (@ParseMetadata_again sampleCollaborators newMetadata
             ("Name: a" +:+ lf +:+ "Requires: x") "Name: b").
    vm_compute. reflexivity.
  - vm_compute. reflexivity.
Defined.

Lemma SetMetadataValues_HomePage_witness :
  HomePage (SetMetadataValues newMetadata (<[KeyHomePage := "example.com:8080/pkg"]> ∅)) =
    "example.com:8080/pkg"
  ∧ HomePage (SetMetadataValues newMetadata
                (<[KeyHomePage := "https://" +:+ "example.com:8080/pkg"]> ∅)) =
      "example.com:8080/pkg"
  ∧ HomePage (SetMetadataValues newMetadata
                (<[KeyHomePage := "http://" +:+ "example.com:8080/pkg"]> ∅)) =
      "example.com:8080/pkg".
Proof.
  apply (SetMetadataValues_HomePage newMetadata ∅ "example.com:8080/pkg").
  vm_compute. reflexivity.
Defined.

(** ** Maps filled by a loop *)

Section KeyedFold.
Context {A V : Type} (k : A → string) (v : A → V).

Let put (m : gmap string V) (x : A) : gmap string V := <[k x := v x]> m.

Lemma fold_keyed_absent (l : list A) (acc : gmap string V) (key : string) :
  (∀ x, x ∈ l → k x ≠ key) → fold_left put l acc !! key = acc !! key.
Proof.
  revert acc. induction l as [|x l IH]; intros acc Hl; [done|].
  simpl. rewrite IH by (intros x' Hx'; apply Hl; by right).
  unfold put. apply lookup_insert_ne, Hl. by left.
Qed.

Lemma fold_keyed_last (front back : list A) (x : A) (acc : gmap string V) :
  (∀ x', x' ∈ back → k x' ≠ k x) →
  fold_left put (front ++ x :: back) acc !! k x = Some (v x).
Proof.
  intros Hback. rewrite fold_left_app. simpl.
  rewrite fold_keyed_absent by done. unfold put at 2. apply lookup_insert_eq.
Qed.

Lemma fold_keyed_origin (l : list A) (acc : gmap string V) (key : string) (y : V) :
  fold_left put l acc !! key = Some y →
  acc !! key = Some y ∨ ∃ x, x ∈ l ∧ k x = key ∧ v x = y.
Proof.
  revert acc. induction l as [|x l IH]; intros acc; simpl; [by left|].
  intros [Hacc|(x' & Hin & Hk & Hv)]%IH.
  - unfold put in Hacc. apply lookup_insert_Some in Hacc as [[Hk Hv]|[_ Hacc]].
    + right. exists x. split; [by left|done].
    + by left.
  - right. exists x'. split; [by right|done].
Qed.

Lemma fold_keyed_present (l : list A) (acc : gmap string V) (x : A) :
  x ∈ l → is_Some (fold_left put l acc !! k x).
Proof.
  induction l as [|x' l IH] using rev_ind; intros Hin.
  - by apply elem_of_nil in Hin.
  - rewrite fold_left_app. simpl. unfold put at 1.
    destruct (decide (k x' = k x)) as [Heq|Hne].
    + rewrite Heq, lookup_insert_eq. eauto.
    + rewrite lookup_insert_ne by done. apply IH.
      apply elem_of_app in Hin as [Hin|Hin%list_elem_of_singleton]; [done|congruence].
Qed.

Lemma fold_keyed_final (l : list A) (acc : gmap string V) (x : A) :
  x ∈ l →
  ∃ front y back,
    l = front ++ y :: back
    ∧ k y = k x
    ∧ (∀ z, z ∈ back → k z ≠ k x)
    ∧ fold_left put l acc !! k x = Some (v y).
Proof.
  intros Hin.
  assert (∃ front y back,
            l = front ++ y :: back ∧ k y = k x ∧ ∀ z, z ∈ back → k z ≠ k x)
    as (front & y & back & -> & Hkey & Hback).
  { assert (∃ z, z ∈ l ∧ k z = k x) as Hsome by eauto.
    clear Hin. induction l as [|a l IH]; [by destruct Hsome as (z & Hz%elem_of_nil & _)|].
    destruct (decide (k x ∈ map k l)) as [Hlater|Hlast].
    - apply list_elem_of_fmap in Hlater as (z & Hz & Hin).
      destruct IH as (front & y & back & -> & Hkey & Hback); [by eauto|].
      by exists (a :: front), y, back.
    - exists [], a, l. split; [done|]. split.
      + destruct Hsome as (z & [->|Hz]%elem_of_cons & Hkey); [done|].
        destruct Hlast. rewrite <- Hkey. by apply (list_elem_of_fmap_2 k).
      + intros z Hz Hkey. destruct Hlast. rewrite <- Hkey.
        by apply (list_elem_of_fmap_2 k). }
  exists front, y, back. split_and!; try done.
  rewrite <- Hkey. apply fold_keyed_last. intros z Hz. rewrite Hkey. by apply Hback.
Qed.

End KeyedFold.

Lemma fold_left_map_l {A B C} (f : A → B) (g : C → B → C) (l : list A) (acc : C) :
  fold_left g (map f l) acc = fold_left (λ c a, g c (f a)) l acc.
Proof. revert acc. induction l as [|a l IH]; intros acc; [done|]. simpl. apply IH. Qed.

(** ** More on the dependency graph builder *)

Lemma writeEdges_outcome (es : list Edge) (s : Store) (p : panic) :
  foldResult writeEdge es s = Panic p ↔
    p = NilMapAssignment ∧ Exists (λ e : Edge, e.1.1 = None) es.
Proof.
  revert s. induction es as [|[[target key] copy] es IH]; intros s.
  - simpl. split; [discriminate|]. intros [_ Hex]. by apply Exists_nil in Hex.
  - rewrite foldResult_cons. destruct target as [r|].
    + rewrite writeEdge_Some. cbn [mbind result_bind]. rewrite IH.
      rewrite Exists_cons. cbn [fst]. split.
      * intros [-> Hex]. split; [done|by right].
      * intros [-> [Hhere|Hex]]; [discriminate|done].
    + cbn. rewrite Exists_cons. cbn [fst]. split.
      * intros [= <-]. split; [done|by left].
      * by intros [-> _].
Qed.

Lemma writeEdges_frame (es : list Edge) (s s' : Store) :
  foldResult writeEdge es s = Ok s' →
  tables s' = tables s
  ∧ objs s ⊆ objs s'
  ∧ ∀ r key, (∀ e, e ∈ es → e.1 ≠ (Some r, key)) →
      mapAt s' r !! key = mapAt s r !! key.
Proof.
  revert s. induction es as [|[[target key] copy] es IH]; intros s Hrun.
  - simpl in Hrun. injection Hrun as <-. by split_and!.
  - rewrite foldResult_cons in Hrun. destruct target as [r|]; [|discriminate].
    rewrite writeEdge_Some in Hrun. cbn [mbind result_bind] in Hrun.
    apply IH in Hrun as (Htab & Hobjs & Hmaps). split_and!.
    + by rewrite Htab.
    + etrans; [|exact Hobjs]. rewrite objs_mapPut, objs_alloc.
      apply insert_subseteq, alloc_fresh.
    + intros r' key' Hnone. rewrite Hmaps by (intros e He; apply Hnone; by right).
      rewrite mapAt_mapPut, mapAt_alloc. case_decide as Hr; [subst r'|by rewrite mapAt_alloc].
      apply lookup_insert_ne. intros <-. by apply (Hnone (Some r, key, copy)); [left|].
Qed.

Section MoreGraphFacts.
Context `{!Collaborators}.

(** X6.  The lookup built by the first loop: what is found under a key is a
    module of the list whose lower-cased name is the key; every module of
    the list has its lower-cased name in the lookup; and of several modules
    with the same lower-cased name the last one of the list is found. *)
Theorem moduleMapOf_lookup (modules : list models.Module) :
  (∀ key module, moduleMapOf modules !! key = Some module →
     module ∈ modules ∧ ToLower (models.Name module) = key)
  ∧ (∀ module, module ∈ modules →
       is_Some (moduleMapOf modules !! ToLower (models.Name module)))
  ∧ (∀ front module back,
       modules = front ++ module :: back →
       (∀ later, later ∈ back →
          ToLower (models.Name later) ≠ ToLower (models.Name module)) →
       moduleMapOf modules !! ToLower (models.Name module) = Some module).
Proof.
  split_and!.
  - intros key module Hfound. split; [|by eapply moduleMapOf_key].
    apply (fold_keyed_origin (λ m, ToLower (models.Name m)) (λ m, m)) in Hfound
      as [Hempty|(m & Hin & _ & ->)]; [by rewrite lookup_empty in Hempty|done].
  - intros module Hin.
    apply (fold_keyed_present (λ m, ToLower (models.Name m)) (λ m, m)), Hin.
  - intros front module back -> Hback.
    by apply (fold_keyed_last (λ m, ToLower (models.Name m)) (λ m, m)).
Qed.

Lemma edges_nil_target (moduleMap : gmap string models.Module) (order : list Metadata) :
  Exists (λ e : Edge, e.1.1 = None) (edges moduleMap order) ↔
    Exists (λ pkgmeta,
              default [] (Modules pkgmeta) ≠ []
              ∧ models.Modules (lookupModule moduleMap (ToLower (Name pkgmeta))) = None)
      order.
Proof.
  rewrite !Exists_exists. split.
  - intros (e & (pkgmeta & modname & Hin & Hmod & ->)%elem_of_edges & Hnil).
    exists pkgmeta. split; [done|]. split; [|done].
    intros Hnone. rewrite Hnone in Hmod. by apply elem_of_nil in Hmod.
  - intros (pkgmeta & Hin & Hdeps & Hnil).
    destruct (default [] (Modules pkgmeta)) as [|modname rest] eqn:Hmods; [done|].
    exists (edgeOf moduleMap (lookupModule moduleMap (ToLower (Name pkgmeta))) modname).
    split; [|done]. apply elem_of_edges. exists pkgmeta, modname.
    split; [done|]. split; [|done]. rewrite Hmods. by left.
Qed.

(** X7.  How a linking pass ends.  It never returns an error value.  It
    panics, and then with the nil-map assignment, exactly when some record
    that names at least one dependency has an owner without dependency map:
    a name that is not in the lookup, or a module whose map is nil.  That
    does not depend on the store nor on the order of the range. *)
Theorem BuildDependencyGraphIn_outcome
    (order : list Metadata) (modules : list models.Module) (s : Store) :
  (∀ err s', BuildDependencyGraphIn order modules s = Ok (err, s') → err = None)
  ∧ (∀ p, BuildDependencyGraphIn order modules s = Panic p ↔
       p = NilMapAssignment
       ∧ Exists (λ pkgmeta,
                   default [] (Modules pkgmeta) ≠ []
                   ∧ models.Modules
                       (lookupModule (moduleMapOf modules) (ToLower (Name pkgmeta))) = None)
           order).
Proof.
  split.
  - intros err s' Hrun. by apply BuildDependencyGraphIn_Ok in Hrun as [-> _].
  - intros p. rewrite BuildDependencyGraphIn_edges, <- edges_nil_target, <- (writeEdges_outcome _ s).
    destruct (foldResult writeEdge _ s); cbn; [split; discriminate|].
    split; intros [= ->]; reflexivity.
Qed.

(** X8.  A pass in which no record names a dependency returns success and
    leaves the store as it is, whether or not the records have a module in
    the list. *)
Theorem BuildDependencyGraphIn_without_dependencies
    (order : list Metadata) (modules : list models.Module) (s : Store) :
  Forall (λ pkgmeta, default [] (Modules pkgmeta) = []) order →
  BuildDependencyGraphIn order modules s = Ok (None, s).
Proof.
  intros Hnone. rewrite BuildDependencyGraphIn_edges.
  assert (edges (moduleMapOf modules) order = []) as ->; [|reflexivity].
  unfold edges. induction Hnone as [|pkgmeta order Hdeps _ IH]; [reflexivity|].
  cbn [mbind list_bind]. fold (edges (moduleMapOf modules) order) in IH.
  unfold edgesOf at 1. rewrite Hdeps. exact IH.
Qed.

(** X9.  A pass that returns has only added to the store: the metadata
    tables are as they were, every struct that was behind a pointer is
    unchanged, and an entry of a dependency map keeps its pointer unless
    some record assigns it, that is, unless the map is that of the record's
    owner and the key is the name of the module found for one of the
    record's dependency names. *)
Theorem BuildDependencyGraphIn_frame
    (order : list Metadata) (modules : list models.Module) (s s' : Store) (err : error) :
  BuildDependencyGraphIn order modules s = Ok (err, s') →
  tables s' = tables s
  ∧ objs s ⊆ objs s'
  ∧ ∀ r key,
      (∀ pkgmeta modname,
         pkgmeta ∈ order → modname ∈ default [] (Modules pkgmeta) →
         models.Modules (lookupModule (moduleMapOf modules) (ToLower (Name pkgmeta)))
           = Some r →
         models.Name (lookupModule (moduleMapOf modules) (ToLower modname)) ≠ key) →
      mapAt s' r !! key = mapAt s r !! key.
Proof.
  intros Hrun. apply BuildDependencyGraphIn_Ok in Hrun as [_ Hrun].
  apply writeEdges_frame in Hrun as (Htab & Hobjs & Hmaps).
  split_and!; [done..|].
  intros r key Hnone. apply Hmaps.
  intros e (pkgmeta & modname & Hin & Hmod & ->)%elem_of_edges [= Howner Hkey].
  by eapply Hnone.
Qed.

(** X10.  After a pass that returns, over a table all of whose dependency
    names resolve: for every record, the map of its owner holds, under the
    exact-cased name of the module found for each of its dependency names, a
    copy of that module. *)
Theorem BuildDependencyGraphIn_links_all
    (modules : list models.Module) (pkgsMetadata : gmap string Metadata)
    (order : list Metadata) (s s' : Store) :
  closed s →
  resolves modules pkgsMetadata →
  rangeOrder pkgsMetadata order →
  BuildDependencyGraphIn order modules s = Ok (None, s') →
  ∀ key pkgmeta modname owner r depModule,
    pkgsMetadata !! key = Some pkgmeta →
    modname ∈ default [] (Modules pkgmeta) →
    moduleMapOf modules !! ToLower (Name pkgmeta) = Some owner →
    models.Modules owner = Some r →
    moduleMapOf modules !! ToLower modname = Some depModule →
    contents s' r !! models.Name depModule = Some (copyOf depModule).
Proof.
  intros Hclosed Hres Horder Hrun key pkgmeta modname owner r depModule
    Hkey Hmod Howner Hmap Hdep.
  apply BuildDependencyGraphIn_Ok in Hrun as [_ Hrun].
  pose proof (writeEdges_targets _ _ _ Hrun) as Htargets.
  destruct (writeEdges_run _ s Hclosed Htargets) as (s1 & Hrun1 & _ & _ & Hcont).
  assert (s1 = s') as -> by congruence.
  rewrite Hcont.
  rewrite (replay_written _ (Some r, models.Name depModule, copyOf depModule)); try done.
  - by eapply edges_consistent.
  - apply elem_of_edges. exists pkgmeta, modname. split_and!; [|done|].
    + unfold rangeOrder in Horder. rewrite Horder.
      apply list_elem_of_fmap. exists (key, pkgmeta). split; [done|].
      by apply elem_of_map_to_list.
    + unfold edgeOf, lookupModule. rewrite Howner, Hdep. cbn. by rewrite Hmap.
Qed.

End MoreGraphFacts.

(** ** More on merging *)

(** The table that a merge leaves in a non-nil second argument. *)
Lemma MergeMetadataMapIn_table
    (order : list (string * Metadata)) (root : option mapref) (n : mapref) (s : Store) :
  order ≡ₚ map_to_list (tableAt s root) →
  ∃ s', MergeMetadataMapIn order root (Some n) s = Ok (Some n, s')
        ∧ tableAt s' (Some n) = tableAt s root ∪ tableAt s (Some n)
        ∧ ∀ r, r ≠ n → tables s' !! r = tables s !! r.
Proof.
  intros Horder.
  destruct (tableAssign_run order n s) as (s' & Hrun & Hat & Hothers & _).
  exists s'. split_and!; [|  |done].
  - unfold MergeMetadataMapIn. by rewrite Hrun.
  - rewrite Hat, fold_insert_union by (rewrite Horder; apply NoDup_fst_map_to_list).
    f_equal. rewrite <- (list_to_map_to_list (tableAt s root)).
    apply list_to_map_proper; [|done].
    rewrite Horder. apply NoDup_fst_map_to_list.
Qed.

(** X11.  A merge whose first argument is nil or has no entry returns its
    second argument, nil included, and leaves the store as it is.  A merge
    into the nil map panics exactly when the first argument has an entry. *)
Theorem MergeMetadataMap_empty_root (root nonroot : option mapref) (s : Store) :
  (tableAt s root = ∅ → MergeMetadataMap root nonroot s = Ok (nonroot, s))
  ∧ (∀ p, MergeMetadataMap root None s = Panic p ↔
       p = NilMapAssignment ∧ tableAt s root ≠ ∅).
Proof.
  unfold MergeMetadataMap. split.
  - intros ->. by rewrite map_to_list_empty.
  - intros p. destruct (map_to_list (tableAt s root)) as [|[key value] order] eqn:Hlist.
    + apply map_to_list_empty_iff in Hlist. cbn. split; [discriminate|].
      by intros [_ Hne].
    + cbn. split.
      * intros [= <-]. split; [done|]. intros Hempty.
        by rewrite Hempty, map_to_list_empty in Hlist.
      * by intros [-> _].
Qed.

(** X12.  Merging the same root table a second time into the table that a
    merge has left changes no entry of it, in whatever order either merge
    ranges over the root; and the keys of the merged table are those of the
    two tables together. *)
Theorem MergeMetadataMapIn_again
    (order again : list (string * Metadata)) (root : option mapref) (n : mapref)
    (s s1 : Store) :
  order ≡ₚ map_to_list (tableAt s root) →
  MergeMetadataMapIn order root (Some n) s = Ok (Some n, s1) →
  again ≡ₚ map_to_list (tableAt s1 root) →
  dom (tableAt s1 (Some n)) = dom (tableAt s root) ∪ dom (tableAt s (Some n))
  ∧ ∃ s2, MergeMetadataMapIn again root (Some n) s1 = Ok (Some n, s2)
          ∧ tableAt s2 (Some n) = tableAt s1 (Some n).
Proof.
  intros Horder Hrun Hagain.
  destruct (MergeMetadataMapIn_table order root n s Horder) as (s1' & Hrun1 & Hat1 & Hothers1).
  assert (s1' = s1) as -> by congruence.
  split; [by rewrite Hat1, dom_union_L|].
  destruct (MergeMetadataMapIn_table again root n s1 Hagain) as (s2 & Hrun2 & Hat2 & _).
  exists s2. split; [done|]. rewrite Hat2.
  destruct (decide (root = Some n)) as [->|Hne].
  - apply (idemp_L (∪)).
  - assert (tableAt s1 root = tableAt s root) as ->.
    { destruct root as [r|]; [|done]. simpl. rewrite Hothers1 by congruence. done. }
    rewrite Hat1. by rewrite (assoc_L (∪)), (idemp_L (∪)).
Qed.

(** ** More on the duplicates of the root *)

Lemma RemoveDuplicateRootModule_loop (rootMod : models.Module) (rest : list models.Module)
    (i : nat) (updatedModules : list models.Module) :
  fold_left
    (λ updatedModules im,
       if (0 <? im.1) && String.eqb (models.Name im.2) (models.Name rootMod)
       then updatedModules else updatedModules ++ [im.2])
    (zip (seq (S i) (length rest)) rest) updatedModules =
  updatedModules ++ filter (λ m, models.Name m ≠ models.Name rootMod) rest.
Proof.
  revert i updatedModules. induction rest as [|m rest IH]; intros i updatedModules.
  - simpl. by rewrite app_nil_r.
  - cbn [length seq zip zip_with fold_left fst snd]. rewrite IH.
    change (0 <? S i) with true. cbn [andb].
    destruct (String.eqb_spec (models.Name m) (models.Name rootMod)) as [Heq|Hne].
    + by rewrite filter_cons_False by (intros Hne; by apply Hne).
    + rewrite filter_cons_True by done. by rewrite <- app_assoc.
Qed.

(** X13.  On a list that is not empty, the pass over the modules keeps the
    first module and, of the others, exactly those whose name differs from
    the name of the first, in their order.  The comparison is on the exact
    name, and duplicates of other modules stay. *)
Theorem RemoveDuplicateRootModule_keeps (rootMod : models.Module) (rest : list models.Module) :
  RemoveDuplicateRootModule (rootMod :: rest) =
    Ok (rootMod :: filter (λ m, models.Name m ≠ models.Name rootMod) rest).
Proof.
  unfold RemoveDuplicateRootModule. f_equal.
  cbn [length seq zip zip_with fold_left fst snd].
  change (0 <? 0) with false. cbn [andb app].
  apply (RemoveDuplicateRootModule_loop rootMod rest 0 [rootMod]).
Qed.

(** X14.  What the pass returns is a fixed point of the pass: it is not
    empty, no module after the first has the name of the first, it is not
    longer than the input, and running the pass on it returns it again. *)
Theorem RemoveDuplicateRootModule_again (modules updatedModules : list models.Module) :
  RemoveDuplicateRootModule modules = Ok updatedModules →
  RemoveDuplicateRootModule updatedModules = Ok updatedModules
  ∧ head updatedModules = head modules
  ∧ length updatedModules ≤ length modules
  ∧ ∀ rootMod others, updatedModules = rootMod :: others →
      Forall (λ m, models.Name m ≠ models.Name rootMod) others.
Proof.
  assert (∀ first others,
            RemoveDuplicateRootModule (first :: others) =
              Ok (first :: filter (λ m, models.Name m ≠ models.Name first) others)) as Hpass.
  { intros first others. unfold RemoveDuplicateRootModule. f_equal.
    cbn [length seq zip zip_with fold_left fst snd].
    change (0 <? 0) with false. cbn [andb app].
    apply (RemoveDuplicateRootModule_loop first others 0 [first]). }
  destruct modules as [|rootMod rest]; [discriminate|].
  rewrite Hpass. intros [= <-].
  assert (Forall (λ m, models.Name m ≠ models.Name rootMod)
            (filter (λ m, models.Name m ≠ models.Name rootMod) rest)) as Hall.
  { apply Forall_forall. by intros m [Hm _]%list_elem_of_filter. }
  split_and!.
  - rewrite Hpass. do 2 f_equal.
    induction Hall as [|m ms Hm _ IH]; [done|]. by rewrite filter_cons_True, IH.
  - done.
  - cbn [length]. pose proof (length_filter (λ m, models.Name m ≠ models.Name rootMod) rest).
    lia.
  - by intros ? ? [= <- <-].
Qed.

(** ** The projector *)

Section ProjectorFacts.
Context `{!Collaborators}.

Lemma BuildModule_fields (d : MetadataDecoder) (root : bool) (metadata : Metadata) (s : Store) :
  models.Name (BuildModule d root metadata s).1 = Name metadata
  ∧ models.Root (BuildModule d root metadata s).1 = root
  ∧ models.Modules (BuildModule d root metadata s).1 = Some (fresh (dom (maps s)))
  ∧ (BuildModule d root metadata s).2 = (makeMap s).2.
Proof. by split_and!. Qed.

Lemma BuildModuleLicense_keeps (d : MetadataDecoder) (distinfopath : string)
    (module : models.Module) :
  models.Name (BuildModuleLicense d distinfopath module) = models.Name module
  ∧ models.Root (BuildModuleLicense d distinfopath module) = models.Root module
  ∧ models.Modules (BuildModuleLicense d distinfopath module) = models.Modules module.
Proof.
  unfold BuildModuleLicense. by destruct (GetLicenses distinfopath) as [licensePkg [e|]].
Qed.

Lemma fold_pair_list {A B S} (f : A → B) (g : S → A → S) (l : list A) (acc : list B) (s : S) :
  fold_left (λ (acc : list B * S) (x : A), let '(out, s) := acc in (out ++ [f x], g s x))
    l (acc, s) =
  (acc ++ map f l, fold_left g l s).
Proof.
  revert acc s. induction l as [|x l IH]; intros acc s; simpl.
  - by rewrite app_nil_r.
  - rewrite IH. by rewrite <- app_assoc.
Qed.

Lemma tablePut_fold {A} (k : A → string) (v : A → Metadata) (t : mapref) (l : list A)
    (s : Store) :
  tableAt (fold_left (λ s x, tablePut t (k x) (v x) s) l s) (Some t) =
    fold_left (λ m x, <[k x := v x]> m) l (tableAt s (Some t))
  ∧ objs (fold_left (λ s x, tablePut t (k x) (v x) s) l s) = objs s
  ∧ maps (fold_left (λ s x, tablePut t (k x) (v x) s) l s) = maps s
  ∧ ∀ r, r ≠ t →
      tables (fold_left (λ s x, tablePut t (k x) (v x) s) l s) !! r = tables s !! r.
Proof.
  revert s. induction l as [|x l IH]; intros s; [done|].
  cbn [fold_left]. destruct (IH (tablePut t (k x) (v x) s)) as (Hat & Hobjs & Hmaps & Hothers).
  split_and!.
  - rewrite Hat, tableAt_tablePut. by rewrite decide_True.
  - by rewrite Hobjs.
  - by rewrite Hmaps.
  - intros r Hr. rewrite Hothers by done. cbn [tablePut tables].
    by rewrite lookup_insert_ne.
Qed.

Lemma tablePut_fold_keeps {A} (k : A → string) (v : A → Metadata) (t : mapref) (l : list A)
    (s : Store) (r : mapref) :
  is_Some (tables s !! r) →
  is_Some (tables (fold_left (λ s x, tablePut t (k x) (v x) s) l s) !! r).
Proof.
  revert s. induction l as [|x l IH]; intros s Hr; [done|].
  cbn [fold_left]. apply IH. cbn [tablePut tables].
  rewrite lookup_insert. by case_decide.
Qed.

Lemma GetMetadataList_eq (d : MetadataDecoder) (pkgs : list Packages.t) (s : Store) :
  GetMetadataList d pkgs s =
    ((Some (makeTable s).1,
      map (λ pkg, BuildMetadata d (Packages.Name pkg) newMetadata) pkgs),
     fold_left
       (λ st pkg, tablePut (makeTable s).1 (ToLower (Packages.Name pkg))
                    (BuildMetadata d (Packages.Name pkg) newMetadata) st)
       pkgs (makeTable s).2).
Proof.
  unfold GetMetadataList. cbn [makeTable fst snd].
  rewrite (fold_pair_list
             (λ pkg, BuildMetadata d (Packages.Name pkg) newMetadata)
             (λ st pkg, tablePut (fresh (dom (tables s))) (ToLower (Packages.Name pkg))
                          (BuildMetadata d (Packages.Name pkg) newMetadata) st)).
  reflexivity.
Qed.

(** X15.  The fetch orchestrator returns a table that it has just made and
    a list with the record of every package, in the order of the packages.
    What the table holds under a key is the record of a package whose
    lower-cased name is the key; the lower-cased name of every package is in
    the table; and of several packages with the same lower-cased name the
    table holds the record of the last.  Nothing else of the store
    changes. *)
Theorem GetMetadataList_table (d : MetadataDecoder) (pkgs : list Packages.t)
    (s s' : Store) (metainfo : option mapref) (metaList : list Metadata) :
  GetMetadataList d pkgs s = ((metainfo, metaList), s') →
  metaList = map (λ pkg, BuildMetadata d (Packages.Name pkg) newMetadata) pkgs
  ∧ (∃ t, metainfo = Some t ∧ tables s !! t = None
          ∧ ∀ r, r ≠ t → tables s' !! r = tables s !! r)
  ∧ objs s' = objs s ∧ maps s' = maps s
  ∧ (∀ key metadata, tableAt s' metainfo !! key = Some metadata →
       ∃ pkg, pkg ∈ pkgs ∧ ToLower (Packages.Name pkg) = key
              ∧ metadata = BuildMetadata d (Packages.Name pkg) newMetadata)
  ∧ (∀ pkg, pkg ∈ pkgs → is_Some (tableAt s' metainfo !! ToLower (Packages.Name pkg)))
  ∧ (∀ front pkg back,
       pkgs = front ++ pkg :: back →
       (∀ later, later ∈ back →
          ToLower (Packages.Name later) ≠ ToLower (Packages.Name pkg)) →
       tableAt s' metainfo !! ToLower (Packages.Name pkg) =
         Some (BuildMetadata d (Packages.Name pkg) newMetadata)).
Proof.
  rewrite GetMetadataList_eq. cbn [makeTable fst snd]. intros [= <- <- <-].
  assert (tables s !! fresh (dom (tables s)) = None) as Hfresh
    by apply not_elem_of_dom, is_fresh.
  destruct (tablePut_fold (λ pkg, ToLower (Packages.Name pkg))
              (λ pkg, BuildMetadata d (Packages.Name pkg) newMetadata)
              (fresh (dom (tables s))) pkgs
              {| objs := objs s; maps := maps s;
                 tables := <[fresh (dom (tables s)) := ∅]> (tables s) |})
    as (Hat & Hobjs & Hmaps & Hothers).
  cbv beta in Hat, Hobjs, Hmaps, Hothers.
  cbn [tableAt tables] in Hat. rewrite lookup_insert_eq in Hat.
  cbn [default from_option id] in Hat. cbn [objs] in Hobjs. cbn [maps] in Hmaps.
  split_and!; [done| |done|done|..].
  - exists (fresh (dom (tables s))). split_and!; [done..|].
    intros r Hr. rewrite Hothers by done. cbn [tables].
    by rewrite lookup_insert_ne.
  - intros key metadata. cbn [tableAt]. rewrite Hat.
    intros [Hempty|(pkg & Hin & Hk & Hv)]%fold_keyed_origin;
      [by rewrite lookup_empty in Hempty|eauto].
  - intros pkg Hin. cbn [tableAt]. rewrite Hat.
    by apply (fold_keyed_present (λ pkg, ToLower (Packages.Name pkg))).
  - intros front pkg back -> Hback. cbn [tableAt]. rewrite Hat.
    by apply (fold_keyed_last (λ pkg, ToLower (Packages.Name pkg))
                (λ pkg, BuildMetadata d (Packages.Name pkg) newMetadata)).
Qed.

(** The loop that builds the modules: one module per record, each with a
    dependency map of its own. *)
Lemma buildModules_fold (d : MetadataDecoder) (isRoot : bool) (metaList : list Metadata)
    (metadatamap : gmap string Metadata) (asyncmodules : list models.Module) (s : Store) :
  ∃ metadatamap' new refs s',
    fold_left
      (λ (acc : gmap string Metadata * list models.Module * Store) (metadata : Metadata),
         let '(metadatamap, asyncmodules, s) := acc in
         let '(mod_, s) := BuildModule d isRoot metadata s in
         (<[ToLower (models.Name mod_) := metadata]> metadatamap, asyncmodules ++ [mod_], s))
      metaList (metadatamap, asyncmodules, s) = (metadatamap', asyncmodules ++ new, s')
    ∧ map models.Name new = map Name metaList
    ∧ Forall (λ m, models.Root m = isRoot) new
    ∧ map models.Modules new = map Some refs
    ∧ NoDup refs
    ∧ (∀ r, r ∈ refs → maps s !! r = None ∧ maps s' !! r = Some ∅)
    ∧ maps s ⊆ maps s'
    ∧ objs s' = objs s ∧ tables s' = tables s.
Proof.
  revert metadatamap asyncmodules s.
  induction metaList as [|metadata metaList IH]; intros metadatamap asyncmodules s.
  - exists metadatamap, [], [], s. rewrite app_nil_r.
    split_and!; try done; try (by constructor). by intros r Hr%elem_of_nil.
  - cbn [fold_left].
    destruct (BuildModule_fields d isRoot metadata s) as (Hname & Hroot & Hmap & Hstore).
    destruct (BuildModule d isRoot metadata s) as [m0 s0]. cbn [fst snd] in *. subst s0.
    destruct (IH (<[ToLower (models.Name m0) := metadata]> metadatamap)
                (asyncmodules ++ [m0]) (makeMap s).2)
      as (metadatamap' & new & refs & s' & Hfold & Hnames & Hroots & Hmaps & Hnodup
          & Hrefs & Hsub & Hobjs & Htabs).
    assert (maps s !! fresh (dom (maps s)) = None) as Hfresh
      by apply not_elem_of_dom, is_fresh.
    assert (maps (makeMap s).2 = <[fresh (dom (maps s)) := ∅]> (maps s)) as Hmade
      by reflexivity.
    exists metadatamap', (m0 :: new), (fresh (dom (maps s)) :: refs), s'.
    split_and!.
    + rewrite Hfold. by rewrite <- app_assoc.
    + cbn [map]. by rewrite Hname, Hnames.
    + by constructor.
    + cbn [map]. by rewrite Hmap, Hmaps.
    + constructor; [|done]. intros Hin. apply Hrefs in Hin as [Hnone _].
      rewrite Hmade, lookup_insert_eq in Hnone. discriminate.
    + intros r [->|Hin]%elem_of_cons.
      * split; [done|]. eapply lookup_weaken; [|exact Hsub].
        rewrite Hmade. apply lookup_insert_eq.
      * apply Hrefs in Hin as [Hnone Hsome]. split; [|done].
        rewrite Hmade in Hnone. by apply lookup_insert_None in Hnone as [? _].
    + etrans; [|exact Hsub]. rewrite Hmade. by apply insert_subseteq.
    + by rewrite Hobjs.
    + by rewrite Htabs.
Qed.

(** The projector, step by step: the table and the records of the fetch
    orchestrator, then one module per record. *)
Lemma ConvertMetadataToModules_shape
    (d : MetadataDecoder) (isRoot : bool) (pkgs : list Packages.t)
    (modules : list models.Module) (s : Store) :
  ∃ t new refs s',
    ConvertMetadataToModules d isRoot pkgs modules s = ((Some t, modules ++ new), s')
    ∧ map models.Name new =
        map (λ pkg, Name (BuildMetadata d (Packages.Name pkg) newMetadata)) pkgs
    ∧ Forall (λ m, models.Root m = isRoot) new
    ∧ map models.Modules new = map Some refs
    ∧ NoDup refs
    ∧ (∀ r, r ∈ refs → maps s !! r = None ∧ maps s' !! r = Some ∅)
    ∧ maps s ⊆ maps s'
    ∧ objs s' = objs s
    ∧ (GetMetadataList d pkgs s).1.1 = Some t
    ∧ tables s !! t = None ∧ is_Some (tables s' !! t)
    ∧ (∀ r, r ≠ t → tables s' !! r = tables s !! r)
    ∧ tableAt s' (Some t) =
        fold_left
          (λ table pkg, <[ToLower (Packages.Name pkg) :=
                            BuildMetadata d (Packages.Name pkg) newMetadata]> table)
          pkgs ∅.
Proof.
  unfold ConvertMetadataToModules. rewrite GetMetadataList_eq. cbn [makeTable fst snd].
  set (t := fresh (dom (tables s))).
  set (s0 := {| objs := objs s; maps := maps s; tables := <[t := ∅]> (tables s) |}).
  destruct (tablePut_fold (λ pkg, ToLower (Packages.Name pkg))
              (λ pkg, BuildMetadata d (Packages.Name pkg) newMetadata) t pkgs s0)
    as (Hat & Hobjs1 & Hmaps1 & Hothers).
  pose proof (tablePut_fold_keeps (λ pkg, ToLower (Packages.Name pkg))
                (λ pkg, BuildMetadata d (Packages.Name pkg) newMetadata) t pkgs s0 t)
    as Hkeeps1.
  cbv beta in Hat, Hobjs1, Hmaps1, Hothers, Hkeeps1.
  set (s1 := fold_left _ pkgs s0) in *.
  destruct (buildModules_fold d isRoot
              (map (λ pkg, BuildMetadata d (Packages.Name pkg) newMetadata) pkgs) ∅ [] s1)
    as (metadatamap & new & refs & s2 & Hfold & Hnames & Hroots & Hmaps & Hnodup
        & Hrefs & Hsub & Hobjs & Htabs).
  rewrite Hfold. cbn [app].
  set (license := λ mod_ : models.Module,
         match metadatamap !! ToLower (models.Name mod_) with
         | Some metadata => BuildModuleLicense d (DistInfoPath metadata) mod_
         | None => mod_
         end).
  assert (∀ m, models.Name (license m) = models.Name m
               ∧ models.Root (license m) = models.Root m
               ∧ models.Modules (license m) = models.Modules m) as Hkeeps.
  { intros m. unfold license. destruct (metadatamap !! _); [|done].
    apply BuildModuleLicense_keeps. }
  assert (∀ {X} (f : models.Module → X),
            (∀ m, f (license m) = f m) → map f (map license new) = map f new) as Hmap.
  { intros X f Hf. clear -Hf. induction new as [|m new IH]; [done|].
    cbn [map]. by rewrite Hf, IH. }
  assert (tables s !! t = None) as Hfresh by apply not_elem_of_dom, is_fresh.
  exists t, (map license new), refs, s2. split_and!.
  - done.
  - rewrite Hmap by apply Hkeeps. rewrite Hnames. by rewrite map_map.
  - apply Forall_forall. intros m (m' & -> & Hin)%list_elem_of_fmap.
    destruct (Hkeeps m') as (_ & -> & _).
    by eapply (proj1 (Forall_forall _ _) Hroots).
  - rewrite Hmap by apply Hkeeps. done.
  - done.
  - intros r Hr. apply Hrefs in Hr as [Hnone Hsome]. split; [|done].
    by rewrite Hmaps1 in Hnone.
  - by rewrite Hmaps1 in Hsub.
  - by rewrite Hobjs, Hobjs1.
  - done.
  - done.
  - rewrite Htabs. apply Hkeeps1. subst s0. cbn [tables]. rewrite lookup_insert_eq. eauto.
  - intros r Hr. rewrite Htabs, Hothers by done. subst s0. cbn [tables].
    by rewrite lookup_insert_ne.
  - change (tableAt s2 (Some t)) with (default ∅ (tables s2 !! t)). rewrite Htabs.
    change (default ∅ (tables s1 !! t)) with (tableAt s1 (Some t)). rewrite Hat.
    subst s0. cbn [tableAt tables]. by rewrite lookup_insert_eq.
Qed.


(** The loop that builds the modules, seen from the records: the lookup by
    lower-cased name that it fills and the module of every record. *)
Lemma buildModules_bases (d : MetadataDecoder) (isRoot : bool) (metaList : list Metadata)
    (metadatamap : gmap string Metadata) (asyncmodules : list models.Module) (s : Store) :
  ∃ bases s',
    fold_left
      (λ (acc : gmap string Metadata * list models.Module * Store) (metadata : Metadata),
         let '(metadatamap, asyncmodules, s) := acc in
         let '(mod_, s) := BuildModule d isRoot metadata s in
         (<[ToLower (models.Name mod_) := metadata]> metadatamap, asyncmodules ++ [mod_], s))
      metaList (metadatamap, asyncmodules, s) =
    (fold_left (λ table metadata, <[ToLower (Name metadata) := metadata]> table)
       metaList metadatamap,
     asyncmodules ++ bases, s')
    ∧ Forall2 (λ metadata base, ∃ si, base = (BuildModule d isRoot metadata si).1)
        metaList bases.
Proof.
  revert metadatamap asyncmodules s.
  induction metaList as [|metadata metaList IH]; intros metadatamap asyncmodules s.
  - exists [], s. rewrite app_nil_r. split; [done|constructor].
  - cbn [fold_left].
    destruct (BuildModule_fields d isRoot metadata s) as (Hname & _).
    destruct (BuildModule d isRoot metadata s) as [m0 s0] eqn:Hbuild. cbn [fst] in Hname.
    destruct (IH (<[ToLower (models.Name m0) := metadata]> metadatamap)
                (asyncmodules ++ [m0]) s0) as (bases & s' & Hfold & Hbases).
    exists (m0 :: bases), s'. split.
    + rewrite Hfold, Hname. by rewrite <- app_assoc.
    + constructor; [|done]. exists s. by rewrite Hbuild.
Qed.

Lemma NoDup_map_eq {A B} (f : A → B) (l : list A) (x y : A) :
  NoDup (map f l) → x ∈ l → y ∈ l → f x = f y → x = y.
Proof.
  induction l as [|a l IH]; intros Hnodup Hx Hy Hf; [by apply elem_of_nil in Hx|].
  cbn [map] in Hnodup. apply NoDup_cons in Hnodup as [Hnotin Hnodup].
  apply elem_of_cons in Hx as [->|Hx]; apply elem_of_cons in Hy as [->|Hy].
  - done.
  - destruct Hnotin. rewrite Hf. by apply (list_elem_of_fmap_2 f).
  - destruct Hnotin. rewrite <- Hf. by apply (list_elem_of_fmap_2 f).
  - by apply IH.
Qed.

(** X17.  The module that the projector appends for a package is what
    [BuildModule] makes of the package's record, with the licence fields
    that [BuildModuleLicense] reads under the dist-info path of the record
    found for the module's lower-cased name.  The lookup never misses; what
    it finds is the record of the last package of the list whose record has
    the same lower-cased name, so that of several such packages the licence
    of the last is read for all of them; it is the package's own record when
    the lower-cased names of the records differ from one another. *)
Theorem ConvertMetadataToModules_licences
    (d : MetadataDecoder) (isRoot : bool) (pkgs : list Packages.t)
    (modules output : list models.Module) (metainfo : option mapref) (s s' : Store) :
  ConvertMetadataToModules d isRoot pkgs modules s = ((metainfo, output), s') →
  ∃ new,
    output = modules ++ new
    ∧ Forall2
        (λ pkg mod_,
           ∃ si front pkg' back,
             pkgs = front ++ pkg' :: back
             ∧ ToLower (Name (BuildMetadata d (Packages.Name pkg') newMetadata)) =
                 ToLower (Name (BuildMetadata d (Packages.Name pkg) newMetadata))
             ∧ (∀ later, later ∈ back →
                  ToLower (Name (BuildMetadata d (Packages.Name later) newMetadata)) ≠
                    ToLower (Name (BuildMetadata d (Packages.Name pkg) newMetadata)))
             ∧ mod_ =
                 BuildModuleLicense d
                   (DistInfoPath (BuildMetadata d (Packages.Name pkg') newMetadata))
                   (BuildModule d isRoot
                      (BuildMetadata d (Packages.Name pkg) newMetadata) si).1)
        pkgs new
    ∧ (NoDup (map (λ pkg, ToLower (Name (BuildMetadata d (Packages.Name pkg) newMetadata)))
                pkgs) →
       Forall2
         (λ pkg mod_,
            ∃ si,
              mod_ =
                BuildModuleLicense d
                  (DistInfoPath (BuildMetadata d (Packages.Name pkg) newMetadata))
                  (BuildModule d isRoot
                     (BuildMetadata d (Packages.Name pkg) newMetadata) si).1)
         pkgs new).
Proof.
  unfold ConvertMetadataToModules. rewrite GetMetadataList_eq.
  set (record := λ pkg, BuildMetadata d (Packages.Name pkg) newMetadata).
  set (s1 := fold_left _ pkgs _).
  destruct (buildModules_bases d isRoot (map record pkgs) ∅ [] s1)
    as (bases & s2 & Hfold & Hbases).
  rewrite Hfold. cbn [app]. rewrite fold_left_map_l.
  set (metadatamap :=
         fold_left (λ table pkg, <[ToLower (Name (record pkg)) := record pkg]> table)
           pkgs ∅).
  set (license := λ mod_ : models.Module,
         match metadatamap !! ToLower (models.Name mod_) with
         | Some metadata => BuildModuleLicense d (DistInfoPath metadata) mod_
         | None => mod_
         end).
  intros [= <- <- <-]. exists (map license bases). split; [done|].
  assert (Forall2
            (λ pkg mod_,
               pkg ∈ pkgs
               ∧ ∃ si front pkg' back,
                   pkgs = front ++ pkg' :: back
                   ∧ ToLower (Name (record pkg')) = ToLower (Name (record pkg))
                   ∧ (∀ later, later ∈ back →
                        ToLower (Name (record later)) ≠ ToLower (Name (record pkg)))
                   ∧ mod_ = BuildModuleLicense d (DistInfoPath (record pkg'))
                              (BuildModule d isRoot (record pkg) si).1)
            pkgs (map license bases)) as Hall.
  { apply Forall2_same_length_lookup. split.
    - apply Forall2_length in Hbases. by rewrite !length_map in *.
    - intros i pkg mod_ Hpkg Hmod.
      apply list_lookup_fmap_Some in Hmod as (base & -> & Hbase).
      destruct (Forall2_lookup_r _ _ _ i base Hbases Hbase) as (metadata & Hmeta & si & ->).
      apply list_lookup_fmap_Some in Hmeta as (pkg0 & -> & Hpkg0).
      assert (pkg0 = pkg) as -> by congruence.
      assert (pkg ∈ pkgs) as Hin by (by eapply list_elem_of_lookup_2).
      split; [done|].
      destruct (BuildModule_fields d isRoot (record pkg) si) as (Hname & _).
      unfold license. rewrite Hname.
      destruct (fold_keyed_final (λ pkg, ToLower (Name (record pkg))) record pkgs ∅ pkg Hin)
        as (front & pkg' & back & Hsplit & Hkey & Hback & Hfound).
      fold metadatamap in Hfound. cbv beta in Hfound. rewrite Hfound.
      by exists si, front, pkg', back. }
  split.
  - eapply Forall2_impl; [exact Hall|]. intros pkg mod_ [_ Hmod]. exact Hmod.
  - intros Hnodup. eapply Forall2_impl; [exact Hall|].
    intros pkg mod_ (Hpkg & si & front & pkg' & back & Hsplit & Hkey & _ & ->).
    exists si.
    rewrite (NoDup_map_eq (λ pkg, ToLower (Name (record pkg))) pkgs pkg' pkg); try done.
    rewrite Hsplit. apply elem_of_app. right. by left.
Qed.

End ProjectorFacts.

(** ** The plugin *)

Section MorePluginFacts.
Context `{!Collaborators}.

(** The packages that [fetchRootModule] hands to the projector. *)
Lemma fetchRootModule_Ok (h : Host) (m : pipenv) (path : string) (s : Store)
    (first : models.Module) (err : error) (m1 : pipenv) (s1 : Store) :
  fetchRootModule h m path s = Ok ((first, err), m1, s1) →
  err = None
  ∧ IsValidRootModule h path = true ∧ PushRootModuleToVenv h m = true
  ∧ (rootModuleOutput h m).2 = None ∧ (rootModuleOutput h m).1 ≠ ""
  ∧ IsRequirementMeet h true (rootModuleOutput h m).1 = true
  ∧ ∃ rootPkg others r t,
      LoadModules h (rootModuleOutput h m).1 = rootPkg :: others
      ∧ m1 = setMetainfo m (Some t)
      ∧ models.Name first =
          Name (BuildMetadata (NewMetadataDecoder (GetPackageDetails h m))
                  (Packages.Name rootPkg) newMetadata)
      ∧ models.Root first = true
      ∧ models.Modules first = Some r
      ∧ maps s !! r = None ∧ maps s1 !! r = Some ∅
      ∧ maps s ⊆ maps s1 ∧ objs s1 = objs s
      ∧ tables s !! t = None ∧ is_Some (tables s1 !! t)
      ∧ (∀ r', r' ≠ t → tables s1 !! r' = tables s !! r')
      ∧ tableAt s1 (Some t) =
          fold_left
            (λ table pkg,
               <[ToLower (Packages.Name pkg) :=
                   BuildMetadata (NewMetadataDecoder (GetPackageDetails h m))
                     (Packages.Name pkg) newMetadata]> table)
            (rootPkg :: others) ∅.
Proof.
  unfold fetchRootModule.
  destruct (IsValidRootModule h path); [|discriminate].
  destruct (PushRootModuleToVenv h m); [|discriminate].
  destruct (rootModuleOutput h m) as [output outErr]. cbn [fst snd].
  set (rootPkgs := if bool_decide (outErr = None) && (0 <? String.length output)
                      && IsRequirementMeet h true output
                   then LoadModules h output else []).
  destruct (ConvertMetadataToModules_shape (NewMetadataDecoder (GetPackageDetails h m))
              true rootPkgs [] s)
    as (t & new & refs & s2 & Hrun & Hnames & Hroots & Hmaps & Hnodup & Hrefs & Hsub
        & Hobjs & _ & Hfresh & Hsome & Hothers & Htable).
  rewrite Hrun. cbn [app].
  destruct new as [|first' new]; [discriminate|]. intros [= <- <- <- <-].
  destruct rootPkgs as [|rootPkg others] eqn:Hpkgs; [discriminate|].
  subst rootPkgs.
  destruct (bool_decide (outErr = None)) eqn:Herr; [|discriminate].
  destruct (0 <? String.length output) eqn:Hlen; [|discriminate].
  destruct (IsRequirementMeet h true output); [|discriminate]. cbn [andb] in Hpkgs.
  apply bool_decide_eq_true in Herr.
  destruct refs as [|r refs]; [discriminate|].
  cbn [map] in Hnames, Hmaps. injection Hnames as Hname _. injection Hmaps as Hmap _.
  inversion Hroots as [|?? Hroot _]; subst.
  destruct (Hrefs r) as [Hnone Hempty]; [by left|].
  split_and!; try done.
  - intros ->. discriminate.
  - exists rootPkg, others, r, t. by split_and!.
Qed.

(** The converse: when the root package can be read, the call returns. *)
Lemma fetchRootModule_run (h : Host) (m : pipenv) (path : string) (s : Store) :
  IsValidRootModule h path = true → PushRootModuleToVenv h m = true →
  (rootModuleOutput h m).2 = None → (rootModuleOutput h m).1 ≠ "" →
  IsRequirementMeet h true (rootModuleOutput h m).1 = true →
  LoadModules h (rootModuleOutput h m).1 ≠ [] →
  ∃ first m1 s1, fetchRootModule h m path s = Ok ((first, None), m1, s1).
Proof.
  intros Hvalid Hpush Herr Hout Hmeet Hload. unfold fetchRootModule.
  rewrite Hvalid, Hpush.
  destruct (rootModuleOutput h m) as [output outErr]. cbn [fst snd] in *. subst outErr.
  rewrite bool_decide_eq_true_2 by done. rewrite Hmeet.
  assert ((0 <? String.length output) = true) as ->.
  { destruct output; [done|reflexivity]. }
  cbn [andb].
  destruct (ConvertMetadataToModules_shape (NewMetadataDecoder (GetPackageDetails h m))
              true (LoadModules h output) [] s)
    as (t & new & refs & s2 & Hrun & Hnames & _).
  rewrite Hrun. cbn [app].
  destruct new as [|first new].
  - destruct (LoadModules h output); [done|discriminate].
  - by exists first, (setMetainfo m (Some t)), s2.
Qed.

(** The merge of the plugin: the range is over the table as it is. *)
Lemma MergeMetadataMap_run (root : option mapref) (n : mapref) (s : Store) :
  ∃ s', MergeMetadataMap root (Some n) s = Ok (Some n, s')
        ∧ tableAt s' (Some n) = tableAt s root ∪ tableAt s (Some n)
        ∧ (∀ r, r ≠ n → tables s' !! r = tables s !! r)
        ∧ objs s' = objs s ∧ maps s' = maps s.
Proof.
  destruct (MergeMetadataMapIn_table (map_to_list (tableAt s root)) root n s)
    as (s' & Hrun & Hat & Hothers); [done|].
  destruct (tableAssign_run (map_to_list (tableAt s root)) n s)
    as (s'' & Hrun' & _ & _ & Hobjs & Hmaps).
  exists s'. unfold MergeMetadataMap. split_and!; try done.
  - unfold MergeMetadataMapIn in Hrun. rewrite Hrun' in Hrun. cbn in Hrun. congruence.
  - unfold MergeMetadataMapIn in Hrun. rewrite Hrun' in Hrun. cbn in Hrun. congruence.
Qed.

(** How [GetRootModule] returns: from the cache, or with a new address for
    the module that [fetchRootModule] returned. *)
Lemma GetRootModule_Ok (h : Host) (m : pipenv) (path : string) (s : Store)
    (p : option ptr) (err : error) (m1 : pipenv) (s1 : Store) :
  GetRootModule h m path s = Ok ((p, err), m1, s1) →
  err = None
  ∧ ∃ q, p = Some q ∧ rootModule m1 = Some q
    ∧ ((rootModule m = Some q ∧ m1 = m ∧ s1 = s)
       ∨ (rootModule m = None
          ∧ ∃ first m0 s0,
              fetchRootModule h m path s = Ok ((first, None), m0, s0)
              ∧ m1 = setRootModule m0 (Some q)
              ∧ objs s0 !! q = None
              ∧ objs s1 = <[q := first]> (objs s0)
              ∧ maps s1 = maps s0 ∧ tables s1 = tables s0)).
Proof.
  unfold GetRootModule. destruct (rootModule m) as [q|] eqn:Hroot.
  - intros [= <- <- <- <-]. split; [done|]. exists q. split_and!; [done..|]. by left.
  - destruct (fetchRootModule h m path s) as [[[[first ferr] m0] s0]|] eqn:Hfetch;
      [|discriminate].
    pose proof (fetchRootModule_Ok _ _ _ _ _ _ _ _ Hfetch) as [-> _].
    cbn. intros [= <- <- <- <-]. split; [done|].
    exists (fresh (dom (objs s0))). split_and!; [done..|]. right. split; [done|].
    exists first, m0, s0. split_and!; try done.
    apply not_elem_of_dom, is_fresh.
Qed.

(** [ListUsedModules] from the point at which the root module is known. *)
Lemma ListUsedModules_after (h : Host) (m : pipenv) (path : string) (s : Store)
    (q : ptr) (m1 : pipenv) (s1 : Store) (root : models.Module) :
  GetRootModule h m path s = Ok ((Some q, None), m1, s1) →
  objs s1 !! q = Some root →
  (∀ t, metainfo m1 = Some t → is_Some (tables s1 !! t)) →
  ∃ new refs t s',
    ListUsedModules h m path s = Ok ((root :: new, None), setMetainfo m1 (Some t), s')
    ∧ map models.Name new =
        map (λ pkg, Name (BuildMetadata (NewMetadataDecoder (GetPackageDetails h m1))
                            (Packages.Name pkg) newMetadata)) (pkgs m1)
    ∧ Forall (λ mod_, models.Root mod_ = false) new
    ∧ map models.Modules new = map Some refs
    ∧ (∀ r, r ∈ refs → maps s1 !! r = None ∧ maps s' !! r = Some ∅)
    ∧ maps s1 ⊆ maps s'
    ∧ objs s' = objs s1
    ∧ tables s1 !! t = None
    ∧ (∀ r, r ≠ t → tables s' !! r = tables s1 !! r)
    ∧ tableAt s' (Some t) =
        tableAt s1 (metainfo m1)
        ∪ fold_left
            (λ table pkg,
               <[ToLower (Packages.Name pkg) :=
                   BuildMetadata (NewMetadataDecoder (GetPackageDetails h m1))
                     (Packages.Name pkg) newMetadata]> table)
            (pkgs m1) ∅.
Proof.
  intros Hroot Hq Hmeta. unfold ListUsedModules. rewrite Hroot.
  cbn [mbind result_bind]. unfold deref. cbn [mbind option_bind]. rewrite Hq.
  cbn [mbind result_bind].
  destruct (ConvertMetadataToModules_shape (NewMetadataDecoder (GetPackageDetails h m1))
              false (pkgs m1) [root] s1)
    as (t & new & refs & s2 & Hrun & Hnames & Hroots & Hmaps & Hnodup & Hrefs & Hsub
        & Hobjs & _ & Hfresh & Hsome & Hothers & Htable).
  rewrite Hrun.
  destruct (MergeMetadataMap_run (metainfo m1) t s2)
    as (s3 & Hmerge & Hat & Hothers3 & Hobjs3 & Hmaps3).
  rewrite Hmerge. cbn [mbind result_bind app].
  exists new, refs, t, s3. split_and!; try done.
  - intros r Hr. destruct (Hrefs r Hr) as [Hnone Hempty]. by rewrite Hmaps3.
  - by rewrite Hmaps3.
  - by rewrite Hobjs3.
  - intros r Hr. by rewrite Hothers3, Hothers.
  - rewrite Hat, Htable. f_equal.
    destruct (metainfo m1) as [t1|] eqn:Ht1; [|done]. simpl.
    rewrite Hothers; [done|]. intros ->.
    destruct (Hmeta t eq_refl) as [table Ht]. by rewrite Hfresh in Ht.
Qed.

(** [ListUsedModules] has no error to return. *)
Lemma ListUsedModules_Ok (h : Host) (m : pipenv) (path : string) (s : Store)
    (modules : list models.Module) (err : error) (m' : pipenv) (s' : Store) :
  ListUsedModules h m path s = Ok ((modules, err), m', s') →
  err = None
  ∧ ∃ q m1 s1 root,
      GetRootModule h m path s = Ok ((Some q, None), m1, s1)
      ∧ objs s1 !! q = Some root.
Proof.
  unfold ListUsedModules.
  destruct (GetRootModule h m path s) as [[[[p gerr] m1] s1]|] eqn:Hroot; [|discriminate].
  destruct (GetRootModule_Ok _ _ _ _ _ _ _ _ Hroot) as (-> & q & -> & _).
  cbn [mbind result_bind]. unfold deref. cbn [mbind option_bind].
  destruct (objs s1 !! q) as [root|] eqn:Hq; [|discriminate].
  cbn [mbind result_bind].
  destruct (ConvertMetadataToModules _ _ _ _ _) as [[nonroot mods] s2].
  destruct (MergeMetadataMap _ _ _) as [[merged s3]|]; [|discriminate].
  cbn [mbind result_bind]. intros [= <- <- <- <-]. split; [done|].
  by exists q, m1, s1, root.
Qed.

(** X18.  [fetchRootModule] returns exactly when the path is a valid root
    module, the root module could be pushed to the environment, and the
    listing command gave, without error, a non-empty output that meets the
    requirement and holds at least one package; in every other case it
    panics on [modules[0]].  When it returns, the error is nil, the module is
    that of the first package of the listing, it is flagged as root and has
    a new, empty dependency map, the plugin's table is a new table with an
    entry for every package of the listing, and no struct behind a pointer
    has changed. *)
Theorem fetchRootModule_returns (h : Host) (m : pipenv) (path : string) (s : Store) :
  ((∃ out, fetchRootModule h m path s = Ok out) ↔
     IsValidRootModule h path = true ∧ PushRootModuleToVenv h m = true
     ∧ (rootModuleOutput h m).2 = None ∧ (rootModuleOutput h m).1 ≠ ""
     ∧ IsRequirementMeet h true (rootModuleOutput h m).1 = true
     ∧ LoadModules h (rootModuleOutput h m).1 ≠ [])
  ∧ (∀ p, fetchRootModule h m path s = Panic p → p = IndexOutOfRange)
  ∧ (∀ first err m1 s1,
       fetchRootModule h m path s = Ok ((first, err), m1, s1) →
       err = None
       ∧ models.Root first = true
       ∧ (∃ rootPkg,
            head (LoadModules h (rootModuleOutput h m).1) = Some rootPkg
            ∧ models.Name first =
                Name (BuildMetadata (NewMetadataDecoder (GetPackageDetails h m))
                        (Packages.Name rootPkg) newMetadata))
       ∧ (∃ r, models.Modules first = Some r ∧ maps s !! r = None ∧ maps s1 !! r = Some ∅)
       ∧ (∃ t, m1 = setMetainfo m (Some t) ∧ tables s !! t = None
               ∧ ∀ pkg, pkg ∈ LoadModules h (rootModuleOutput h m).1 →
                   is_Some (tableAt s1 (Some t) !! ToLower (Packages.Name pkg)))
       ∧ objs s1 = objs s).
Proof.
  split_and!.
  - split.
    + intros [[[[first err] m1] s1] Hrun].
      destruct (fetchRootModule_Ok _ _ _ _ _ _ _ _ Hrun)
        as (_ & Hvalid & Hpush & Herr & Hout & Hmeet & rootPkg & others & r & t & Hload & _).
      split_and!; try done. by rewrite Hload.
    + intros (Hvalid & Hpush & Herr & Hout & Hmeet & Hload).
      destruct (fetchRootModule_run h m path s) as (first & m1 & s1 & Hrun); try done.
      by eexists.
  - intros p. unfold fetchRootModule.
    destruct (IsValidRootModule h path); [|by intros [= <-]].
    destruct (PushRootModuleToVenv h m); [|by intros [= <-]].
    destruct (rootModuleOutput h m) as [output outErr].
    destruct (ConvertMetadataToModules _ _ _ _ _) as [[table [|first rest]] s2];
      [|discriminate].
    by intros [= <-].
  - intros first err m1 s1 Hrun.
    destruct (fetchRootModule_Ok _ _ _ _ _ _ _ _ Hrun)
      as (-> & _ & _ & _ & _ & _ & rootPkg & others & r & t & Hload & -> & Hname & Hroot
          & Hmap & Hnone & Hempty & _ & Hobjs & Hfresh & _ & _ & Htable).
    split_and!; try done.
    + exists rootPkg. by rewrite Hload.
    + by exists r.
    + exists t. split_and!; try done. intros pkg Hpkg. rewrite Htable, <- Hload.
      apply (fold_keyed_present (λ pkg, ToLower (Packages.Name pkg))
               (λ pkg, BuildMetadata (NewMetadataDecoder (GetPackageDetails h m))
                         (Packages.Name pkg) newMetadata)), Hpkg.
Qed.

(** X19.  [GetRootModule] never returns an error nor a nil pointer.  On a
    plugin without root module it stores the module that [fetchRootModule]
    has returned, which is flagged as root, behind a new address and keeps
    that address, in the plugin and store that [fetchRootModule] has left;
    on a plugin that has one it returns the address it has and touches
    nothing.  So every call after one that returned gives the same address
    and leaves plugin and store as they are, whatever the path and whatever
    the commands would answer by then. *)
Theorem GetRootModule_caches (h : Host) (m : pipenv) (path : string) (s : Store)
    (p : option ptr) (err : error) (m1 : pipenv) (s1 : Store) :
  GetRootModule h m path s = Ok ((p, err), m1, s1) →
  err = None
  ∧ ∃ q, p = Some q ∧ rootModule m1 = Some q
    ∧ (rootModule m = None →
         objs s !! q = None
         ∧ ∃ first, models.Root first = true ∧ objs s1 = <[q := first]> (objs s)
             ∧ objs s1 !! q = Some first
             ∧ ∃ m0 s0,
                 fetchRootModule h m path s = Ok ((first, None), m0, s0)
                 ∧ m1 = setRootModule m0 (Some q)
                 ∧ maps s1 = maps s0 ∧ tables s1 = tables s0)
    ∧ (rootModule m ≠ None → m1 = m ∧ s1 = s)
    ∧ (∀ h' path', GetRootModule h' m1 path' s1 = Ok ((Some q, None), m1, s1)).
Proof.
  intros Hrun.
  destruct (GetRootModule_Ok _ _ _ _ _ _ _ _ Hrun) as (-> & q & -> & Hq & Hcase).
  split; [done|]. exists q. split_and!; try done.
  - intros Hnone.
    destruct Hcase
      as [[Hsome _]|(_ & first & m0 & s0 & Hfetch & Hplugin & Hfresh & Hobjs & Hmaps & Htabs)];
      [congruence|].
    destruct (fetchRootModule_Ok _ _ _ _ _ _ _ _ Hfetch)
      as (_ & _ & _ & _ & _ & _ & rootPkg & others & r & t & _ & _ & _ & Hroot
          & _ & _ & _ & _ & Hobjs0 & _).
    rewrite Hobjs0 in Hfresh. split; [done|]. exists first. split_and!.
    + done.
    + by rewrite Hobjs, Hobjs0.
    + rewrite Hobjs. apply lookup_insert_eq.
    + by exists m0, s0.
  - intros Hsome. destruct Hcase as [(_ & -> & ->)|[Hnone _]]; [done|congruence].
  - intros h' path'. unfold GetRootModule. by rewrite Hq.
Qed.

(** X20.  [ListUsedModules], on a plugin whose root pointer and table, when
    it has them, are in the store: it never returns an error; it returns
    exactly when the plugin has a root module or [fetchRootModule] returns
    one; and what it returns is the root module followed by one module for
    every package of [m.pkgs], in their order, none flagged as root and each
    with a new, empty dependency map.  The plugin then holds a new table:
    the table it had after [GetRootModule], whose records win, together with
    the records of the packages. *)
Theorem ListUsedModules_returns (h : Host) (m : pipenv) (path : string) (s : Store) :
  (∀ q, rootModule m = Some q → is_Some (objs s !! q)) →
  (∀ t, metainfo m = Some t → is_Some (tables s !! t)) →
  ((∃ out, ListUsedModules h m path s = Ok out) ↔
     rootModule m ≠ None ∨ ∃ out, fetchRootModule h m path s = Ok out)
  ∧ (∀ modules err m' s',
       ListUsedModules h m path s = Ok ((modules, err), m', s') →
       err = None
       ∧ ∃ q m1 s1 root new t,
           GetRootModule h m path s = Ok ((Some q, None), m1, s1)
           ∧ objs s1 !! q = Some root
           ∧ modules = root :: new
           ∧ map models.Name new =
               map (λ pkg, Name (BuildMetadata (NewMetadataDecoder (GetPackageDetails h m1))
                                   (Packages.Name pkg) newMetadata)) (pkgs m)
           ∧ Forall (λ mod_, models.Root mod_ = false
                             ∧ ∃ r, models.Modules mod_ = Some r
                                    ∧ maps s1 !! r = None ∧ maps s' !! r = Some ∅) new
           ∧ m' = setMetainfo m1 (Some t)
           ∧ tables s1 !! t = None
           ∧ objs s' = objs s1
           ∧ tableAt s' (Some t) =
               tableAt s1 (metainfo m1)
               ∪ fold_left
                   (λ table pkg,
                      <[ToLower (Packages.Name pkg) :=
                          BuildMetadata (NewMetadataDecoder (GetPackageDetails h m1))
                            (Packages.Name pkg) newMetadata]> table)
                   (pkgs m) ∅).
Proof.
  intros Hptr Htab.
  assert (∀ q m1 s1, GetRootModule h m path s = Ok ((Some q, None), m1, s1) →
            pkgs m1 = pkgs m
            ∧ is_Some (objs s1 !! q)
            ∧ ∀ t, metainfo m1 = Some t → is_Some (tables s1 !! t)) as Hwf.
  { intros q m1 s1 Hroot.
    destruct (GetRootModule_Ok _ _ _ _ _ _ _ _ Hroot) as (_ & q' & [= <-] & Hq & Hcase).
    destruct Hcase as [(Hsome & -> & ->)
                      |(_ & first & m0 & s0 & Hfetch & -> & Hfresh & Hobjs & _ & Htabs)].
    - split_and!; [done|by apply Hptr|done].
    - destruct (fetchRootModule_Ok _ _ _ _ _ _ _ _ Hfetch)
        as (_ & _ & _ & _ & _ & _ & rootPkg & others & r & t & _ & -> & _ & _
            & _ & _ & _ & _ & _ & _ & Hsome & _).
      split_and!; [done|by rewrite Hobjs, lookup_insert_eq|].
      intros t' [= <-]. by rewrite Htabs. }
  split.
  - split.
    + intros [[[[modules err] m'] s'] Hrun].
      destruct (ListUsedModules_Ok _ _ _ _ _ _ _ _ Hrun) as (_ & q & m1 & s1 & root & Hroot & _).
      destruct (GetRootModule_Ok _ _ _ _ _ _ _ _ Hroot) as (_ & q' & _ & _ & Hcase).
      destruct Hcase as [(Hsome & _)|(_ & first & m0 & s0 & Hfetch & _)].
      * left. by rewrite Hsome.
      * right. by eexists.
    + intros Hcase.
      assert (∃ q m1 s1, GetRootModule h m path s = Ok ((Some q, None), m1, s1))
        as (q & m1 & s1 & Hroot).
      { unfold GetRootModule. destruct (rootModule m) as [q|] eqn:Hq; [by eexists _, _, _|].
        destruct Hcase as [Hsome|[[[[first err] m0] s0] Hfetch]]; [done|].
        rewrite Hfetch.
        destruct (fetchRootModule_Ok _ _ _ _ _ _ _ _ Hfetch) as [-> _].
        cbn. by eexists _, _, _. }
      destruct (Hwf q m1 s1 Hroot) as (_ & [root Hq] & Hmeta).
      destruct (ListUsedModules_after h m path s q m1 s1 root Hroot Hq Hmeta)
        as (new & refs & t & s' & Hrun & _).
      by eexists.
  - intros modules err m' s' Hrun.
    destruct (ListUsedModules_Ok _ _ _ _ _ _ _ _ Hrun) as (-> & q & m1 & s1 & root & Hroot & Hq).
    destruct (Hwf q m1 s1 Hroot) as (Hpkgs & _ & Hmeta).
    destruct (ListUsedModules_after h m path s q m1 s1 root Hroot Hq Hmeta)
      as (new & refs & t & s3 & Hrun' & Hnames & Hroots & Hmaps & Hrefs & _ & Hobjs
          & Hfresh & _ & Htable).
    rewrite Hrun in Hrun'. injection Hrun' as -> -> ->.
    split; [done|]. exists q, m1, s1, root, new, t.
    rewrite Hpkgs in Hnames, Htable. split_and!; try done.
    clear Hrun Hnames. revert refs Hmaps Hrefs.
    induction Hroots as [|mod_ new Hflag _ IH]; intros refs Hmaps Hrefs; [constructor|].
    destruct refs as [|r refs]; [discriminate|]. injection Hmaps as Hmap Hmaps.
    constructor.
    + split; [done|]. exists r. split; [done|]. apply Hrefs. by left.
    + apply (IH refs); [done|]. intros r' Hr'. apply Hrefs. by right.
Qed.

(** A linking pass returns when every record that names a dependency has
    an owner with a dependency map. *)
Lemma BuildDependencyGraphIn_run
    (order : list Metadata) (modules : list models.Module) (s : Store) :
  (∀ pkgmeta, pkgmeta ∈ order →
     is_Some (models.Modules
                (lookupModule (moduleMapOf modules) (ToLower (Name pkgmeta))))) →
  ∃ s', BuildDependencyGraphIn order modules s = Ok (None, s').
Proof.
  intros Howners. rewrite BuildDependencyGraphIn_edges.
  destruct (foldResult writeEdge (edges (moduleMapOf modules) order) s) as [s'|p] eqn:Hrun.
  - by exists s'.
  - apply writeEdges_outcome in Hrun as [_ Hex].
    apply edges_nil_target, Exists_exists in Hex as (pkgmeta & Hin & _ & Hnil).
    destruct (Howners pkgmeta Hin) as [r Hr]. congruence.
Qed.

(** X21.  [ListModulesWithDeps] never returns an error nor a nil list: when
    it returns, the list is the one that [ListUsedModules] returned and the
    plugin is the one that call left; the linking pass over the plugin's
    table has only added to the store. *)
Theorem ListModulesWithDeps_returns (h : Host) (m : pipenv) (path : string) (s : Store)
    (mods : option (list models.Module)) (err : error) (m' : pipenv) (s' : Store) :
  ListModulesWithDeps h m path s = Ok ((mods, err), m', s') →
  err = None
  ∧ ∃ modules s0,
      mods = Some modules
      ∧ ListUsedModules h m path s = Ok ((modules, None), m', s0)
      ∧ BuildDependencyGraph modules (tableAt s0 (metainfo m')) s0 = Ok (None, s')
      ∧ tables s' = tables s0
      ∧ objs s0 ⊆ objs s'.
Proof.
  unfold ListModulesWithDeps.
  destruct (ListUsedModules h m path s) as [[[[modules uerr] m0] s0]|] eqn:Hused;
    [|discriminate].
  destruct (ListUsedModules_Ok _ _ _ _ _ _ _ _ Hused) as [-> _].
  cbn [mbind result_bind].
  destruct (BuildDependencyGraph modules (tableAt s0 (metainfo m0)) s0)
    as [[gerr s1]|] eqn:Hgraph; [|discriminate].
  pose proof Hgraph as Hgraph'. unfold BuildDependencyGraph in Hgraph'.
  apply BuildDependencyGraphIn_Ok in Hgraph' as [-> Hwrites].
  cbn [mbind result_bind]. intros [= <- <- <- <-]. split; [done|].
  exists modules, s0. apply writeEdges_frame in Hwrites as (Htabs & Hobjs & _).
  by split_and!.
Qed.

(** X22.  From the package listing to the linked modules.  On a plugin
    without root module, when the listing of the root gives exactly one
    package, [ListModulesWithDeps] returns: every record of the plugin's
    table then has an owner with a dependency map, because each module has
    the name of the record it was built from and a map of its own.  The
    struct behind the plugin's root pointer is the first module of the
    list, so it shares the dependency map that the linking pass filled. *)
Theorem ListModulesWithDeps_single_root
    (h : Host) (m : pipenv) (path : string) (s : Store) (rootPkg : Packages.t) :
  rootModule m = None →
  IsValidRootModule h path = true → PushRootModuleToVenv h m = true →
  (rootModuleOutput h m).2 = None → (rootModuleOutput h m).1 ≠ "" →
  IsRequirementMeet h true (rootModuleOutput h m).1 = true →
  LoadModules h (rootModuleOutput h m).1 = [rootPkg] →
  ∃ root new m' s' q,
    ListModulesWithDeps h m path s = Ok ((Some (root :: new), None), m', s')
    ∧ length new = length (pkgs m)
    ∧ models.Root root = true
    ∧ rootModule m' = Some q
    ∧ objs s' !! q = Some root.
Proof.
  intros Hnone Hvalid Hpush Herr Hout Hmeet Hload.
  destruct (fetchRootModule_run h m path s) as (first & m0 & s0 & Hfetch); try done.
  { by rewrite Hload. }
  destruct (fetchRootModule_Ok _ _ _ _ _ _ _ _ Hfetch)
    as (_ & _ & _ & _ & _ & _ & rootPkg' & others & r & t & Hload' & -> & Hname & Hflag
        & Hmap & _ & _ & _ & Hobjs0 & Hfresh0 & Hsome0 & _ & Htable0).
  rewrite Hload in Hload'. injection Hload' as <- <-.
  set (q := fresh (dom (objs s0))).
  set (m1 := setRootModule (setMetainfo m (Some t)) (Some q)).
  set (s1 := (alloc first s0).2).
  assert (GetRootModule h m path s = Ok ((Some q, None), m1, s1)) as Hroot.
  { unfold GetRootModule. by rewrite Hnone, Hfetch. }
  assert (objs s1 !! q = Some first) as Hq by apply lookup_insert_eq.
  destruct (ListUsedModules_after h m path s q m1 s1 first Hroot Hq)
    as (new & refs & t2 & s2 & Hused & Hnames & _ & Hmaps & _ & _ & Hobjs2 & _ & _ & Htable2).
  { intros t' [= <-]. exact Hsome0. }
  set (d1 := NewMetadataDecoder (GetPackageDetails h m1)) in *.
  set (d0 := NewMetadataDecoder (GetPackageDetails h m)) in *.
  destruct (BuildDependencyGraphIn_run
              (map_to_list (tableAt s2 (Some t2))).*2 (first :: new) s2) as [s3 Hgraph].
  { intros pkgmeta ([key pkgmeta'] & -> & Hin%elem_of_map_to_list)%list_elem_of_fmap.
    cbn [snd].
    assert (∃ owner, owner ∈ first :: new ∧ models.Name owner = Name pkgmeta')
      as (owner & Howner & Hsame).
    { rewrite Htable2 in Hin. apply lookup_union_Some_raw in Hin as [Hin|[_ Hin]].
      - exists first. split; [by left|]. rewrite Hname.
        change (tableAt s1 (metainfo m1)) with (tableAt s0 (Some t)) in Hin.
        rewrite Htable0 in Hin. cbn [fold_left] in Hin.
        apply lookup_insert_Some in Hin as [[_ <-]|[_ Hin]]; [done|].
        by rewrite lookup_empty in Hin.
      - apply (fold_keyed_origin (λ pkg, ToLower (Packages.Name pkg))
                 (λ pkg, BuildMetadata d1 (Packages.Name pkg) newMetadata)) in Hin
          as [Hin|(pkg & Hpkg & _ & <-)]; [by rewrite lookup_empty in Hin|].
        assert (Name (BuildMetadata d1 (Packages.Name pkg) newMetadata)
                ∈ map models.Name new) as Hnew.
        { rewrite Hnames.
          apply (list_elem_of_fmap_2
                   (λ pkg, Name (BuildMetadata d1 (Packages.Name pkg) newMetadata))), Hpkg. }
        apply list_elem_of_fmap in Hnew as (owner & Hsame & Howner).
        exists owner. split; [by right|done]. }
    destruct (fold_keyed_present (λ mod_, ToLower (models.Name mod_)) (λ mod_, mod_)
                (first :: new) ∅ owner Howner) as [found Hfound].
    fold (moduleMapOf (first :: new)) in Hfound. cbv beta in Hfound.
    unfold lookupModule. rewrite <- Hsame, Hfound. cbn [default from_option id].
    apply (fold_keyed_origin (λ mod_, ToLower (models.Name mod_)) (λ mod_, mod_)) in Hfound
      as [Hempty|(mod_ & Hmod & _ & <-)]; [by rewrite lookup_empty in Hempty|].
    apply elem_of_cons in Hmod as [->|Hmod]; [by rewrite Hmap|].
    assert (models.Modules mod_ ∈ map models.Modules new) as Hin'
      by (by apply (list_elem_of_fmap_2 models.Modules)).
    rewrite Hmaps in Hin'. apply list_elem_of_fmap in Hin' as (r' & -> & _). done. }
  pose proof Hgraph as Hwrites.
  apply BuildDependencyGraphIn_Ok in Hwrites as [_ Hwrites].
  apply writeEdges_frame in Hwrites as (_ & Hobjs3 & _).
  exists first, new, (setMetainfo m1 (Some t2)), s3, q. split_and!.
  - unfold ListModulesWithDeps. rewrite Hused. cbn [mbind result_bind].
    change (metainfo (setMetainfo m1 (Some t2))) with (Some t2).
    unfold BuildDependencyGraph. by rewrite Hgraph.
  - rewrite <- (length_map models.Name new), Hnames. by rewrite length_map.
  - done.
  - done.
  - eapply lookup_weaken; [|exact Hobjs3]. by rewrite Hobjs2.
Qed.

End MorePluginFacts.

(** *** On concrete input *)

Lemma moduleMapOf_lookup_witness :
  @moduleMapOf sampleCollaborators sampleModules !! @ToLower sampleCollaborators "b" =
    Some (moduleNamed "b" "2.0" (Some 2%positive)).
Proof.
  apply (proj2 (proj2 (@moduleMapOf_lookup sampleCollaborators sampleModules))
           [moduleNamed "a" "1.0" (Some 1%positive)]
           (moduleNamed "b" "2.0" (Some 2%positive))
           [moduleNamed "c" "3.0" (Some 3%positive)]); [reflexivity|].
  intros later ->%list_elem_of_singleton. vm_compute. discriminate.
Defined.

Lemma BuildDependencyGraphIn_outcome_witness :
  @BuildDependencyGraphIn sampleCollaborators [recordNamed "zzz" (Some ["a"])]
    sampleModules emptyStore = Panic NilMapAssignment.
Proof.
  apply (proj2 (@BuildDependencyGraphIn_outcome sampleCollaborators
                  [recordNamed "zzz" (Some ["a"])] sampleModules emptyStore)).
  split; [reflexivity|]. apply Exists_cons_hd.
  split; [discriminate|vm_compute; reflexivity].
Defined.

Lemma BuildDependencyGraphIn_without_dependencies_witness :
  @BuildDependencyGraphIn sampleCollaborators
    [recordNamed "zzz" None; recordNamed "a" (Some [])] sampleModules emptyStore =
    Ok (None, emptyStore).
Proof.
  apply (@BuildDependencyGraphIn_without_dependencies sampleCollaborators).
  repeat constructor.
Defined.

Lemma BuildDependencyGraphIn_frame_witness :
  tables (storeAfter (@BuildDependencyGraphIn sampleCollaborators sampleRecords
                        sampleModules sampleTables)) = tables sampleTables
  ∧ mapAt (storeAfter (@BuildDependencyGraphIn sampleCollaborators sampleRecords
                         sampleModules sampleTables)) 3%positive !! "b" =
      mapAt sampleTables 3%positive !! "b".
Proof.
  destruct (@BuildDependencyGraphIn_frame sampleCollaborators sampleRecords sampleModules
              sampleTables
              (storeAfter (@BuildDependencyGraphIn sampleCollaborators sampleRecords
                             sampleModules sampleTables)) None)
    as (Htables & _ & Hmaps); [vm_compute; reflexivity|].
  split; [exact Htables|]. apply Hmaps.
  intros pkgmeta modname Hrecord Hmod.
  apply elem_of_cons in Hrecord as [->|Hrecord%list_elem_of_singleton].
  - vm_compute. discriminate.
  - subst pkgmeta. vm_compute. discriminate.
Defined.

Lemma BuildDependencyGraphIn_links_all_witness :
  contents (storeAfter (@BuildDependencyGraphIn sampleCollaborators sampleRecords
                          sampleModules emptyStore)) 1%positive !! "c" =
    Some (copyOf (moduleNamed "c" "3.0" (Some 3%positive))).
Proof.
  destruct (rangeOrder_two "a" "b" (recordNamed "A" (Some ["b"; "C"]))
              (recordNamed "b" (Some ["c"]))) as [Horder _]; [done|].
  apply (@BuildDependencyGraphIn_links_all sampleCollaborators sampleModules sampleTable
           sampleRecords emptyStore _ closed_empty) with
    (key := "a") (pkgmeta := recordNamed "A" (Some ["b"; "C"])) (modname := "C")
    (owner := moduleNamed "a" "1.0" (Some 1%positive))
    (depModule := moduleNamed "c" "3.0" (Some 3%positive));
    [|exact Horder|vm_compute; reflexivity|reflexivity| |vm_compute; reflexivity
     |reflexivity|vm_compute; reflexivity].
  - intros key pkgmeta modname Hkey Hmod. unfold sampleTable in Hkey.
    apply lookup_insert_Some in Hkey as [[_ <-]|[_ Hkey]].
    + apply elem_of_cons in Hmod as [->|Hmod]; [vm_compute; eauto|].
      apply list_elem_of_singleton in Hmod as ->. vm_compute; eauto.
    + apply lookup_insert_Some in Hkey as [[_ <-]|[_ Hkey]];
        [|by rewrite lookup_empty in Hkey].
      apply list_elem_of_singleton in Hmod as ->. vm_compute; eauto.
  - right. left.
Defined.

Lemma MergeMetadataMap_empty_root_witness :
  MergeMetadataMap (Some 3%positive) None sampleTables = Ok (None, sampleTables)
  ∧ MergeMetadataMap (Some 1%positive) None sampleTables = Panic NilMapAssignment.
Proof.
  split.
  - apply (proj1 (MergeMetadataMap_empty_root (Some 3%positive) None sampleTables)).
    reflexivity.
  - apply (proj2 (MergeMetadataMap_empty_root (Some 1%positive) None sampleTables)).
    split; [reflexivity|]. vm_compute. discriminate.
Defined.

Lemma MergeMetadataMapIn_again_witness :
  dom (tableAt
         (returned (None, emptyStore)
            (MergeMetadataMapIn (map_to_list (tableAt sampleTables (Some 1%positive)))
               (Some 1%positive) (Some 2%positive) sampleTables)).2
         (Some 2%positive)) =
    dom (tableAt sampleTables (Some 1%positive)) ∪ dom (tableAt sampleTables (Some 2%positive))
  ∧ ∃ s2,
      MergeMetadataMapIn (map_to_list (tableAt sampleTables (Some 1%positive)))
        (Some 1%positive) (Some 2%positive)
        (returned (None, emptyStore)
           (MergeMetadataMapIn (map_to_list (tableAt sampleTables (Some 1%positive)))
              (Some 1%positive) (Some 2%positive) sampleTables)).2 = Ok (Some 2%positive, s2)
      ∧ tableAt s2 (Some 2%positive) =
          tableAt
            (returned (None, emptyStore)
               (MergeMetadataMapIn (map_to_list (tableAt sampleTables (Some 1%positive)))
                  (Some 1%positive) (Some 2%positive) sampleTables)).2
            (Some 2%positive).
Proof.
  apply (MergeMetadataMapIn_again
           (map_to_list (tableAt sampleTables (Some 1%positive)))
           (map_to_list (tableAt sampleTables (Some 1%positive)))
           (Some 1%positive) 2%positive sampleTables).
  - reflexivity.
  - vm_compute. reflexivity.
  - vm_compute. reflexivity.
Defined.

Lemma RemoveDuplicateRootModule_again_witness :
  RemoveDuplicateRootModule [moduleNamed "root" "" None; moduleNamed "dep1" "" None] =
    Ok [moduleNamed "root" "" None; moduleNamed "dep1" "" None]
  ∧ Forall (λ m, models.Name m ≠ "root") [moduleNamed "dep1" "" None].
Proof.
  destruct (RemoveDuplicateRootModule_again
              [moduleNamed "root" "" None; moduleNamed "dep1" "" None;
               moduleNamed "root" "" None]
              [moduleNamed "root" "" None; moduleNamed "dep1" "" None] eq_refl)
    as (Hfixed & _ & _ & Hnames).
  split; [exact Hfixed|]. exact (Hnames _ _ eq_refl).
Defined.

Lemma GetMetadataList_table_witness :
  (@GetMetadataList sampleCollaborators sampleDecoder
     [{| Packages.Name := "Root" |}; {| Packages.Name := "dep1" |}] sampleTables).1.2 =
    map (λ pkg, @BuildMetadata sampleCollaborators sampleDecoder (Packages.Name pkg) newMetadata)
      [{| Packages.Name := "Root" |}; {| Packages.Name := "dep1" |}]
  ∧ is_Some
      (tableAt
         (@GetMetadataList sampleCollaborators sampleDecoder
            [{| Packages.Name := "Root" |}; {| Packages.Name := "dep1" |}] sampleTables).2
         (@GetMetadataList sampleCollaborators sampleDecoder
            [{| Packages.Name := "Root" |}; {| Packages.Name := "dep1" |}] sampleTables).1.1
       !! @ToLower sampleCollaborators "Root").
Proof.
  destruct (@GetMetadataList_table sampleCollaborators sampleDecoder
              [{| Packages.Name := "Root" |}; {| Packages.Name := "dep1" |}]
              sampleTables
              (@GetMetadataList sampleCollaborators sampleDecoder
                 [{| Packages.Name := "Root" |}; {| Packages.Name := "dep1" |}] sampleTables).2
              (@GetMetadataList sampleCollaborators sampleDecoder
                 [{| Packages.Name := "Root" |}; {| Packages.Name := "dep1" |}] sampleTables).1.1
              (@GetMetadataList sampleCollaborators sampleDecoder
                 [{| Packages.Name := "Root" |}; {| Packages.Name := "dep1" |}] sampleTables).1.2)
    as (Hlist & _ & _ & _ & _ & Hpresent & _); [vm_compute; reflexivity|].
  split; [exact Hlist|]. apply (Hpresent {| Packages.Name := "Root" |}). by left.
Defined.


Lemma ConvertMetadataToModules_licences_witness :
  ∃ new,
    (@ConvertMetadataToModules sampleCollaborators sampleDecoder false
       [{| Packages.Name := "root" |}; {| Packages.Name := "dep1" |}] [] emptyStore).1.2 =
      [] ++ new
    ∧ Forall2
        (λ pkg mod_,
           ∃ si,
             mod_ =
               @BuildModuleLicense sampleCollaborators sampleDecoder
                 (DistInfoPath (@BuildMetadata sampleCollaborators sampleDecoder
                                  (Packages.Name pkg) newMetadata))
                 (@BuildModule sampleCollaborators sampleDecoder false
                    (@BuildMetadata sampleCollaborators sampleDecoder
                       (Packages.Name pkg) newMetadata) si).1)
        [{| Packages.Name := "root" |}; {| Packages.Name := "dep1" |}] new.
Proof.
  destruct (@ConvertMetadataToModules_licences sampleCollaborators sampleDecoder false
              [{| Packages.Name := "root" |}; {| Packages.Name := "dep1" |}] []
              (@ConvertMetadataToModules sampleCollaborators sampleDecoder false
                 [{| Packages.Name := "root" |}; {| Packages.Name := "dep1" |}]
                 [] emptyStore).1.2
              (@ConvertMetadataToModules sampleCollaborators sampleDecoder false
                 [{| Packages.Name := "root" |}; {| Packages.Name := "dep1" |}]
                 [] emptyStore).1.1
              emptyStore
              (@ConvertMetadataToModules sampleCollaborators sampleDecoder false
                 [{| Packages.Name := "root" |}; {| Packages.Name := "dep1" |}]
                 [] emptyStore).2)
    as (new & Hout & _ & Hown); [vm_compute; reflexivity|].
  exists new. split; [exact Hout|]. apply Hown.
  vm_compute. repeat (constructor; [by intros [=]%list_elem_of_singleton|]).
  constructor; [apply not_elem_of_nil|constructor].
Defined.

Lemma fetchRootModule_returns_witness :
  (∃ out, @fetchRootModule sampleCollaborators sampleHost samplePlugin "." emptyStore = Ok out)
  ∧ ¬ (∃ out, @fetchRootModule sampleCollaborators rootlessHost samplePlugin "." emptyStore
              = Ok out).
Proof.
  split.
  - apply (proj1 (@fetchRootModule_returns sampleCollaborators sampleHost samplePlugin
                    "." emptyStore)).
    by split_and!.
  - intros Hrun.
    apply (proj1 (@fetchRootModule_returns sampleCollaborators rootlessHost samplePlugin
                    "." emptyStore)) in Hrun as [Hvalid _].
    discriminate.
Defined.

Lemma GetRootModule_caches_witness :
  ∃ q m1 s1 first m0 s0,
    @GetRootModule sampleCollaborators sampleHost samplePlugin "." emptyStore =
      Ok ((Some q, None), m1, s1)
    ∧ @fetchRootModule sampleCollaborators sampleHost samplePlugin "." emptyStore =
        Ok ((first, None), m0, s0)
    ∧ objs s1 !! q = Some first
    ∧ @GetRootModule sampleCollaborators rootlessHost m1 "elsewhere" s1 =
        Ok ((Some q, None), m1, s1).
Proof.
  destruct (@GetRootModule sampleCollaborators sampleHost samplePlugin "." emptyStore)
    as [[[[p err] m1] s1]|] eqn:Hrun; [|by vm_compute in Hrun].
  destruct (@GetRootModule_caches sampleCollaborators sampleHost samplePlugin "."
              emptyStore p err m1 s1 Hrun) as (-> & q & -> & _ & Hnew & _ & Hagain).
  destruct (Hnew eq_refl) as (_ & first & _ & _ & Hfirst & m0 & s0 & Hfetch & _).
  exists q, m1, s1, first, m0, s0. split; [reflexivity|].
  split; [exact Hfetch|]. split; [exact Hfirst|]. apply Hagain.
Defined.

Lemma ListUsedModules_returns_witness :
  ∃ out, @ListUsedModules sampleCollaborators sampleHost samplePlugin "." emptyStore = Ok out.
Proof.
  apply (proj1 (@ListUsedModules_returns sampleCollaborators sampleHost samplePlugin
                  "." emptyStore
                  ltac:(intros q; discriminate) ltac:(intros t; discriminate))).
  right. eexists. vm_compute. reflexivity.
Defined.

Lemma ListModulesWithDeps_returns_witness :
  ∃ modules m' s0 s',
    @ListModulesWithDeps sampleCollaborators sampleHost samplePlugin "." emptyStore =
      Ok ((Some modules, None), m', s')
    ∧ @ListUsedModules sampleCollaborators sampleHost samplePlugin "." emptyStore =
        Ok ((modules, None), m', s0)
    ∧ tables s' = tables s0.
Proof.
  assert (∃ mods err m' s',
            @ListModulesWithDeps sampleCollaborators sampleHost samplePlugin "." emptyStore =
              Ok ((mods, err), m', s')) as (mods & err & m' & s' & Hrun).
  { eexists _, _, _, _. vm_compute. reflexivity. }
  destruct (@ListModulesWithDeps_returns sampleCollaborators sampleHost samplePlugin "."
              emptyStore mods err m' s' Hrun)
    as (-> & modules & s0 & -> & Hused & _ & Htables & _).
  exists modules, m', s0, s'. split_and!; [exact Hrun|exact Hused|exact Htables].
Defined.

Lemma ListModulesWithDeps_single_root_witness :
  ∃ root new m' s' q,
    @ListModulesWithDeps sampleCollaborators sampleHost samplePlugin "." emptyStore =
      Ok ((Some (root :: new), None), m', s')
    ∧ length new = 1
    ∧ models.Root root = true
    ∧ rootModule m' = Some q
    ∧ objs s' !! q = Some root.
Proof.
  apply (@ListModulesWithDeps_single_root sampleCollaborators sampleHost samplePlugin "."
           emptyStore {| Packages.Name := "root" |}); try reflexivity.
  discriminate.
Defined.
